(** * AcquireCamera: frame acquisition, synchronisation and delivery

    A shallow embedding of [DeviceAdapters/Acquire/AcquireCamera.cpp]:
    the polling protocol against the driver's mapped ring buffers
    ([readSnapImageFrames], [readLiveFrames]), the delivery of frames to the
    core's circular buffer, the camera-selection check of [Initialize], the
    target frame count of [StartSequenceAcquisition], and [GetImageBuffer].

    The driver (cpx) and the core callback are outside of the adapter.  What
    they answer is given by an environment [Env] (scripts indexed by the
    number of the call); what the adapter asks of them is recorded, in
    order, in a trace of [Event]s. *)

From Stdlib Require Import ZArith List String Bool Lia.
From stdpp Require Import base decidable list.

Open Scope Z_scope.

(** ** Machine integers *)

Module Int.

(** Conversion to an unsigned type of [bits] bits. *)
Definition wrap (bits x : Z) : Z := x mod 2 ^ bits.

Definition size_t (x : Z) : Z := wrap 64 x.
Definition uint64_t (x : Z) : Z := wrap 64 x.
Definition uint32_t (x : Z) : Z := wrap 32 x.

(** Conversion to [int] (32 bits, two's complement). *)
Definition int (x : Z) : Z :=
  let u := wrap 32 x in if u <? 2 ^ 31 then u else u - 2 ^ 32.

(** [MAXUINT64] of the Windows SDK. *)
Definition MAXUINT64 : Z := 2 ^ 64 - 1.

End Int.

(** ** Data *)

(** The header of a frame in the driver's ring buffer, with the fields the
    adapter reads, and the payload that follows the header. *)
Record VideoFrame := {
  bytes_of_frame : Z;
  frame_id : Z;
  timestamps_hardware : Z;
  data : list Z
}.

(** Modelled from the spec: [ImgBuffer] of MMDevice, "an owned, mutable pixel
    buffer with width, height, depth (bytes/pixel)". *)
Record ImgBuffer := {
  Width : Z;
  Height : Z;
  Depth : Z;
  GetPixels : list Z
}.

(** Modelled from the spec: [ImgBuffer::Resize], which gives the buffer its
    new geometry and a pixel area of [w * h * d] bytes. *)
Definition Resize (w h d : Z) (_ : ImgBuffer) : ImgBuffer :=
  {| Width := w; Height := h; Depth := d;
     GetPixels := repeat 0 (Z.to_nat (w * h * d)) |}.

Definition empty_ImgBuffer : ImgBuffer :=
  {| Width := 0; Height := 0; Depth := 0; GetPixels := [] |}.

(** The tags [readLiveFrames] puts into the metadata of an image. *)
Record Metadata := {
  CpxFrameId : Z;
  CpxTimeStamp : Z
}.

(** Status codes.  The [ERR_] codes are declared in AcquireCamera.h, the
    [DEVICE_] codes in MMDeviceConstants.h; [DEVICE_OK] and [CpxStatus_Ok]
    are both 0.  [DEVICE_ERR] stands for any other code handed through. *)
Inductive Status :=
| DEVICE_OK
| DEVICE_BUFFER_OVERFLOW
| DEVICE_NONEXISTENT_CHANNEL
| DEVICE_CAMERA_BUSY_ACQUIRING
| ERR_TIMEOUT
| ERR_INVALID_CAMERA_SELECTION
| ERR_CPX_CONFIURE_FAILED
| DEVICE_ERR (code : Z).

#[global] Instance Status_eq_dec : EqDecision Status.
Proof. solve_decision. Defined.

(** [CpxProperties]: the target frame count of the two streams, which
    [StartSequenceAcquisition] writes, and the rest. *)
Record CpxProperties := {
  video0_max_frame_count : Z;
  video1_max_frame_count : Z;
  (** every other setting, as [cpx_get_configuration] gave it *)
  other_settings : list Z
}.

(** A [double], passed through unchanged. *)
Variant double := dbl (bits : Z).

(** Messages sent to [LogMessage]; the numbers are what [std::to_string]
    prints. *)
Inductive Message :=
| Camera1_missed_frame (expected got : Z)
| Camera2_missed_frame (expected got : Z)
| frame_inserted (camera frame : Z)
| Camera_buffer_overflow (camera frame : Z)
| Started_sequence_acquisition
| cpx_configure_failed.

(** The calls the adapter makes to the driver, the core and the runtime. *)
Inductive Event :=
| cpx_map_read (stream : nat)
| cpx_unmap_read (stream : nat) (n : Z)
| sleep_for (milliseconds : Z)
| memcpy (buf : nat) (src : Z) (n : Z)
| InsertImage (buf : nat) (img : ImgBuffer) (md : Metadata)
| ClearImageBuffer
| LogMessage (m : Message)
| PrepareForAcq
| cpx_configure (props : CpxProperties)
| cpx_start
| liveThread_Start (numImages : Z) (interval_ms : double).

(** The members of [AcquireCamera].  [isDual] holds what the method
    [isDual()] of AcquireCamera.h returns, [liveThread_IsActive] what
    [liveThread->IsActive()] returns. *)
Record AcquireCamera := {
  initialized_ : bool;
  demo : bool;
  stopOnOverflow : bool;
  currentCamera : nat;
  multiChannel : bool;
  camera1 : string;
  camera2 : string;
  imgs : list ImgBuffer;
  isDual : bool;
  liveThread_IsActive : bool
}.

(** What the surroundings of the adapter answer. *)
Class Env := {
  (** [sizeof(VideoFrame)], from the driver's headers. *)
  sizeof_VideoFrame : Z;
  (** The name of the empty camera choice, from AcquireCamera.h. *)
  g_Camera_None : string;
  (** [(beg, end)] given by the [k]-th [cpx_map_read] on a stream. *)
  map_script : nat -> nat -> Z * Z;
  (** The frame found at a byte address of the driver's buffer. *)
  frame_at : Z -> VideoFrame;
  (** The byte found [i] bytes after the end of the payload of the frame at
      an address. *)
  memory_past : Z -> nat -> Z;
  (** The status of the [k]-th [InsertImage]. *)
  insert_script : nat -> Status;
  PrepareForAcq_result : Status;
  cpx_get_configuration_result : CpxProperties;
  cpx_configure_result : Status;
  cpx_start_result : Status
}.

(** The state a call runs in. *)
Record World := {
  self : AcquireCamera;
  map_calls : nat -> nat;
  insert_calls : nat;
  trace : list Event
}.

(** ** The monad of the adapter's methods

    A method either finishes with a value in a new world, or its
    behaviour is undefined (an index out of the range of [imgs], a division
    by zero). *)

Inductive Result (A : Type) :=
| Done (a : A) (w : World)
| Undefined.
Arguments Done {A} a w.
Arguments Undefined {A}.

Definition M (A : Type) : Type := World -> Result A.

Definition ret {A} (a : A) : M A := fun w => Done a w.

Definition bind {A B} (m : M A) (f : A -> M B) : M B :=
  fun w => match m w with
           | Done a w' => f a w'
           | Undefined => Undefined
           end.

Declare Scope cam_scope.
Delimit Scope cam_scope with cam.
Notation "x <- m ;; k" := (bind m (fun x => k))
  (at level 100, m at next level, right associativity) : cam_scope.
Notation "m ;; k" := (bind m (fun _ => k))
  (at level 100, right associativity) : cam_scope.
Open Scope cam_scope.

Definition get : M World := fun w => Done w w.
Definition undefined {A} : M A := fun _ => Undefined.

Definition emit (e : Event) : M unit :=
  fun w => Done tt {| self := self w; map_calls := map_calls w;
                      insert_calls := insert_calls w;
                      trace := trace w ++ [e] |}.

Definition modify_self (f : AcquireCamera -> AcquireCamera) : M unit :=
  fun w => Done tt {| self := f (self w); map_calls := map_calls w;
                      insert_calls := insert_calls w; trace := trace w |}.

Definition set_imgs (l : list ImgBuffer) (c : AcquireCamera) : AcquireCamera :=
  {| initialized_ := initialized_ c; demo := demo c;
     stopOnOverflow := stopOnOverflow c; currentCamera := currentCamera c;
     multiChannel := multiChannel c; camera1 := camera1 c;
     camera2 := camera2 c; imgs := l; isDual := isDual c;
     liveThread_IsActive := liveThread_IsActive c |}.

(** ** Calls to the driver *)

Definition do_cpx_map_read `{Env} (stream : nat) : M (Z * Z) :=
  fun w =>
    Done (map_script stream (map_calls w stream))
         {| self := self w;
            map_calls := fun s => if Nat.eqb s stream
                                  then S (map_calls w s) else map_calls w s;
            insert_calls := insert_calls w;
            trace := trace w ++ [cpx_map_read stream] |}.

Definition do_cpx_unmap_read (stream : nat) (n : Z) : M unit :=
  emit (cpx_unmap_read stream n).

Definition do_sleep_for (ms : Z) : M unit := emit (sleep_for ms).

Definition do_LogMessage (m : Message) : M unit := emit (LogMessage m).

(** [(uint8_t* )end - (uint8_t* )cur] as a [size_t]. *)
Definition ConsumedBytes (cur end_ : Z) : Z := Int.size_t (end_ - cur).

(** The [n] bytes a [memcpy] reads at [src->data]: the payload of the
    frame at [src] and, where [n] goes past it, the bytes that follow it in
    the driver's memory. *)
Definition read_data `{Env} (src n : Z) : list Z :=
  take (Z.to_nat n)
       (data (frame_at src) ++ map (memory_past src) (seq 0 (Z.to_nat n))).

(** What a [memcpy] of [bytes] to the start of the pixel area leaves in a
    buffer: the first bytes are replaced, the geometry and the size of the
    pixel area stay. *)
Definition copy_pixels (bytes : list Z) (b : ImgBuffer) : ImgBuffer :=
  {| Width := Width b; Height := Height b; Depth := Depth b;
     GetPixels := take (length (GetPixels b))
                       (bytes ++ drop (length bytes) (GetPixels b)) |}.

(** [memcpy(imgs[buf].GetPixelsRW(), src->data, n)].  A copy of more bytes
    than the pixel area of the buffer has writes past the allocation: it is
    undefined. *)
Definition do_memcpy `{Env} (buf : nat) (src : Z) (n : Z) : M unit :=
  w <- get ;;
  match imgs (self w) !! buf with
  | None => undefined
  | Some b =>
      if Z.of_nat (length (GetPixels b)) <? n then undefined
      else
        emit (memcpy buf src n) ;;
        modify_self (set_imgs (<[buf := copy_pixels (read_data src n) b]>
                                 (imgs (self w))))
  end.

Definition maxRetries : Z := 1000.

(** The loop
    [while (beg == end && retries < maxRetries)
       { retries++; cpx_map_read(...); sleep_for(5ms); }]. *)
Fixpoint retry_loop `{Env} (fuel : nat) (stream : nat)
    (be : Z * Z) (retries : Z) : M (Z * Z * Z) :=
  match fuel with
  | O => ret (be, retries)
  | S fuel' =>
      if (fst be =? snd be) && (retries <? maxRetries) then
        be' <- do_cpx_map_read stream ;;
        do_sleep_for 5 ;;
        retry_loop fuel' stream be' (retries + 1)
      else ret (be, retries)
  end.

(** [cpx_map_read] followed by the retry loop, as it stands four times in
    the source; the result is [(beg, end, retries)].  The loop cannot run
    more than [maxRetries] times, which is the fuel it gets. *)
Definition map_read_retry `{Env} (stream : nat) : M (Z * Z * Z) :=
  be <- do_cpx_map_read stream ;;
  retry_loop (Z.to_nat maxRetries) stream be 0.

(** ** [readSnapImageFrames] *)

Definition snap_stream `{Env} (stream : nat) : M Status :=
  r <- map_read_retry stream ;;
  let '(beg, end_, retries) := r in
  if retries >=? maxRetries then ret ERR_TIMEOUT
  else
    do_memcpy stream beg
      (Int.size_t (bytes_of_frame (frame_at beg) - sizeof_VideoFrame)) ;;
    let n := Int.uint32_t (ConsumedBytes beg end_) in
    do_cpx_unmap_read stream n ;;
    ret DEVICE_OK.

Definition readSnapImageFrames `{Env} : M Status :=
  r <- snap_stream 0%nat ;;
  match r with
  | DEVICE_OK =>
      w <- get ;;
      if (1 <? Z.of_nat (length (imgs (self w)))) then snap_stream 1%nat
      else ret DEVICE_OK
  | _ => ret r
  end.

(** ** [readLiveFrames] *)

Definition do_InsertImage `{Env} (buf : nat) (md : Metadata) : M Status :=
  fun w =>
    match imgs (self w) !! buf with
    | None => Undefined
    | Some b =>
        Done (insert_script (insert_calls w))
             {| self := self w; map_calls := map_calls w;
                insert_calls := S (insert_calls w);
                trace := trace w ++ [InsertImage buf b md] |}
    end.

Definition do_ClearImageBuffer : M unit := emit ClearImageBuffer.

(** The loop over [bufNum] of the multi-channel branch; [left] buffers are
    still to be inserted.  An overflow with [stopOnOverflow] off clears the
    core's buffer and leaves the loop. *)
Fixpoint insert_channels `{Env} (left bufNum : nat) (md : Metadata)
    (currentFrameId : Z) : M unit :=
  match left with
  | O => ret tt
  | S left' =>
      r <- do_InsertImage bufNum md ;;
      do_LogMessage (frame_inserted (Z.of_nat bufNum + 1) currentFrameId) ;;
      w <- get ;;
      if negb (stopOnOverflow (self w))
         && bool_decide (r = DEVICE_BUFFER_OVERFLOW) then
        do_ClearImageBuffer ;;
        do_LogMessage
          (Camera_buffer_overflow (Z.of_nat bufNum + 1) currentFrameId)
      else insert_channels left' (S bufNum) md currentFrameId
  end.

(** The single-channel branch: the buffer of [currentCamera] is inserted. *)
Definition insert_current `{Env} (md : Metadata) (currentFrameId : Z)
  : M unit :=
  w <- get ;;
  let cur := currentCamera (self w) in
  r <- do_InsertImage cur md ;;
  do_LogMessage (frame_inserted (Z.of_nat cur + 1) currentFrameId) ;;
  if negb (stopOnOverflow (self w))
     && bool_decide (r = DEVICE_BUFFER_OVERFLOW) then
    do_ClearImageBuffer ;;
    _ <- do_InsertImage cur md ;;
    do_LogMessage (Camera_buffer_overflow (Z.of_nat cur + 1) currentFrameId)
  else ret tt.

(** [ptr += n] on a [VideoFrame*]: the address moves by [n] elements of
    [sizeof(VideoFrame)] bytes each. *)
Definition VideoFrame_ptr_add `{Env} (ptr n : Z) : Z :=
  Int.size_t (ptr + n * sizeof_VideoFrame).

(** The frame-id check of one stream. *)
Definition check_frame_id `{Env} (missed : Z -> Z -> Message)
    (ptr startFrameId i : Z) : M unit :=
  if negb (frame_id (frame_at ptr) =? Int.uint64_t (startFrameId + i)) then
    do_LogMessage
      (missed (Int.uint64_t (startFrameId + 1)) (frame_id (frame_at ptr)))
  else ret tt.

(** [memcpy(imgs[buf].GetPixelsRW(), ptr->data, Width * Height * Depth)]. *)
Definition composite `{Env} (buf : nat) (ptr : Z) : M unit :=
  w <- get ;;
  match imgs (self w) !! buf with
  | None => undefined
  | Some b => do_memcpy buf ptr (Int.uint32_t (Width b * Height b * Depth b))
  end.

(** The part of a round for the second camera: [if (isDual()) { ... }]. *)
Definition second_stream `{Env} (ptr2 startFrameId i : Z) : M unit :=
  w <- get ;;
  if isDual (self w) then
    check_frame_id Camera2_missed_frame ptr2 startFrameId i ;;
    composite 1 ptr2
  else ret tt.

(** The delivery of one frame to the core: [if (multiChannel) { ... } else
    { ... }]. *)
Definition deliver `{Env} (md : Metadata) (currentFrameId : Z) : M unit :=
  w <- get ;;
  if multiChannel (self w) then
    insert_channels (length (imgs (self w))) 0 md currentFrameId
  else insert_current md currentFrameId.

(** [if (isDual()) ptr2 += beg2->bytes_of_frame;] *)
Definition advance_second `{Env} (beg2 ptr2 : Z) : M Z :=
  w <- get ;;
  ret (if isDual (self w)
       then VideoFrame_ptr_add ptr2 (bytes_of_frame (frame_at beg2))
       else ptr2).

(** The loop [for (size_t i = 0; i < numFrames; i++)]; [left] is
    [numFrames - i]. *)
Fixpoint frame_loop `{Env} (left : nat) (i startFrameId : Z)
    (beg1 beg2 ptr1 ptr2 : Z) : M unit :=
  match left with
  | O => ret tt
  | S left' =>
      check_frame_id Camera1_missed_frame ptr1 startFrameId i ;;
      composite 0 ptr1 ;;
      let md := {| CpxFrameId := frame_id (frame_at ptr1);
                   CpxTimeStamp := timestamps_hardware (frame_at ptr1) |} in
      let currentFrameId := frame_id (frame_at ptr1) in
      second_stream ptr2 startFrameId i ;;
      deliver md currentFrameId ;;
      let ptr1' := VideoFrame_ptr_add ptr1 (bytes_of_frame (frame_at beg1)) in
      ptr2' <- advance_second beg2 ptr2 ;;
      frame_loop left' (i + 1) startFrameId beg1 beg2 ptr1' ptr2'
  end.

(** [ConsumedBytes(beg, end) / beg->bytes_of_frame]. *)
Definition frames_in_range `{Env} (beg end_ : Z) : M Z :=
  if bytes_of_frame (frame_at beg) =? 0 then undefined
  else ret (ConsumedBytes beg end_ / bytes_of_frame (frame_at beg)).

(** The result is the status and [framesRead]. *)
Definition readLiveFrames `{Env} : M (Status * Z) :=
  r1 <- map_read_retry 0 ;;
  let '(beg1, end1, retries) := r1 in
  if retries >=? maxRetries then ret (ERR_TIMEOUT, 0)
  else
    numFrames1 <- frames_in_range beg1 end1 ;;
    let startFrameId := frame_id (frame_at beg1) in
    w <- get ;;
    let dual := isDual (self w) in
    r2 <- (if dual then map_read_retry 1 else ret (0, 0, 0)) ;;
    let '(beg2, end2, retries) := r2 in
    if dual && (retries >=? maxRetries) then ret (ERR_TIMEOUT, 0)
    else
      numFrames2 <- (if dual then frames_in_range beg2 end2 else ret 0) ;;
      let numFrames := if dual then Z.min numFrames1 numFrames2
                       else numFrames1 in
      frame_loop (Z.to_nat numFrames) 0 startFrameId beg1 beg2 beg1 beg2 ;;
      do_cpx_unmap_read 0
        (Int.size_t (numFrames * bytes_of_frame (frame_at beg1))) ;;
      (if dual && negb (beg2 =? 0) then
         do_cpx_unmap_read 1
           (Int.size_t (numFrames * bytes_of_frame (frame_at beg2)))
       else ret tt) ;;
      ret (DEVICE_OK, Int.int numFrames).

(** ** [Initialize]: the check of the camera selection *)

(** [s.rfind(p, 0) == 0]: [s] starts with [p]. *)
Definition starts_with (p s : string) : bool := String.prefix p s.

Definition set_selection (m : bool) (c1 c2 : string) (c : AcquireCamera)
  : AcquireCamera :=
  {| initialized_ := initialized_ c; demo := demo c;
     stopOnOverflow := stopOnOverflow c; currentCamera := currentCamera c;
     multiChannel := m; camera1 := c1; camera2 := c2; imgs := imgs c;
     isDual := isDual c; liveThread_IsActive := liveThread_IsActive c |}.

Definition set_demo (d : bool) (c : AcquireCamera) : AcquireCamera :=
  {| initialized_ := initialized_ c; demo := d;
     stopOnOverflow := stopOnOverflow c; currentCamera := currentCamera c;
     multiChannel := multiChannel c; camera1 := camera1 c;
     camera2 := camera2 c; imgs := imgs c; isDual := isDual c;
     liveThread_IsActive := liveThread_IsActive c |}.

(** [Initialize] up to the point where the driver is loaded.
    [prop_Camera_1] and [prop_Camera_2] are the values of the two camera
    properties; [load_and_configure] is the rest of the method (the driver
    is initialised and configured, the properties and buffers are set
    up). *)
Definition Initialize `{Env} (prop_Camera_1 prop_Camera_2 : string)
    (load_and_configure : M Status) : M Status :=
  w <- get ;;
  if initialized_ (self w) then ret DEVICE_OK
  else
    modify_self (fun c => set_selection (isDual c) prop_Camera_1
                                        prop_Camera_2 c) ;;
    w <- get ;;
    let camera1 := camera1 (self w) in
    let camera2 := camera2 (self w) in
    if String.eqb camera1 camera2 then ret ERR_INVALID_CAMERA_SELECTION
    else if String.eqb camera1 g_Camera_None
    then ret ERR_INVALID_CAMERA_SELECTION
    else if starts_with "simulated" camera1 then
      if negb (String.eqb camera2 g_Camera_None)
         && negb (starts_with "simulated" camera2)
      then ret ERR_INVALID_CAMERA_SELECTION
      else modify_self (set_demo true) ;; load_and_configure
    else modify_self (set_demo false) ;; load_and_configure.

(** ** [StartSequenceAcquisition] *)

Definition set_stopOnOverflow (stop : bool) (c : AcquireCamera)
  : AcquireCamera :=
  {| initialized_ := initialized_ c; demo := demo c;
     stopOnOverflow := stop; currentCamera := currentCamera c;
     multiChannel := multiChannel c; camera1 := camera1 c;
     camera2 := camera2 c; imgs := imgs c; isDual := isDual c;
     liveThread_IsActive := liveThread_IsActive c |}.

Definition set_active (a : bool) (c : AcquireCamera) : AcquireCamera :=
  {| initialized_ := initialized_ c; demo := demo c;
     stopOnOverflow := stopOnOverflow c; currentCamera := currentCamera c;
     multiChannel := multiChannel c; camera1 := camera1 c;
     camera2 := camera2 c; imgs := imgs c; isDual := isDual c;
     liveThread_IsActive := a |}.

(** [numImages == 0 ? MAXUINT64 : numImages], stored in a [uint64_t]. *)
Definition max_frame_count_of (numImages : Z) : Z :=
  if numImages =? 0 then Int.MAXUINT64 else Int.uint64_t numImages.

(** Modelled from the spec: [liveThread->Start] of SequenceThread.h starts
    the Background Poller, after which the camera is capturing. *)
Definition do_liveThread_Start (numImages : Z) (interval_ms : double)
  : M unit :=
  emit (liveThread_Start numImages interval_ms) ;;
  modify_self (set_active true).

Definition StartSequenceAcquisition `{Env} (numImages : Z)
    (interval_ms : double) (stopOnOverflow_ : bool) : M Status :=
  w <- get ;;
  if liveThread_IsActive (self w) then ret DEVICE_CAMERA_BUSY_ACQUIRING
  else
    emit PrepareForAcq ;;
    if negb (bool_decide (PrepareForAcq_result = DEVICE_OK))
    then ret PrepareForAcq_result
    else
      let props :=
        {| video0_max_frame_count := max_frame_count_of numImages;
           video1_max_frame_count := max_frame_count_of numImages;
           other_settings := other_settings cpx_get_configuration_result |} in
      emit (cpx_configure props) ;;
      if negb (bool_decide (cpx_configure_result = DEVICE_OK)) then
        do_LogMessage cpx_configure_failed ;;
        ret ERR_CPX_CONFIURE_FAILED
      else
        emit cpx_start ;;
        if negb (bool_decide (cpx_start_result = DEVICE_OK))
        then ret cpx_start_result
        else
          do_LogMessage Started_sequence_acquisition ;;
          modify_self (set_stopOnOverflow stopOnOverflow_) ;;
          do_liveThread_Start numImages interval_ms ;;
          ret DEVICE_OK.

(** ** [setupBuffers] and [GetImageBuffer] *)

Definition setupBuffers (width height depth : Z) (dual : bool) : M unit :=
  modify_self
    (set_imgs
       (if dual then
          [Resize width height depth empty_ImgBuffer;
           Resize width height depth empty_ImgBuffer]
        else [Resize width height depth empty_ImgBuffer])).

(** What [GetImageBuffer] returns: no buffer, or the pixels of [imgs[buf]]. *)
Inductive PixelPointer :=
| nullptr
| pixels_of (buf : nat) (p : list Z).

(** [imgs[i].GetPixels()]; an index out of range is undefined. *)
Definition imgs_GetPixels (i : nat) : M PixelPointer :=
  w <- get ;;
  match imgs (self w) !! i with
  | None => undefined
  | Some b => ret (pixels_of i (GetPixels b))
  end.

(** [GetImageBuffer(unsigned channel)]; [imgs.size() - 1] is a [size_t]. *)
Definition GetImageBuffer (channel : Z) : M PixelPointer :=
  w <- get ;;
  if channel >? Int.size_t (Z.of_nat (length (imgs (self w))) - 1)
  then ret nullptr
  else if multiChannel (self w) then imgs_GetPixels (Z.to_nat channel)
  else imgs_GetPixels (currentCamera (self w)).

(** ** Reading a run

    [wp m w Q]: from [w] the method [m] finishes, with a value and a world
    that satisfy [Q]. *)
Definition wp {A} (m : M A) (w : World) (Q : A -> World -> Prop) : Prop :=
  match m w with
  | Done a w' => Q a w'
  | Undefined => False
  end.

(** The events a call added to the trace. *)
Definition new_events (w w' : World) : list Event :=
  drop (length (trace w)) (trace w').

Definition is_empty (be : Z * Z) : bool := fst be =? snd be.

(** How many of the answers [f c], [f (c+1)], ... are empty ranges before
    the first one that is not, counting at most [bound]. *)
Fixpoint empty_run (f : nat -> Z * Z) (c bound : nat) : nat :=
  match bound with
  | O => O
  | S b => if is_empty (f c) then S (empty_run f (S c) b) else O
  end.

(** The number of retries a poll of [stream] makes from [w], and the range
    it ends with. *)
Definition retries_of `{Env} (stream : nat) (w : World) : nat :=
  empty_run (map_script stream) (map_calls w stream) (Z.to_nat maxRetries).

Definition range_of `{Env} (stream : nat) (w : World) : Z * Z :=
  map_script stream (map_calls w stream + retries_of stream w)%nat.

(** The calls of a poll that retries [k] times. *)
Definition poll_events (stream : nat) (k : nat) : list Event :=
  cpx_map_read stream :: concat (repeat [cpx_map_read stream; sleep_for 5] k).

(** The world after a poll of [stream] with [k] retries. *)
Definition polled (stream k : nat) (w w' : World) : Prop :=
  self w' = self w /\
  insert_calls w' = insert_calls w /\
  (forall s, map_calls w' s =
             if Nat.eqb s stream then (map_calls w s + S k)%nat
             else map_calls w s) /\
  trace w' = trace w ++ poll_events stream k.

(** The number of bytes [readLiveFrames] copies into a buffer:
    [Width * Height * Depth]. *)
Definition frame_bytes (b : ImgBuffer) : Z :=
  Int.uint32_t (Width b * Height b * Depth b).

(** For every buffer, the number of bytes [readLiveFrames] copies into it
    and the size of its pixel area. *)
Definition areas (c : AcquireCamera) : list (Z * Z) :=
  map (fun b => (frame_bytes b, Z.of_nat (length (GetPixels b)))) (imgs c).

(** What a run leaves untouched while it polls, copies and inserts. *)
Definition setup (w : World)
  : bool * nat * bool * bool * nat * list (Z * Z) :=
  (stopOnOverflow (self w), currentCamera (self w), multiChannel (self w),
   isDual (self w), length (imgs (self w)), areas (self w)).

(** The pixel area of [imgs[i]], if there is such a buffer, has room for
    the [Width * Height * Depth] bytes of a frame. *)
Definition has_room (c : AcquireCamera) (i : nat) : Prop :=
  forall bytes area, areas c !! i = Some (bytes, area) -> bytes <= area.

(** The buffers [readLiveFrames] indexes are there: [imgs[0]], [imgs[1]]
    with two cameras, [imgs[currentCamera]] in single-channel mode; and
    the buffers it copies frames into have the pixel area of their
    geometry, as [ImgBuffer::Resize] leaves them. *)
Definition buffers_ok (w : World) : Prop :=
  (1 <= length (imgs (self w)))%nat /\
  (isDual (self w) = true -> 2 <= length (imgs (self w)))%nat /\
  (multiChannel (self w) = false ->
   currentCamera (self w) < length (imgs (self w)))%nat /\
  has_room (self w) 0 /\
  (isDual (self w) = true -> has_room (self w) 1).

(** The source addresses of the frames copied into [imgs[buf]]. *)
Definition sources (buf : nat) (t : list Event) : list Z :=
  flat_map (fun e => match e with
                     | memcpy b src _ => if Nat.eqb b buf then [src] else []
                     | _ => []
                     end) t.

(** The byte counts given to [cpx_unmap_read] on a stream. *)
Definition unmapped (stream : nat) (t : list Event) : list Z :=
  flat_map (fun e => match e with
                     | cpx_unmap_read s n =>
                         if Nat.eqb s stream then [n] else []
                     | _ => []
                     end) t.

(** The missed-frame warnings of a camera (1 or 2), as (expected, got). *)
Definition missed_frames (camera : nat) (t : list Event) : list (Z * Z) :=
  flat_map (fun e => match e with
                     | LogMessage (Camera1_missed_frame x g) =>
                         if Nat.eqb camera 1 then [(x, g)] else []
                     | LogMessage (Camera2_missed_frame x g) =>
                         if Nat.eqb camera 2 then [(x, g)] else []
                     | _ => []
                     end) t.

(** The calls to the core's circular buffer. *)
Definition core_calls (t : list Event) : list Event :=
  flat_map (fun e => match e with
                     | InsertImage _ _ _ | ClearImageBuffer => [e]
                     | _ => []
                     end) t.

(** The metadata of the images given to [InsertImage] from [imgs[buf]]. *)
Definition inserted (buf : nat) (t : list Event) : list Metadata :=
  flat_map (fun e => match e with
                     | InsertImage b _ md => if Nat.eqb b buf then [md] else []
                     | _ => []
                     end) t.

(** The metadata of all images given to [InsertImage], in order. *)
Definition inserts (t : list Event) : list Metadata :=
  flat_map (fun e => match e with
                     | InsertImage _ _ md => [md]
                     | _ => []
                     end) t.

(** The metadata [readLiveFrames] builds for the frame at [ptr]. *)
Definition metadata_at `{Env} (ptr : Z) : Metadata :=
  {| CpxFrameId := frame_id (frame_at ptr);
     CpxTimeStamp := timestamps_hardware (frame_at ptr) |}.

(** Events of the delivery to the core: inserts, clears and their log
    lines. *)
Definition sink_event (e : Event) : Prop :=
  match e with
  | InsertImage _ _ _ | ClearImageBuffer
  | LogMessage (frame_inserted _ _)
  | LogMessage (Camera_buffer_overflow _ _) => True
  | _ => False
  end.

(** The addresses [ptr] takes in [n] rounds of [ptr += stride]. *)
Fixpoint frame_ptrs `{Env} (ptr stride : Z) (n : nat) : list Z :=
  match n with
  | O => []
  | S n' => ptr :: frame_ptrs (VideoFrame_ptr_add ptr stride) stride n'
  end.

(** The warnings the frame-id check of a camera gives over [n] rounds,
    from round [i] on. *)
Fixpoint expected_warnings `{Env} (startFrameId i : Z)
    (ptr stride : Z) (n : nat) : list (Z * Z) :=
  match n with
  | O => []
  | S n' =>
      (if frame_id (frame_at ptr) =? Int.uint64_t (startFrameId + i) then []
       else [(Int.uint64_t (startFrameId + 1), frame_id (frame_at ptr))])
      ++ expected_warnings startFrameId (i + 1)
           (VideoFrame_ptr_add ptr stride) stride n'
  end.

(** The calls of the single-channel delivery of one frame, given the status
    [r] of the first insert. *)
Definition single_channel_calls (stop : bool) (r : Status) (cur : nat)
    (b : ImgBuffer) (md : Metadata) (currentFrameId : Z) : list Event :=
  [InsertImage cur b md;
   LogMessage (frame_inserted (Z.of_nat cur + 1) currentFrameId)] ++
  (if negb stop && bool_decide (r = DEVICE_BUFFER_OVERFLOW) then
     [ClearImageBuffer; InsertImage cur b md;
      LogMessage (Camera_buffer_overflow (Z.of_nat cur + 1) currentFrameId)]
   else []).

(** What one round of the frame loop and the loop as a whole give: the
    setup is kept and the new events [t] are described. *)
Definition loop_post `{Env} (w : World) (P : list Event -> Prop)
  : unit -> World -> Prop :=
  fun _ w' =>
    setup w' = setup w /\ map_calls w' = map_calls w /\
    exists t, trace w' = trace w ++ t /\ (forall s, unmapped s t = []) /\ P t.

(** The stride, the number of whole frames and the first frame id of the
    range a poll of [stream] ends with. *)
Definition stride_of `{Env} (stream : nat) (w : World) : Z :=
  bytes_of_frame (frame_at (fst (range_of stream w))).

Definition available `{Env} (stream : nat) (w : World) : Z :=
  ConsumedBytes (fst (range_of stream w)) (snd (range_of stream w))
  / stride_of stream w.

(** The batch size of a streaming cycle started in [w]. *)
Definition batch_size `{Env} (w : World) : Z :=
  if isDual (self w) then Z.min (available 0 w) (available 1 w)
  else available 0 w.

Definition startFrameId_of `{Env} (w : World) : Z :=
  frame_id (frame_at (fst (range_of 0 w))).

(** A streaming cycle started in [w] gets frames from every stream it
    polls, with a stride that is not zero, and has its buffers. *)
Definition cycle_ready `{Env} (w : World) : Prop :=
  buffers_ok w /\
  (retries_of 0 w < Z.to_nat maxRetries)%nat /\ 0 < stride_of 0 w /\
  (isDual (self w) = true ->
   (retries_of 1 w < Z.to_nat maxRetries)%nat /\ 0 < stride_of 1 w).

(** ** Properties of a trace named by the specification *)

(** The addresses of [n] contiguous frames of [stride] bytes from [beg]:
    frame [i] lies [i * stride] bytes after the start of the range. *)
Definition contiguous_frames (beg stride : Z) (n : nat) : list Z :=
  map (fun i => beg + Z.of_nat i * stride) (seq 0 n).


(** The first frame of the range a poll of [stream] ends with, and the
    number of bytes a snap copies out of it. *)
Definition first_frame `{Env} (stream : nat) (w : World) : VideoFrame :=
  frame_at (fst (range_of stream w)).

Definition snap_bytes `{Env} (stream : nat) (w : World) : Z :=
  Int.size_t (bytes_of_frame (first_frame stream w) - sizeof_VideoFrame).

(** The bytes a snap copies from [stream] fit the pixel area of the buffer
    of the stream. *)
Definition snap_fits `{Env} (stream : nat) (w : World) : Prop :=
  forall b, imgs (self w) !! stream = Some b ->
            snap_bytes stream w <= Z.of_nat (length (GetPixels b)).

(** A snap started in [w] gets a frame from every stream it polls and has
    its buffers, with room for what it copies. *)
Definition snap_ready `{Env} (w : World) : Prop :=
  (1 <= length (imgs (self w)))%nat /\
  (retries_of 0 w < Z.to_nat maxRetries)%nat /\
  snap_fits 0 w /\
  ((1 < length (imgs (self w)))%nat ->
   (retries_of 1 w < Z.to_nat maxRetries)%nat /\ snap_fits 1 w).

(** The camera selection [Initialize] rejects. *)
Definition rejected_selection `{Env} (camera1 camera2 : string) : bool :=
  String.eqb camera1 camera2
  || String.eqb camera1 g_Camera_None
  || (starts_with "simulated" camera1
      && negb (String.eqb camera2 g_Camera_None)
      && negb (starts_with "simulated" camera2)).

(** ** Example surroundings

    Two rings of frames of 96 bytes (a header of 88 bytes and 8 bytes of
    pixels), stream 0 from address 4096 and stream 1 from address 8192, with
    frame ids from 100 on.  No frame lies elsewhere. *)

Definition zero_frame : VideoFrame :=
  {| bytes_of_frame := 0; frame_id := 0; timestamps_hardware := 0;
     data := [] |}.

Definition ring (base first_id count : Z) (a : Z) : option VideoFrame :=
  if (base <=? a) && (a <? base + 96 * count) && ((a - base) mod 96 =? 0)
  then Some {| bytes_of_frame := 96;
               frame_id := first_id + (a - base) / 96;
               timestamps_hardware := 1000 * (first_id + (a - base) / 96);
               data := repeat (first_id + (a - base) / 96) 8 |}
  else None.

Definition two_rings (count0 count1 : Z) (a : Z) : VideoFrame :=
  match ring 4096 100 count0 a, ring 8192 100 count1 a with
  | Some f, _ => f
  | None, Some f => f
  | None, None => zero_frame
  end.

Definition example_env (ranges : nat -> nat -> Z * Z)
    (mem : Z -> VideoFrame) (inserts : nat -> Status) : Env :=
  {| sizeof_VideoFrame := 88;
     g_Camera_None := "None";
     map_script := ranges;
     frame_at := mem;
     memory_past := fun _ _ => 0;
     insert_script := inserts;
     PrepareForAcq_result := DEVICE_OK;
     cpx_get_configuration_result :=
       {| video0_max_frame_count := 1; video1_max_frame_count := 1;
          other_settings := [] |};
     cpx_configure_result := DEVICE_OK;
     cpx_start_result := DEVICE_OK |}.

(** The ranges a driver gives when [count0] and [count1] frames are there
    from the first call on. *)
Definition frames_ready (count0 count1 : Z) (stream _ : nat) : Z * Z :=
  match stream with
  | O => (4096, 4096 + 96 * count0)
  | _ => (8192, 8192 + 96 * count1)
  end.

(** Stream 0 has nothing for the first call and 999 retries; a frame is
    there at the 1000th retry. *)
Definition frame_at_last_retry (stream k : nat) : Z * Z :=
  if (k <? 1000)%nat then (4096, 4096) else (4096, 4096 + 96).

Definition example_buffer : ImgBuffer := Resize 4 2 1 empty_ImgBuffer.

Definition example_camera (dual stop : bool) : AcquireCamera :=
  {| initialized_ := true; demo := true; stopOnOverflow := stop;
     currentCamera := 0; multiChannel := dual;
     camera1 := "simulated: uniform random";
     camera2 := if dual then "simulated: radial sin" else "None";
     imgs := if dual then [example_buffer; example_buffer]
             else [example_buffer];
     isDual := dual; liveThread_IsActive := false |}.

Definition fresh (c : AcquireCamera) : World :=
  {| self := c; map_calls := fun _ => O; insert_calls := O; trace := [] |}.

(** Scenario A of the specification: both streams start at frame 100 and
    have 5 frames. *)
Definition scenario_A : Env :=
  example_env (frames_ready 5 5) (two_rings 5 5) (fun _ => DEVICE_OK).

(** A single stream with two frames and a core buffer that is full. *)
Definition full_core : Env :=
  example_env (frames_ready 2 0) (two_rings 2 0)
              (fun _ => DEVICE_BUFFER_OVERFLOW).

(** A single stream whose first frame comes at the 1000th retry. *)
Definition late_frame : Env :=
  example_env frame_at_last_retry (two_rings 1 0) (fun _ => DEVICE_OK).

(** A single stream with one frame; the core buffer is full at the first
    insert only. *)
Definition full_once : Env :=
  example_env (frames_ready 1 0) (two_rings 1 0)
              (fun k => match k with
                        | O => DEVICE_BUFFER_OVERFLOW
                        | _ => DEVICE_OK
                        end).

(** The camera as the constructor leaves it ([MULTI_CHANNEL] is [true]);
    [dual] is what [isDual()] will answer. *)
Definition constructed (dual : bool) : AcquireCamera :=
  {| initialized_ := false; demo := true; stopOnOverflow := false;
     currentCamera := 0; multiChannel := true; camera1 := ""; camera2 := "";
     imgs := []; isDual := dual; liveThread_IsActive := false |}.

(** A stand-in for the rest of [Initialize]: the driver is configured. *)
Definition configure_driver `{Env} : M Status :=
  emit (cpx_configure cpx_get_configuration_result) ;;
  ret cpx_configure_result.

(** The properties given to [cpx_configure]. *)
Definition configured (t : list Event) : list CpxProperties :=
  flat_map (fun e => match e with
                     | cpx_configure props => [props]
                     | _ => []
                     end) t.

(** The byte length of the range a poll of [stream] ends with. *)
Definition range_bytes `{Env} (stream : nat) (w : World) : Z :=
  ConsumedBytes (fst (range_of stream w)) (snd (range_of stream w)).


(** Scenario B of the specification: stream 0 has 5 frames, stream 1 has
    3. *)
Definition scenario_B : Env :=
  example_env (frames_ready 5 3) (two_rings 5 3) (fun _ => DEVICE_OK).

(** A frame of 96 bytes with the given id. *)
Definition frame_with_id (id : Z) : VideoFrame :=
  {| bytes_of_frame := 96; frame_id := id; timestamps_hardware := 1000 * id;
     data := repeat id 8 |}.

(** Memory in which the range from 4096 holds three frames with ids 100,
    102 and 103 (frame 101 was dropped), and frames with ids 101 and 102
    lie 88 and 176 strides after the start of the range. *)
Definition memory_with_gap (a : Z) : VideoFrame :=
  if a =? 4096 then frame_with_id 100
  else if a =? 4096 + 96 then frame_with_id 102
  else if a =? 4096 + 2 * 96 then frame_with_id 103
  else if a =? 4096 + 96 * 88 then frame_with_id 101
  else if a =? 4096 + 2 * 96 * 88 then frame_with_id 102
  else zero_frame.

(** A single stream whose range holds the three frames with ids 100, 102
    and 103. *)
Definition dropped_frame : Env :=
  example_env (frames_ready 3 0) memory_with_gap (fun _ => DEVICE_OK).

(** A single stream whose frame has 16 bytes of pixels after its header. *)
Definition large_frame : Env :=
  example_env (frames_ready 1 0)
              (fun a => if a =? 4096
                        then {| bytes_of_frame := 88 + 16; frame_id := 100;
                                timestamps_hardware := 100000;
                                data := repeat 7 16 |}
                        else zero_frame)
              (fun _ => DEVICE_OK).

(** ** More observations of a run *)

(** How often [cpx_map_read] was called on a stream. *)
Definition map_reads (stream : nat) (t : list Event) : nat :=
  length (flat_map (fun e => match e with
                             | cpx_map_read s =>
                                 if Nat.eqb s stream then [tt] else []
                             | _ => []
                             end) t).

(** The time slept, in milliseconds. *)
Definition slept (t : list Event) : Z :=
  fold_right (fun e acc => match e with
                           | sleep_for ms => ms + acc
                           | _ => acc
                           end) 0 t.

(** Every answer a poll of [stream] started in [w] can look at is an empty
    range. *)
Definition stream_starves `{Env} (stream : nat) (w : World) : Prop :=
  forall j, (j < Z.to_nat maxRetries)%nat ->
            is_empty (map_script stream (map_calls w stream + j)%nat) = true.

(** A driver that never has a frame on stream 0, and one that has frames on
    stream 0 only. *)
Definition no_frames : Env :=
  example_env (fun _ _ => (4096, 4096)) (two_rings 0 0) (fun _ => DEVICE_OK).

Definition second_stream_silent : Env :=
  example_env (fun stream _ => match stream with
                               | O => (4096, 4096 + 96 * 2)
                               | _ => (8192, 8192)
                               end)
              (two_rings 2 0) (fun _ => DEVICE_OK).

(** The geometry of the image buffers. *)
Definition geometry (c : AcquireCamera) : list (Z * Z * Z) :=
  map (fun b => (Width b, Height b, Depth b)) (imgs c).

(** How often the core's buffer was cleared. *)
Definition clears (t : list Event) : nat :=
  length (flat_map (fun e => match e with
                             | ClearImageBuffer => [tt]
                             | _ => []
                             end) t).

(** The calls of the multi-channel delivery of one frame: the buffers
    [bufs], numbered from [bufNum], are inserted in turn; [answers k] is
    the status of the next insert. *)
Fixpoint multi_channel_calls (stop : bool) (answers : nat -> Status)
    (k : nat) (bufs : list ImgBuffer) (bufNum : nat) (md : Metadata)
    (currentFrameId : Z) : list Event :=
  match bufs with
  | [] => []
  | b :: rest =>
      [InsertImage bufNum b md;
       LogMessage (frame_inserted (Z.of_nat bufNum + 1) currentFrameId)] ++
      (if negb stop && bool_decide (answers k = DEVICE_BUFFER_OVERFLOW) then
         [ClearImageBuffer;
          LogMessage (Camera_buffer_overflow (Z.of_nat bufNum + 1)
                                             currentFrameId)]
       else multi_channel_calls stop answers (S k) rest (S bufNum) md
              currentFrameId)
  end.

(** One [InsertImage] for each of [bufs], numbered from [bufNum]. *)
Definition channel_inserts (bufNum : nat) (bufs : list ImgBuffer)
    (md : Metadata) : list Event :=
  imap (fun i b => InsertImage (bufNum + i) b md) bufs.

(** The images a frame is delivered as: every buffer in multi-channel mode,
    one otherwise. *)
Definition channels (w : World) : nat :=
  if multiChannel (self w) then length (imgs (self w)) else 1%nat.

(** Events of polling, and of giving ranges back. *)
Definition poll_event (e : Event) : Prop :=
  match e with
  | cpx_map_read _ | sleep_for _ => True
  | _ => False
  end.

Definition unmap_event (e : Event) : Prop :=
  match e with
  | cpx_unmap_read _ _ => True
  | _ => False
  end.

(** The most images one frame can be delivered as: every buffer in
    multi-channel mode; the insert and its one retry otherwise. *)
Definition max_inserts (w : World) : nat :=
  if multiChannel (self w) then length (imgs (self w)) else 2%nat.

(** The metadata of the inserts of a batch in which the frame at the
    [j]-th address of [ptrs] is inserted [ks !! j] times. *)
Definition delivered `{Env} (ks : list nat) (ptrs : list Z) : list Metadata :=
  concat (zip_with (fun k p => replicate k (metadata_at p)) ks ptrs).

(** ** The helper [next] *)

(** [next(cur)]: the address [cur->bytes_of_frame] bytes after [cur]. *)
Definition next `{Env} (cur : Z) : Z :=
  Int.size_t (cur + bytes_of_frame (frame_at cur)).

(** The addresses [n] calls of [next] visit from [cur] on. *)
Fixpoint next_frames `{Env} (cur : Z) (n : nat) : list Z :=
  match n with
  | O => []
  | S n' => cur :: next_frames (next cur) n'
  end.

(** ** Channels *)

(** [GetImageBuffer()], the overload without a channel. *)
Definition GetImageBuffer_current : M PixelPointer :=
  w <- get ;;
  imgs_GetPixels (currentCamera (self w)).

(** [GetNumberOfChannels]: [(unsigned) imgs.size()], or 1. *)
Definition GetNumberOfChannels : M Z :=
  w <- get ;;
  ret (if multiChannel (self w)
       then Int.uint32_t (Z.of_nat (length (imgs (self w))))
       else 1).

(** [GetChannelName]: the status and, with [DEVICE_OK], the string copied
    to [name]. *)
Definition GetChannelName (channel : Z) : M (Status * option string) :=
  w <- get ;;
  if channel >? Int.size_t (Z.of_nat (length (imgs (self w))) - 1)
  then ret (DEVICE_NONEXISTENT_CHANNEL, None)
  else ret (DEVICE_OK,
            Some (if channel =? 0 then "Camera-1"%string
                  else "Camera-2"%string)).

(** ** [OnDevice] *)

(** Modelled from the spec: the action a property handler is called for
    (the generic action hook of the property layer), [MM::ActionType] of
    MMDeviceConstants.h. *)
Inductive ActionType :=
| NoAction
| BeforeGet
| AfterSet
| IsSequenceable
| AfterLoadSequence
| StartSequence
| StopSequence.

Definition set_currentCamera (n : nat) (c : AcquireCamera) : AcquireCamera :=
  {| initialized_ := initialized_ c; demo := demo c;
     stopOnOverflow := stopOnOverflow c; currentCamera := n;
     multiChannel := multiChannel c; camera1 := camera1 c;
     camera2 := camera2 c; imgs := imgs c; isDual := isDual c;
     liveThread_IsActive := liveThread_IsActive c |}.

(** [pProp] is the value the property holds when the handler is called; the
    result is the status and the value the property holds afterwards. *)
Definition OnDevice (pProp : string) (eAct : ActionType)
  : M (Status * string) :=
  match eAct with
  | BeforeGet =>
      w <- get ;;
      ret (DEVICE_OK,
           if Nat.eqb (currentCamera (self w)) 0 then camera1 (self w)
           else camera2 (self w))
  | AfterSet =>
      w <- get ;;
      (if String.eqb pProp (camera1 (self w))
       then modify_self (set_currentCamera 0)
       else modify_self (set_currentCamera 1)) ;;
      ret (DEVICE_OK, pProp)
  | _ => ret (DEVICE_OK, pProp)
  end.

(** ** [SnapImage] *)

(** How a method that can throw ends: with a status, or with the
    [std::exception] of a failed [cpx_start]. *)
Inductive Outcome :=
| returned (s : Status)
| thrown_cpx_start_failed.

(** The properties [SnapImage] configures: one frame on stream 0, and on
    stream 1 with two cameras. *)
Definition single_frame_props `{Env} (c : AcquireCamera) : CpxProperties :=
  {| video0_max_frame_count := 1;
     video1_max_frame_count :=
       if isDual c then 1
       else video1_max_frame_count cpx_get_configuration_result;
     other_settings := other_settings cpx_get_configuration_result |}.

Section Snap.

Context `{Env}.

(** [cpx_stop(cpx)]: a call into the driver, which may do to the state
    whatever a method can. *)
Variable cpx_stop : M unit.

Definition SnapImage : M Outcome :=
  w <- get ;;
  emit (cpx_configure (single_frame_props (self w))) ;;
  if negb (bool_decide (cpx_configure_result = DEVICE_OK)) then
    do_LogMessage cpx_configure_failed ;;
    ret (returned ERR_CPX_CONFIURE_FAILED)
  else
    emit cpx_start ;;
    if negb (bool_decide (cpx_start_result = DEVICE_OK))
    then ret thrown_cpx_start_failed
    else
      r <- readSnapImageFrames ;;
      cpx_stop ;;
      ret (returned r).

End Snap.

(** The world after further calls [t]. *)
Definition after_calls (t : list Event) (w : World) : World :=
  {| self := self w; map_calls := map_calls w;
     insert_calls := insert_calls w; trace := trace w ++ t |}.

(** A value of the property [OnDevice] serves that names one of the two
    cameras. *)
Definition names_a_camera (dev : string) (c : AcquireCamera) : Prop :=
  dev = camera1 c \/ dev = camera2 c.


(** The properties [StartSequenceAcquisition] configures. *)
Definition sequence_props `{Env} (numImages : Z) : CpxProperties :=
  {| video0_max_frame_count := max_frame_count_of numImages;
     video1_max_frame_count := max_frame_count_of numImages;
     other_settings := other_settings cpx_get_configuration_result |}.

(** Two streams with one frame each; the core buffer is full at the second
    insert only. *)
Definition second_insert_overflows : Env :=
  example_env (frames_ready 1 1) (two_rings 1 1)
              (fun k => match k with
                        | 1%nat => DEVICE_BUFFER_OVERFLOW
                        | _ => DEVICE_OK
                        end).

(** ** The images given to the core *)

(** The image starts with the payload of the frame at [ptr], as far as
    [frame_bytes] go. *)
Definition holds_frame `{Env} (ptr : Z) (img : ImgBuffer) : Prop :=
  exists rest,
    GetPixels img
    = take (Z.to_nat (frame_bytes img)) (data (frame_at ptr)) ++ rest.

(** An [InsertImage] of a batch whose rounds read stream 0 at [ptrs1] and
    stream 1 at [ptrs2]: the image belongs to one round [j]; it carries the
    frame id and the timestamp of the frame of stream 0 of that round; from
    buffer 0 it holds that frame, and from buffer 1, with two cameras, the
    frame of stream 1 of the same round. *)
Definition image_of_batch `{Env} (dual : bool) (ptrs1 ptrs2 : list Z)
    (e : Event) : Prop :=
  match e with
  | InsertImage buf img md =>
      exists j p1,
        ptrs1 !! j = Some p1 /\ md = metadata_at p1 /\
        (buf = 0%nat -> holds_frame p1 img) /\
        (buf = 1%nat -> dual = true ->
         exists p2, ptrs2 !! j = Some p2 /\ holds_frame p2 img)
  | _ => True
  end.

(** An [InsertImage] of one delivery: it takes the buffer as it is in
    [bufs] and carries [md]. *)
Definition image_of_delivery (bufs : list ImgBuffer) (md : Metadata)
    (e : Event) : Prop :=
  match e with
  | InsertImage buf img md' => md' = md /\ bufs !! buf = Some img
  | _ => True
  end.

(** What a snap of [stream] leaves in the buffer [b] of the stream: the
    bytes read at the payload of the first frame of the range are copied to
    the start of the pixel area. *)
Definition snapped `{Env} (stream : nat) (w : World) (b : ImgBuffer)
  : ImgBuffer :=
  copy_pixels (read_data (fst (range_of stream w)) (snap_bytes stream w)) b.

(** The calls to the core of one round of the frame loop, [r], for the
    frame of stream 0 at [p]: between one and [max_inserts] images, all
    with the metadata of that frame, and at most one [ClearImageBuffer]. *)
Definition round_calls `{Env} (w : World) (p : Z) (r : list Event) : Prop :=
  Forall (eq (metadata_at p)) (inserts r) /\
  (1 <= length (inserts r) <= max_inserts w)%nat /\
  (clears r <= 1)%nat.

(** ** Proofs *)

Section WP.
Context {A B : Type}.

Lemma wp_bind (m : M A) (f : A -> M B) w Q :
  wp m w (fun a w' => wp (f a) w' Q) -> wp (bind m f) w Q.
Proof. unfold wp, bind. destruct (m w); auto. Qed.

Lemma wp_ret (a : A) w (Q : A -> World -> Prop) : Q a w -> wp (ret a) w Q.
Proof. auto. Qed.

Lemma wp_conseq (m : M A) w (Q Q' : A -> World -> Prop) :
  wp m w Q -> (forall a w', Q a w' -> Q' a w') -> wp m w Q'.
Proof. unfold wp. destruct (m w); auto. Qed.

Lemma wp_run (m : M A) w Q :
  wp m w Q -> exists a w', m w = Done a w' /\ Q a w'.
Proof. unfold wp. destruct (m w); [eauto | tauto]. Qed.

End WP.

(** The retry loop ends on its own test before the fuel does: beyond
    [maxRetries - retries] rounds, more fuel changes nothing. *)
Lemma retry_loop_enough_fuel `{Env} stream fuel : forall extra be retries w,
  maxRetries - retries <= Z.of_nat fuel ->
  retry_loop (fuel + extra) stream be retries w
  = retry_loop fuel stream be retries w.
Proof.
  induction fuel as [|fuel IH]; intros extra be retries w Hfuel.
  - destruct extra as [|extra]; [reflexivity|]. cbn [Nat.add retry_loop].
    replace (retries <? maxRetries) with false
      by (symmetry; apply Z.ltb_ge; lia).
    rewrite andb_false_r. reflexivity.
  - cbn [Nat.add retry_loop].
    destruct ((be.1 =? be.2) && (retries <? maxRetries)); [|reflexivity].
    unfold bind. destruct (do_cpx_map_read stream w) as [be' w1|];
      [|reflexivity].
    destruct (do_sleep_for 5 w1) as [[] w2|]; [|reflexivity].
    apply IH. lia.
Qed.

(** A step of a proof about [m ;; k]: [m] is described by [lem], and the
    proof goes on with [k] from the world [m] leaves. *)
Ltac wp_apply lem :=
  apply wp_bind; eapply wp_conseq; [apply lem|]; cbn beta.

Lemma retry_loop_spec `{Env} stream fuel : forall w c0,
  map_calls w stream = S c0 ->
  (Z.of_nat fuel <= maxRetries) ->
  let k := empty_run (map_script stream) c0 fuel in
  wp (retry_loop fuel stream (map_script stream c0)
        (maxRetries - Z.of_nat fuel)) w
     (fun r w' =>
        r = (map_script stream (c0 + k)%nat,
             maxRetries - Z.of_nat fuel + Z.of_nat k) /\
        self w' = self w /\ insert_calls w' = insert_calls w /\
        (forall s, map_calls w' s =
                   if Nat.eqb s stream then (map_calls w s + k)%nat
                   else map_calls w s) /\
        trace w' = trace w ++
                   concat (repeat [cpx_map_read stream; sleep_for 5] k)).
Proof.
  induction fuel as [|fuel IH]; intros w c0 Hc Hfuel; simpl.
  - apply wp_ret. rewrite Nat.add_0_r, Z.add_0_r, app_nil_r.
    repeat split; auto. intros s. destruct (Nat.eqb s stream); lia.
  - fold (is_empty (map_script stream c0)).
    assert (Hlt : (maxRetries - Z.of_nat (S fuel) <? maxRetries) = true)
      by (apply Z.ltb_lt; lia).
    rewrite Hlt, andb_true_r.
    destruct (is_empty (map_script stream c0)) eqn:He.
    + apply wp_bind. unfold wp at 1, do_cpx_map_read.
      apply wp_bind. unfold wp at 1, do_sleep_for, emit. cbn [self map_calls insert_calls trace].
      rewrite Hc.
      replace (maxRetries - Z.of_nat (S fuel) + 1)
        with (maxRetries - Z.of_nat fuel) by lia.
      eapply wp_conseq.
      * apply (IH _ (S c0)); [cbn; rewrite Nat.eqb_refl; congruence | lia].
      * cbn. intros [be r] w' (Hr & Hs & Hi & Hm & Ht).
        injection Hr as -> ->.
        repeat split; auto.
        -- f_equal; [f_equal; lia | lia].
        -- intros s. rewrite Hm. destruct (Nat.eqb s stream); lia.
        -- rewrite Ht. rewrite <- !app_assoc. reflexivity.
    + apply wp_ret. rewrite Nat.add_0_r, Z.add_0_r, app_nil_r.
      repeat split; auto. intros s. destruct (Nat.eqb s stream); lia.
Qed.

Lemma map_read_retry_spec `{Env} stream w :
  wp (map_read_retry stream) w
     (fun r w' =>
        r = (range_of stream w, Z.of_nat (retries_of stream w)) /\
        polled stream (retries_of stream w) w w').
Proof.
  unfold map_read_retry. apply wp_bind. unfold wp at 1, do_cpx_map_read.
  eapply wp_conseq.
  - apply (retry_loop_spec stream (Z.to_nat maxRetries) _ (map_calls w stream)).
    + cbn. rewrite Nat.eqb_refl. reflexivity.
    + rewrite Z2Nat.id; unfold maxRetries; lia.
  - cbn beta. intros r w' (Hr & Hs & Hi & Hm & Ht).
    cbn [self map_calls insert_calls trace] in *.
    rewrite Z2Nat.id in Hr by (unfold maxRetries; lia).
    split.
    + rewrite Hr. unfold range_of, retries_of. f_equal; lia.
    + unfold polled, retries_of. repeat split; auto.
      * intros s. rewrite Hm. destruct (Nat.eqb s stream) eqn:E; [|reflexivity].
        apply Nat.eqb_eq in E. subst s. lia.
      * rewrite Ht. unfold poll_events. rewrite <- app_assoc. reflexivity.
Qed.

(** *** Observations of a trace *)

Lemma sources_app buf t1 t2 :
  sources buf (t1 ++ t2) = sources buf t1 ++ sources buf t2.
Proof. apply flat_map_app. Qed.

Lemma unmapped_app s t1 t2 :
  unmapped s (t1 ++ t2) = unmapped s t1 ++ unmapped s t2.
Proof. apply flat_map_app. Qed.

Lemma missed_frames_app c t1 t2 :
  missed_frames c (t1 ++ t2) = missed_frames c t1 ++ missed_frames c t2.
Proof. apply flat_map_app. Qed.

Lemma inserts_app t1 t2 : inserts (t1 ++ t2) = inserts t1 ++ inserts t2.
Proof. apply flat_map_app. Qed.

Lemma core_calls_app t1 t2 :
  core_calls (t1 ++ t2) = core_calls t1 ++ core_calls t2.
Proof. apply flat_map_app. Qed.

Lemma inserted_app buf t1 t2 :
  inserted buf (t1 ++ t2) = inserted buf t1 ++ inserted buf t2.
Proof. apply flat_map_app. Qed.

Lemma sink_events_silent t :
  Forall sink_event t ->
  (forall buf, sources buf t = []) /\ (forall s, unmapped s t = []) /\
  (forall c, missed_frames c t = []).
Proof.
  induction 1 as [|e t He _ (IH1 & IH2 & IH3)]; [auto|].
  repeat split; intros; change (e :: t) with ([e] ++ t);
    rewrite ?sources_app, ?unmapped_app, ?missed_frames_app,
      ?IH1, ?IH2, ?IH3, ?app_nil_r;
    destruct e as [| | | | | |[]| | | |]; cbn in He; try contradiction;
    reflexivity.
Qed.

Lemma poll_events_silent stream k :
  (forall buf, sources buf (poll_events stream k) = []) /\
  (forall s, unmapped s (poll_events stream k) = []) /\
  (forall c, missed_frames c (poll_events stream k) = []) /\
  core_calls (poll_events stream k) = [].
Proof.
  unfold poll_events.
  induction k as [|k (IH1 & IH2 & IH3 & IH4)]; [cbn; auto|].
  repeat split; intros; cbn in *; auto.
Qed.

Lemma new_events_app w w' t :
  trace w' = trace w ++ t -> new_events w w' = t.
Proof. unfold new_events. intros ->. apply drop_app_length. Qed.

(** *** The steps of the frame loop *)

Lemma check_frame_id_spec `{Env} missed ptr startFrameId i w :
  wp (check_frame_id missed ptr startFrameId i) w
     (fun _ w' =>
        self w' = self w /\ map_calls w' = map_calls w /\
        insert_calls w' = insert_calls w /\
        trace w' = trace w ++
          (if frame_id (frame_at ptr) =? Int.uint64_t (startFrameId + i)
           then []
           else [LogMessage (missed (Int.uint64_t (startFrameId + 1))
                                    (frame_id (frame_at ptr)))])).
Proof.
  unfold check_frame_id, wp.
  destruct (frame_id (frame_at ptr) =? Int.uint64_t (startFrameId + i)); cbn.
  - rewrite app_nil_r. auto.
  - auto.
Qed.

(** *** Copies into the image buffers *)

Lemma length_read_data `{Env} src n :
  length (read_data src n) = Z.to_nat n.
Proof.
  unfold read_data.
  rewrite length_take, length_app, length_map, length_seq. lia.
Qed.

Lemma read_data_payload `{Env} src n :
  exists rest,
    read_data src n = take (Z.to_nat n) (data (frame_at src)) ++ rest.
Proof. unfold read_data. rewrite take_app. eexists. reflexivity. Qed.

Lemma read_data_exact `{Env} src n :
  (Z.to_nat n <= length (data (frame_at src)))%nat ->
  read_data src n = take (Z.to_nat n) (data (frame_at src)).
Proof. intros Hle. unfold read_data. apply take_app_le. exact Hle. Qed.

Lemma length_copy_pixels bytes b :
  length (GetPixels (copy_pixels bytes b)) = length (GetPixels b).
Proof.
  unfold copy_pixels. cbn [GetPixels].
  rewrite length_take, length_app, length_drop. lia.
Qed.

Lemma copy_pixels_fits bytes b :
  (length bytes <= length (GetPixels b))%nat ->
  GetPixels (copy_pixels bytes b)
  = bytes ++ drop (length bytes) (GetPixels b).
Proof.
  intros Hle. unfold copy_pixels. cbn [GetPixels].
  apply take_ge. rewrite length_app, length_drop. lia.
Qed.

Lemma areas_copy c i bytes b :
  imgs c !! i = Some b ->
  areas (set_imgs (<[i := copy_pixels bytes b]> (imgs c)) c) = areas c.
Proof.
  intros Hb. unfold areas. cbn [imgs set_imgs].
  rewrite list_fmap_insert. apply list_insert_id.
  rewrite list_lookup_fmap, Hb. cbn [fmap option_fmap option_map].
  rewrite length_copy_pixels. reflexivity.
Qed.

Lemma has_room_lookup c i b :
  has_room c i -> imgs c !! i = Some b ->
  frame_bytes b <= Z.of_nat (length (GetPixels b)).
Proof.
  intros Hroom Hb. apply (Hroom _ _). unfold areas.
  rewrite list_lookup_fmap, Hb. reflexivity.
Qed.

Lemma room_0 w : buffers_ok w -> has_room (self w) 0.
Proof. intros (_ & _ & _ & H0 & _). exact H0. Qed.

Lemma room_1 w :
  buffers_ok w -> isDual (self w) = true -> has_room (self w) 1.
Proof. intros (_ & _ & _ & _ & H1). exact H1. Qed.

Lemma composite_spec `{Env} buf ptr w b :
  imgs (self w) !! buf = Some b ->
  has_room (self w) buf ->
  wp (composite buf ptr) w
     (fun _ w' =>
        setup w' = setup w /\ map_calls w' = map_calls w /\
        insert_calls w' = insert_calls w /\
        trace w' = trace w ++
          [memcpy buf ptr (Int.uint32_t (Width b * Height b * Depth b))] /\
        imgs (self w') =
          <[buf := copy_pixels (read_data ptr (frame_bytes b)) b]>
            (imgs (self w))).
Proof.
  intros Hb Hroom. apply (has_room_lookup _ _ _ Hroom) in Hb as Hfit.
  unfold frame_bytes in *.
  unfold composite, do_memcpy, wp, bind, get. rewrite Hb. cbn beta iota.
  rewrite Hb.
  replace (Z.of_nat (length (GetPixels b))
           <? Int.uint32_t (Width b * Height b * Depth b)) with false
    by (symmetry; apply Z.ltb_ge; exact Hfit).
  unfold emit, modify_self. cbn [self map_calls insert_calls trace imgs].
  unfold setup. cbn [self stopOnOverflow currentCamera multiChannel isDual
                     imgs set_imgs].
  rewrite length_insert, (areas_copy _ _ _ _ Hb). auto.
Qed.

Lemma insert_current_spec `{Env} md currentFrameId w b :
  imgs (self w) !! currentCamera (self w) = Some b ->
  wp (insert_current md currentFrameId) w
     (fun _ w' =>
        self w' = self w /\ map_calls w' = map_calls w /\
        trace w' = trace w ++
          single_channel_calls (stopOnOverflow (self w))
            (insert_script (insert_calls w)) (currentCamera (self w)) b md
            currentFrameId /\
        insert_calls w' =
          if negb (stopOnOverflow (self w))
             && bool_decide (insert_script (insert_calls w)
                             = DEVICE_BUFFER_OVERFLOW)
          then S (S (insert_calls w)) else S (insert_calls w)).
Proof.
  intros Hb. unfold insert_current, single_channel_calls, wp, bind, get,
    do_InsertImage, do_LogMessage, do_ClearImageBuffer, emit.
  rewrite Hb. cbn [self map_calls insert_calls trace].
  destruct (negb (stopOnOverflow (self w)) &&
            bool_decide (insert_script (insert_calls w) = DEVICE_BUFFER_OVERFLOW)).
  - cbn [self map_calls insert_calls trace]. rewrite Hb.
    cbn [self map_calls insert_calls trace].
    repeat split. rewrite <- !app_assoc. reflexivity.
  - cbn [self map_calls insert_calls trace].
    repeat split. rewrite <- !app_assoc. reflexivity.
Qed.

Lemma single_channel_calls_sink stop r cur b md fid :
  Forall sink_event (single_channel_calls stop r cur b md fid).
Proof.
  unfold single_channel_calls.
  destruct (negb stop && bool_decide (r = DEVICE_BUFFER_OVERFLOW));
    repeat constructor.
Qed.

Lemma insert_channels_spec `{Env} md fid left : forall bufNum w,
  (bufNum + left <= length (imgs (self w)))%nat ->
  wp (insert_channels left bufNum md fid) w
     (fun _ w' =>
        self w' = self w /\ map_calls w' = map_calls w /\
        exists t, trace w' = trace w ++ t /\ Forall sink_event t /\
                  ((0 < left)%nat -> In md (inserts t))).
Proof.
  induction left as [|left IH]; intros bufNum w Hlen.
  - cbn. repeat split. exists []. rewrite app_nil_r.
    repeat split; [constructor | lia].
  - destruct (lookup_lt_is_Some_2 (imgs (self w)) bufNum) as [b Hb]; [lia|].
    cbn [insert_channels].
    unfold wp, bind, get, do_InsertImage, do_LogMessage,
      do_ClearImageBuffer, emit.
    rewrite Hb. cbn [self map_calls insert_calls trace].
    destruct (negb (stopOnOverflow (self w)) &&
              bool_decide (insert_script (insert_calls w) =
                           DEVICE_BUFFER_OVERFLOW)).
    + cbn. repeat split. eexists. rewrite <- !app_assoc. split; [reflexivity|].
      split; [repeat constructor | intros _; left; reflexivity].
    + match goal with
      | |- match insert_channels _ _ _ _ ?w1 with _ => _ end =>
          specialize (IH (S bufNum) w1)
      end.
      cbn [self map_calls insert_calls trace] in IH.
      unfold wp in IH.
      destruct (insert_channels left (S bufNum) md fid _) as [[] w'|];
        [|apply IH; lia].
      destruct IH as (Hs & Hm & t & Ht & Hsink & _); [lia|].
      repeat split; auto. eexists. rewrite Ht, <- !app_assoc.
      split; [reflexivity|].
      split; [repeat constructor; exact Hsink | intros _; left; reflexivity].
Qed.

Lemma buffers_ok_setup w w' :
  setup w' = setup w -> buffers_ok w -> buffers_ok w'.
Proof.
  unfold setup, buffers_ok, has_room.
  intros E. injection E as _ -> -> -> -> ->. auto.
Qed.

Lemma second_stream_spec `{Env} w ptr2 startFrameId i :
  buffers_ok w ->
  wp (second_stream ptr2 startFrameId i) w
     (loop_post w (fun t =>
        sources 0 t = [] /\
        sources 1 t = (if isDual (self w) then [ptr2] else []) /\
        missed_frames 1 t = [] /\
        missed_frames 2 t =
          if isDual (self w) then
            expected_warnings startFrameId i ptr2 0 1
          else [])).
Proof.
  intros (_ & Hdual & _ & _ & Hroom1). unfold loop_post, second_stream.
  apply wp_bind. unfold wp at 1, get.
  destruct (isDual (self w)) eqn:Ed.
  - destruct (lookup_lt_is_Some_2 (imgs (self w)) 1) as [b1 Hb1];
      [specialize (Hdual eq_refl); lia|].
    wp_apply check_frame_id_spec.
    intros _ w1 (Hs1 & Hm1 & _ & Ht1).
    eapply wp_conseq;
      [apply (composite_spec 1 ptr2 w1 b1);
       [congruence | rewrite Hs1; apply Hroom1; reflexivity]|].
    cbn beta. intros _ w2 (Hs2 & Hm2 & _ & Ht2 & _).
    split; [rewrite Hs2; unfold setup; rewrite Hs1; reflexivity|].
    split; [congruence|].
    eexists. split; [rewrite Ht2, Ht1, <- app_assoc; reflexivity|].
    cbn [expected_warnings]. rewrite app_nil_r.
    destruct (frame_id (frame_at ptr2) =? Int.uint64_t (startFrameId + i));
      cbn; auto.
  - apply wp_ret. split; [reflexivity|]. split; [reflexivity|].
    exists []. rewrite app_nil_r. cbn. repeat split.
Qed.

Lemma deliver_spec `{Env} w md fid :
  buffers_ok w ->
  wp (deliver md fid) w
     (fun _ w' =>
        self w' = self w /\ map_calls w' = map_calls w /\
        exists t, trace w' = trace w ++ t /\ Forall sink_event t /\
                  In md (inserts t)).
Proof.
  intros (Hone & _ & Hcur & _). unfold deliver.
  apply wp_bind. unfold wp at 1, get.
  destruct (multiChannel (self w)) eqn:Emc.
  - eapply wp_conseq; [apply insert_channels_spec; lia|].
    cbn beta. intros _ w' (H1 & H2 & t & H3 & H4 & H5).
    split; [exact H1|]. split; [exact H2|]. exists t.
    split; [exact H3|]. split; [exact H4|]. apply H5. lia.
  - destruct (lookup_lt_is_Some_2 (imgs (self w)) (currentCamera (self w)))
      as [b Hb]; [specialize (Hcur eq_refl); lia|].
    eapply wp_conseq; [apply (insert_current_spec md fid w b Hb)|].
    cbn beta. intros _ w' (H1 & H2 & H3 & _). repeat split; auto.
    eexists. split; [exact H3|].
    split; [apply single_channel_calls_sink | left; reflexivity].
Qed.

Lemma setup_self w w' : self w' = self w -> setup w' = setup w.
Proof. unfold setup. intros ->. reflexivity. Qed.

Lemma setup_isDual w w' :
  setup w' = setup w -> isDual (self w') = isDual (self w).
Proof. unfold setup. intros E. injection E. auto. Qed.

Lemma frame_loop_spec `{Env} startFrameId beg1 beg2 left :
  forall i ptr1 ptr2 w,
  buffers_ok w ->
  wp (frame_loop left i startFrameId beg1 beg2 ptr1 ptr2) w
     (loop_post w (fun t =>
        sources 0 t = frame_ptrs ptr1 (bytes_of_frame (frame_at beg1)) left /\
        sources 1 t =
          (if isDual (self w)
           then frame_ptrs ptr2 (bytes_of_frame (frame_at beg2)) left
           else []) /\
        missed_frames 1 t =
          expected_warnings startFrameId i ptr1
            (bytes_of_frame (frame_at beg1)) left /\
        missed_frames 2 t =
          (if isDual (self w)
           then expected_warnings startFrameId i ptr2
                  (bytes_of_frame (frame_at beg2)) left
           else []) /\
        Forall (fun p => In (metadata_at p) (inserts t))
               (frame_ptrs ptr1 (bytes_of_frame (frame_at beg1)) left))).
Proof.
  induction left as [|left IH]; intros i ptr1 ptr2 w Hok.
  - apply wp_ret. split; [reflexivity|]. split; [reflexivity|].
    exists []. rewrite app_nil_r. cbn.
    destruct (isDual (self w)); repeat split; constructor.
  - cbn [frame_loop].
    wp_apply check_frame_id_spec.
    intros _ w1 (Hs1 & Hm1 & _ & Ht1).
    destruct (lookup_lt_is_Some_2 (imgs (self w1)) 0) as [b0 Hb0];
      [rewrite Hs1; destruct Hok; lia|].
    apply wp_bind.
    eapply wp_conseq;
      [apply (composite_spec 0 ptr1 w1 b0 Hb0);
       rewrite Hs1; apply room_0; exact Hok|].
    cbn beta. intros _ w2 (Hs2 & Hm2 & _ & Ht2 & _).
    assert (Hs2' : setup w2 = setup w)
      by (rewrite Hs2; apply setup_self; exact Hs1).
    assert (Hok2 : buffers_ok w2) by (eapply buffers_ok_setup; eauto).
    apply wp_bind.
    eapply wp_conseq; [apply (second_stream_spec w2 ptr2 startFrameId i Hok2)|].
    unfold loop_post at 1.
    intros _ w3 (Hs3 & Hm3 & t3 & Ht3 & Hu3 & H30 & H31 & H3a & H3b).
    apply wp_bind.
    eapply wp_conseq;
      [apply (deliver_spec w3); eapply buffers_ok_setup; eauto|].
    cbn beta. intros _ w4 (Hs4 & Hm4 & t4 & Ht4 & Hsink & Hin4).
    apply sink_events_silent in Hsink. destruct Hsink as (Hk1 & Hk2 & Hk3).
    assert (Hs4' : setup w4 = setup w)
      by (rewrite (setup_self _ _ Hs4); congruence).
    apply wp_bind. unfold advance_second, wp at 1, bind, get, ret.
    rewrite (setup_isDual _ _ Hs4').
    eapply wp_conseq;
      [apply (IH (i + 1) _ _ w4); eapply buffers_ok_setup; eauto|].
    unfold loop_post.
    intros _ w5 (Hs5 & Hm5 & t5 & Ht5 & Hu5 & H50 & H51 & H5a & H5b & H5i).
    rewrite (setup_isDual _ _ Hs4') in H51, H5b.
    rewrite (setup_isDual _ _ Hs2') in *.
    split; [congruence|]. split; [congruence|].
    eexists. split.
    { rewrite Ht5, Ht4, Ht3, Ht2, Ht1, <- !app_assoc. reflexivity. }
    split.
    { intros s. rewrite !unmapped_app, Hu3, Hk2, Hu5.
      destruct (frame_id (frame_at ptr1) =? _); reflexivity. }
    match goal with
    | |- _ /\ _ /\ _ /\ _ /\ ?E => assert (Hins : E); [|revert Hins]
    end.
    { cbn [frame_ptrs]. constructor.
      - rewrite !inserts_app, !in_app_iff. tauto.
      - eapply Forall_impl; [exact H5i|]. cbn beta. intros p Hp.
        rewrite !inserts_app, !in_app_iff. tauto. }
    rewrite !sources_app, !missed_frames_app.
    rewrite H30, H31, H3a, H3b, !Hk1, !Hk3, H50, H51, H5a, H5b.
    cbn [frame_ptrs expected_warnings].
    destruct (isDual (self w));
      destruct (frame_id (frame_at ptr1) =? Int.uint64_t (startFrameId + i));
      cbn; rewrite ?app_nil_r; repeat split; assumption.
Qed.

(** *** A whole streaming cycle *)

Lemma polled_other `{Env} s s' k w w' :
  polled s k w w' -> s' <> s ->
  retries_of s' w' = retries_of s' w /\ range_of s' w' = range_of s' w.
Proof.
  intros (_ & _ & Hm & _) Hne. unfold range_of, retries_of.
  rewrite Hm. apply Nat.eqb_neq in Hne. rewrite Hne. auto.
Qed.

Lemma polled_setup s k w w' : polled s k w w' -> setup w' = setup w.
Proof. intros (Hs & _). apply setup_self, Hs. Qed.

Lemma no_timeout k :
  (k < Z.to_nat maxRetries)%nat -> (Z.of_nat k >=? maxRetries) = false.
Proof.
  intros Hk. rewrite Z.geb_leb. apply Z.leb_gt. unfold maxRetries in *. lia.
Qed.

Lemma readLiveFrames_spec `{Env} w :
  cycle_ready w ->
  let n := Z.to_nat (batch_size w) in
  let beg1 := fst (range_of 0 w) in
  let beg2 := if isDual (self w) then fst (range_of 1 w) else 0 in
  wp readLiveFrames w
     (fun r w' =>
        r = (DEVICE_OK, Int.int (batch_size w)) /\
        setup w' = setup w /\
        exists t, trace w' = trace w ++ t /\
          sources 0 t = frame_ptrs beg1 (stride_of 0 w) n /\
          sources 1 t =
            (if isDual (self w) then frame_ptrs beg2 (stride_of 1 w) n
             else []) /\
          unmapped 0 t = [Int.size_t (batch_size w * stride_of 0 w)] /\
          unmapped 1 t =
            (if isDual (self w) && negb (beg2 =? 0)
             then [Int.size_t (batch_size w * stride_of 1 w)] else []) /\
          missed_frames 1 t =
            expected_warnings (startFrameId_of w) 0 beg1 (stride_of 0 w) n /\
          missed_frames 2 t =
            (if isDual (self w)
             then expected_warnings (startFrameId_of w) 0 beg2
                    (stride_of 1 w) n
             else []) /\
          Forall (fun p => In (metadata_at p) (inserts t))
                 (frame_ptrs beg1 (stride_of 0 w) n)).
Proof.
  intros (Hok & Hr0 & Hst0 & Hdual) n beg1 beg2.
  unfold readLiveFrames.
  wp_apply map_read_retry_spec.
  intros r1 w1 (-> & Hp1).
  assert (Hs1 := polled_setup _ _ _ _ Hp1).
  destruct (polled_other 0%nat 1%nat _ _ _ Hp1 ltac:(lia)) as (Hr1 & Hg1).
  destruct Hp1 as (_ & _ & _ & Ht1).
  destruct (range_of 0 w) as [b1 e1] eqn:Erange0. cbn [fst snd] in *.
  rewrite (no_timeout _ Hr0).
  assert (Estride0 : stride_of 0 w = bytes_of_frame (frame_at b1))
    by (unfold stride_of; rewrite Erange0; reflexivity).
  assert (Eavail0 : available 0 w =
                    ConsumedBytes b1 e1 / bytes_of_frame (frame_at b1))
    by (unfold available; rewrite Estride0, Erange0; reflexivity).
  rewrite Estride0 in Hst0.
  apply wp_bind. unfold frames_in_range at 1.
  assert (Hst0' : bytes_of_frame (frame_at b1) <> 0) by lia.
  apply Z.eqb_neq in Hst0'. rewrite Hst0'. apply wp_ret.
  apply wp_bind. unfold wp at 1, get.
  rewrite (setup_isDual _ _ Hs1).
  assert (Estart : startFrameId_of w = frame_id (frame_at b1))
    by (unfold startFrameId_of; rewrite Erange0; reflexivity).
  unfold batch_size in *. subst beg1 beg2.
  destruct (isDual (self w)) eqn:Ed.
  - destruct (Hdual eq_refl) as (Hr2 & Hst1).
    wp_apply map_read_retry_spec.
    intros r2 w2 (-> & Hp2).
    assert (Hs2 := polled_setup _ _ _ _ Hp2).
    destruct Hp2 as (_ & _ & _ & Ht2).
    rewrite Hr1, Hg1.
    destruct (range_of 1 w) as [b2 e2] eqn:Erange1. cbn [fst snd] in *.
    rewrite (no_timeout _ Hr2).
    cbn [andb].
    assert (Estride1 : stride_of 1 w = bytes_of_frame (frame_at b2))
      by (unfold stride_of; rewrite Erange1; reflexivity).
    assert (Eavail1 : available 1 w =
                      ConsumedBytes b2 e2 / bytes_of_frame (frame_at b2))
      by (unfold available; rewrite Estride1, Erange1; reflexivity).
    rewrite Estride1 in Hst1.
    apply wp_bind. unfold frames_in_range at 1.
    assert (Hst1' : bytes_of_frame (frame_at b2) <> 0) by lia.
    apply Z.eqb_neq in Hst1'. rewrite Hst1'. apply wp_ret.
    rewrite <- Eavail0, <- Eavail1, <- Estride0, <- Estride1.
    apply wp_bind. eapply wp_conseq.
    { apply frame_loop_spec. eapply buffers_ok_setup; [|exact Hok]. congruence. }
    unfold loop_post.
    intros _ w3 (Hs3 & _ & t3 & Ht3 & Hu3 & H30 & H31 & H3a & H3b & H3i).
    rewrite (setup_isDual w w2) in H31, H3b by congruence.
    rewrite Ed in H31, H3b.
    destruct (poll_events_silent 0 (retries_of 0 w)) as (Ps0 & Pu0 & Pm0 & _).
    destruct (poll_events_silent 1 (retries_of 1 w)) as (Ps1 & Pu1 & Pm1 & _).
    rewrite Hr1 in Ht2.
    generalize dependent (poll_events 0 (retries_of 0 w)). intros P0 Ht1 Ps0 Pu0 Pm0.
    generalize dependent (poll_events 1 (retries_of 1 w)). intros P1 Ht2 Ps1 Pu1 Pm1.
    unfold wp, bind, do_cpx_unmap_read, emit, ret.
    destruct (negb (b2 =? 0)); cbn [self map_calls insert_calls trace];
      (split; [reflexivity|]); (split; [unfold setup in *; cbn [self]; congruence|]);
      (eexists; split;
       [rewrite Ht3, Ht2, Ht1, <- !app_assoc; reflexivity|]);
      (match goal with
       | |- _ /\ _ /\ _ /\ _ /\ _ /\ _ /\ ?E =>
           assert (Hins : E);
           [rewrite <- Estride0 in H3i;
            eapply Forall_impl; [exact H3i|]; cbn beta; intros p Hp;
            rewrite !inserts_app, !in_app_iff; tauto
           |revert Hins]
       end);
      rewrite !sources_app, !unmapped_app, !missed_frames_app,
        ?Ps0, ?Ps1, ?Pu0, ?Pu1, ?Pm0, ?Pm1, ?Hu3, H30, H31, H3a, H3b, Estart;
      cbn [sources unmapped missed_frames flat_map app Nat.eqb andb];
      rewrite ?app_nil_r, ?Estride0, ?Estride1; repeat split; assumption.
  - apply wp_bind. apply wp_ret. cbn [andb].
    apply wp_bind. apply wp_ret.
    rewrite <- Eavail0, <- Estride0.
    apply wp_bind. eapply wp_conseq.
    { apply frame_loop_spec. eapply buffers_ok_setup; [|exact Hok]. congruence. }
    unfold loop_post.
    intros _ w3 (Hs3 & _ & t3 & Ht3 & Hu3 & H30 & H31 & H3a & H3b & H3i).
    rewrite (setup_isDual w w1) in H31, H3b by congruence.
    rewrite Ed in H31, H3b.
    destruct (poll_events_silent 0 (retries_of 0 w)) as (Ps0 & Pu0 & Pm0 & _).
    generalize dependent (poll_events 0 (retries_of 0 w)). intros P0 Ht1 Ps0 Pu0 Pm0.
    unfold wp, bind, do_cpx_unmap_read, emit, ret.
    cbn [self map_calls insert_calls trace].
    split; [reflexivity|]. split; [unfold setup in *; cbn [self]; congruence|].
    eexists. split; [rewrite Ht3, Ht1, <- !app_assoc; reflexivity|].
    match goal with
    | |- _ /\ _ /\ _ /\ _ /\ _ /\ _ /\ ?E =>
        assert (Hins : E);
        [rewrite <- Estride0 in H3i;
         eapply Forall_impl; [exact H3i|]; cbn beta; intros p Hp;
         rewrite !inserts_app, !in_app_iff; tauto
        |revert Hins]
    end.
    rewrite !sources_app, !unmapped_app, !missed_frames_app,
      ?Ps0, ?Pu0, ?Pm0, ?Hu3, H30, H31, H3a, H3b, Estart.
    cbn [sources unmapped missed_frames flat_map app Nat.eqb andb].
    rewrite ?app_nil_r, ?Estride0. repeat split; assumption.
Qed.

(** * Properties of the acquisition engine *)

(** C1, at Scenario A of the specification (both streams start at frame 100
    with 5 frames each).  The cycle finishes with 5 frames read, but only the
    first frame of each stream is taken from its place in the mapped range:
    [ptr += bytes_of_frame] moves a [VideoFrame*] by [bytes_of_frame]
    elements of [sizeof(VideoFrame)] bytes, so that round [i] reads at byte
    offset [i * 96 * 88] and not [i * 96].  The frames given to the core do
    not have the ids 100 to 104. *)
Theorem readLiveFrames_scenario_A_reads_past_range :
  wp (@readLiveFrames scenario_A) (fresh (example_camera true false))
     (fun r w' =>
        r = (DEVICE_OK, 5) /\
        sources 0 (trace w') = [4096; 12544; 20992; 29440; 37888] /\
        sources 1 (trace w') = [8192; 16640; 25088; 33536; 41984] /\
        sources 0 (trace w') <> contiguous_frames 4096 96 5 /\
        sources 1 (trace w') <> contiguous_frames 8192 96 5 /\
        map CpxFrameId (inserted 0 (trace w')) = [100; 0; 0; 0; 0] /\
        map CpxFrameId (inserted 0 (trace w')) <> [100; 101; 102; 103; 104]).
Proof. vm_compute. repeat split; discriminate. Qed.

(** C3, at a stream whose first frame is there at the 1000th retry: the
    range of the last [cpx_map_read] is not empty, yet both reads give
    [ERR_TIMEOUT], and the range is not unmapped. *)
Theorem frame_at_last_retry_times_out :
  is_empty (@map_script late_frame 0%nat 1000%nat) = false /\
  wp (@readLiveFrames late_frame) (fresh (example_camera false false))
     (fun r w' =>
        r = (ERR_TIMEOUT, 0) /\ map_calls w' 0%nat = 1001%nat /\
        unmapped 0 (trace w') = []) /\
  wp (@readSnapImageFrames late_frame) (fresh (example_camera false false))
     (fun r w' =>
        r = ERR_TIMEOUT /\ map_calls w' 0%nat = 1001%nat /\
        unmapped 0 (trace w') = []).
Proof. vm_compute. repeat split. Qed.

(** C5, at a core buffer that is full, with [stopOnOverflow] on: both
    inserts of the cycle fail with [DEVICE_BUFFER_OVERFLOW], the status is
    dropped, the loop goes on to the second frame and the cycle returns
    [DEVICE_OK] with 2 frames read. *)
Theorem overflow_with_stopOnOverflow_is_dropped :
  @insert_script full_core 0%nat = DEVICE_BUFFER_OVERFLOW /\
  wp (@readLiveFrames full_core) (fresh (example_camera false true))
     (fun r w' =>
        r = (DEVICE_OK, 2) /\
        map CpxFrameId (inserted 0 (trace w')) = [100; 0] /\
        length (core_calls (trace w')) = 2%nat /\
        insert_calls w' = 2%nat).
Proof. vm_compute. repeat split. Qed.

(** C6, at a real camera 1 with a simulated camera 2: the selection goes
    through and the driver is configured, with [demo] off.  The same two
    cameras the other way round are rejected. *)
Theorem simulated_camera2_with_real_camera1_is_accepted :
  let real := "Hamamatsu C15440-20UP"%string in
  let simulated := "simulated: uniform random"%string in
  wp (@Initialize scenario_A real simulated (@configure_driver scenario_A))
     (fresh (constructed true))
     (fun r w' =>
        r = DEVICE_OK /\ demo (self w') = false /\
        camera1 (self w') = real /\ camera2 (self w') = simulated /\
        length (configured (trace w')) = 1%nat) /\
  wp (@Initialize scenario_A simulated real (@configure_driver scenario_A))
     (fresh (constructed true))
     (fun r w' => r = ERR_INVALID_CAMERA_SELECTION /\ trace w' = []).
Proof. vm_compute. repeat split. Qed.

(** X19.  What the check of [Initialize] rejects, for every selection: it is
    [rejected_selection], which looks at camera 2 only when camera 1 is
    simulated. *)
Lemma Initialize_selection `{Env} c1 c2 rest w :
  initialized_ (self w) = false ->
  if rejected_selection c1 c2 then
    wp (Initialize c1 c2 rest) w
       (fun r w' => r = ERR_INVALID_CAMERA_SELECTION /\ trace w' = trace w)
  else
    exists w1,
      Initialize c1 c2 rest w = rest w1 /\
      demo (self w1) = starts_with "simulated" c1 /\
      camera1 (self w1) = c1 /\ camera2 (self w1) = c2 /\
      trace w1 = trace w.
Proof.
  intros Hinit. unfold rejected_selection, Initialize, wp, bind, get,
    modify_self, ret. rewrite Hinit. cbn [self camera1 camera2 set_selection].
  destruct (String.eqb c1 c2); [cbn; auto|].
  destruct (String.eqb c1 g_Camera_None); [cbn; auto|].
  destruct (starts_with "simulated" c1); cbn [orb andb].
  - destruct (negb (String.eqb c2 g_Camera_None)
              && negb (starts_with "simulated" c2)); cbn; [auto|].
    eexists. split; [reflexivity|]. cbn. auto.
  - eexists. split; [reflexivity|]. cbn. auto.
Qed.

(** *** The addresses and warnings of the frame loop *)

Lemma length_frame_ptrs `{Env} stride n : forall ptr,
  length (frame_ptrs ptr stride n) = n.
Proof. induction n as [|n IH]; intros ptr; cbn; [|rewrite IH]; reflexivity. Qed.

(** Round [j] reads at byte offset [j * stride * sizeof(VideoFrame)]. *)
Lemma frame_ptrs_lookup `{Env} stride n : forall ptr j,
  (j < n)%nat -> 0 <= ptr < 2 ^ 64 ->
  frame_ptrs ptr stride n !! j =
  Some (Int.size_t (ptr + Z.of_nat j * (stride * sizeof_VideoFrame))).
Proof.
  unfold Int.size_t, Int.wrap.
  induction n as [|n IH]; intros ptr j Hj Hptr; [lia|].
  destruct j as [|j]; cbn [frame_ptrs].
  - cbn. rewrite Z.add_0_r, Z.mod_small by lia. reflexivity.
  - change ((ptr :: ?l) !! S j) with (l !! j). rewrite IH.
    + unfold VideoFrame_ptr_add, Int.size_t, Int.wrap.
      rewrite Zplus_mod_idemp_l. do 2 f_equal. lia.
    + lia.
    + unfold VideoFrame_ptr_add, Int.size_t, Int.wrap.
      apply Z.mod_pos_bound. lia.
Qed.

Lemma expected_warnings_In `{Env} startFrameId stride n : forall i ptr j p,
  frame_ptrs ptr stride n !! j = Some p ->
  frame_id (frame_at p) <> Int.uint64_t (startFrameId + (i + Z.of_nat j)) ->
  In (Int.uint64_t (startFrameId + 1), frame_id (frame_at p))
     (expected_warnings startFrameId i ptr stride n).
Proof.
  induction n as [|n IH]; intros i ptr j p Hp Hne; [discriminate|].
  cbn [expected_warnings]. apply in_or_app.
  destruct j as [|j]; cbn in Hp.
  - injection Hp as ->. left. rewrite Z.add_0_r in Hne.
    apply Z.eqb_neq in Hne. rewrite Hne. left. reflexivity.
  - right. apply (IH (i + 1) _ j p Hp).
    replace (i + 1 + Z.of_nat j) with (i + Z.of_nat (S j)) by lia. exact Hne.
Qed.

Lemma available_nonneg `{Env} s w : 0 < stride_of s w -> 0 <= available s w.
Proof.
  intros Hs. unfold available, ConsumedBytes, Int.size_t, Int.wrap.
  apply Z.div_pos; [|exact Hs]. apply Z.mod_pos_bound. lia.
Qed.

Lemma batch_size_nonneg `{Env} w : cycle_ready w -> 0 <= batch_size w.
Proof.
  intros (_ & _ & H0 & Hd). unfold batch_size.
  destruct (isDual (self w)).
  - destruct (Hd eq_refl) as (_ & H1).
    apply Z.min_glb; apply available_nonneg; assumption.
  - apply available_nonneg; assumption.
Qed.


(** Whatever frame ids are found at the addresses the frame loop visits, a
    streaming cycle that gets frames from every stream it polls returns
    [DEVICE_OK] with the whole batch read: every round copies what it finds
    at its address of each active stream and gives it to [InsertImage], and
    an id found there that is not [startFrameId + i] leaves a missed-frame
    warning in the log.  The addresses are those of [frame_ptrs], which
    from the second round on are not the frames of the mapped range. *)
Lemma frame_id_mismatch_is_logged_not_fatal `{Env} (w : World)
    (Hready : cycle_ready w) :
  let n := Z.to_nat (batch_size w) in
  let frames1 := frame_ptrs (fst (range_of 0 w)) (stride_of 0 w) n in
  let frames2 := frame_ptrs (fst (range_of 1 w)) (stride_of 1 w) n in
  exists w',
    readLiveFrames w = Done (DEVICE_OK, Int.int (batch_size w)) w' /\
    sources 0 (new_events w w') = frames1 /\
    (isDual (self w) = true -> sources 1 (new_events w w') = frames2) /\
    Forall (fun p => In (metadata_at p) (inserts (new_events w w'))) frames1 /\
    (forall j p,
        frames1 !! j = Some p ->
        frame_id (frame_at p)
          <> Int.uint64_t (startFrameId_of w + Z.of_nat j) ->
        In (Int.uint64_t (startFrameId_of w + 1), frame_id (frame_at p))
           (missed_frames 1 (new_events w w'))) /\
    (isDual (self w) = true ->
     forall j p,
        frames2 !! j = Some p ->
        frame_id (frame_at p)
          <> Int.uint64_t (startFrameId_of w + Z.of_nat j) ->
        In (Int.uint64_t (startFrameId_of w + 1), frame_id (frame_at p))
           (missed_frames 2 (new_events w w'))).
Proof.
  intros n frames1 frames2.
  destruct (wp_run _ _ _ (readLiveFrames_spec w Hready))
    as ([st fr] & w' & Hrun & Hr & _ & t & Ht & Hs0 & Hs1 & _ & _ & Hm1 & Hm2
        & Hins).
  exists w'. rewrite (new_events_app _ _ _ Ht), Hrun, Hr.
  split; [reflexivity|]. split; [exact Hs0|].
  split; [intros Hd; rewrite Hs1, Hd; reflexivity|].
  split; [exact Hins|]. split.
  - intros j p Hp Hne. rewrite Hm1.
    apply (expected_warnings_In _ _ _ 0 _ j p Hp). exact Hne.
  - intros Hd j p Hp Hne. rewrite Hm2, Hd.
    apply (expected_warnings_In _ _ _ 0 _ j p Hp). exact Hne.
Qed.

(** *** The snap path *)





(** C7.  In single-channel mode with [stopOnOverflow] off, the delivery of a
    frame calls the core as follows: when the insert fails with
    [DEVICE_BUFFER_OVERFLOW], the buffer is cleared and the same image is
    inserted once more, whatever that second insert answers; when the
    insert gives any other status, nothing follows it. *)
Theorem single_channel_overflow_retries_once `{Env} (w : World)
    (md : Metadata) (currentFrameId : Z) (b : ImgBuffer)
    (Hsingle : multiChannel (self w) = false)
    (Hstop : stopOnOverflow (self w) = false)
    (Hbuf : imgs (self w) !! currentCamera (self w) = Some b) :
  let first := insert_script (insert_calls w) in
  let insert := InsertImage (currentCamera (self w)) b md in
  exists w',
    deliver md currentFrameId w = Done tt w' /\
    (first = DEVICE_BUFFER_OVERFLOW ->
     core_calls (new_events w w') = [insert; ClearImageBuffer; insert] /\
     insert_calls w' = S (S (insert_calls w))) /\
    (first <> DEVICE_BUFFER_OVERFLOW ->
     core_calls (new_events w w') = [insert] /\
     insert_calls w' = S (insert_calls w)).
Proof.
  intros first insert.
  assert (Hwp : wp (deliver md currentFrameId) w
                  (fun _ w' =>
                     trace w' = trace w ++
                       single_channel_calls false first (currentCamera (self w))
                         b md currentFrameId /\
                     insert_calls w' =
                       if bool_decide (first = DEVICE_BUFFER_OVERFLOW)
                       then S (S (insert_calls w)) else S (insert_calls w))).
  { unfold deliver. apply wp_bind. unfold wp at 1, get. rewrite Hsingle.
    eapply wp_conseq; [apply (insert_current_spec md currentFrameId w b Hbuf)|].
    cbn beta. intros _ w' (_ & _ & Ht & Hi). rewrite Hstop in Ht, Hi.
    split; assumption. }
  destruct (wp_run _ _ _ Hwp) as ([] & w' & Hrun & Ht & Hi).
  exists w'. rewrite (new_events_app _ _ _ Ht). split; [exact Hrun|].
  unfold single_channel_calls in *. cbn [negb andb] in *.
  split; intros Hfirst.
  - rewrite bool_decide_eq_true_2 in * by exact Hfirst. split; [reflexivity|].
    exact Hi.
  - rewrite bool_decide_eq_false_2 in * by exact Hfirst. split; [reflexivity|].
    exact Hi.
Qed.

(** C9.  When the camera is not capturing and the core is ready,
    [StartSequenceAcquisition] configures the driver once, with the target
    frame count of both streams at [2 ^ 64 - 1] for [numImages = 0] and at
    [numImages] for a positive [numImages]. *)
Theorem StartSequenceAcquisition_target_frame_count `{Env} (w : World)
    (numImages : Z) (interval_ms : double) (stop : bool)
    (Hidle : liveThread_IsActive (self w) = false)
    (Hprepared : PrepareForAcq_result = DEVICE_OK)
    (Hlong : 0 <= numImages < 2 ^ 63) :
  exists status w' props,
    StartSequenceAcquisition numImages interval_ms stop w = Done status w' /\
    configured (new_events w w') = [props] /\
    video0_max_frame_count props = video1_max_frame_count props /\
    (numImages = 0 -> video0_max_frame_count props = 2 ^ 64 - 1) /\
    (0 < numImages -> video0_max_frame_count props = numImages).
Proof.
  assert (Hcount : (numImages = 0 ->
                    max_frame_count_of numImages = 2 ^ 64 - 1) /\
                   (0 < numImages -> max_frame_count_of numImages = numImages)).
  { unfold max_frame_count_of, Int.MAXUINT64, Int.uint64_t, Int.wrap. split.
    - intros ->. reflexivity.
    - intros Hpos. destruct (numImages =? 0) eqn:E; [lia|].
      apply Z.mod_small. lia. }
  unfold StartSequenceAcquisition, bind, get, emit, do_LogMessage,
    do_liveThread_Start, modify_self, ret, bind, emit, modify_self.
  rewrite Hidle, Hprepared. cbn [negb bool_decide decide_rel].
  cbn [self map_calls insert_calls trace].
  destruct (bool_decide (cpx_configure_result = DEVICE_OK));
    [destruct (bool_decide (cpx_start_result = DEVICE_OK))|];
    cbn [negb self map_calls insert_calls trace];
    do 3 eexists; (split; [reflexivity|]);
    unfold new_events; cbn [trace];
    rewrite <- ?app_assoc, drop_app_length;
    (split; [reflexivity|]); cbn [video0_max_frame_count video1_max_frame_count];
    (split; [reflexivity|]); exact Hcount.
Qed.

(** [setupBuffers] leaves one buffer, or two with two cameras. *)
Lemma setupBuffers_length width height depth dual w :
  wp (setupBuffers width height depth dual) w
     (fun _ w' => length (imgs (self w')) = if dual then 2%nat else 1%nat).
Proof. unfold setupBuffers, wp, modify_self. destruct dual; reflexivity. Qed.

(** X22.  Before any buffer is set up, [imgs.size() - 1] wraps around and no
    channel is refused: the read is out of bounds. *)
Lemma GetImageBuffer_without_buffers w channel :
  imgs (self w) = [] -> 0 <= channel < 2 ^ 32 ->
  GetImageBuffer channel w = Undefined.
Proof.
  intros Himgs Hc. unfold GetImageBuffer, bind, get, imgs_GetPixels, bind, get.
  rewrite Himgs. cbn [length].
  replace (channel >? Int.size_t (Z.of_nat 0 - 1)) with false.
  - destruct (multiChannel (self w)); rewrite Himgs; reflexivity.
  - symmetry. rewrite Z.gtb_ltb. apply Z.ltb_ge.
    change (Int.size_t (Z.of_nat 0 - 1)) with (2 ^ 64 - 1). lia.
Qed.

(** With at least one buffer, [GetImageBuffer] returns [nullptr] for every
    channel from the number of buffers on; for a channel below it, it
    returns the pixels of that buffer in multi-channel mode, and otherwise
    what [imgs[currentCamera].GetPixels()] gives: the pixels of the buffer
    of the current camera if there is such a buffer, which the check of
    the channel does not ensure. *)
Lemma GetImageBuffer_checks_channel (w : World) (channel : Z)
    (Hbuffers : (1 <= length (imgs (self w)))%nat)
    (Hsize : Z.of_nat (length (imgs (self w))) < 2 ^ 64)
    (Hunsigned : 0 <= channel) :
  (Z.of_nat (length (imgs (self w))) <= channel ->
   GetImageBuffer channel w = Done nullptr w) /\
  (channel < Z.of_nat (length (imgs (self w))) ->
   multiChannel (self w) = true ->
   exists b, imgs (self w) !! Z.to_nat channel = Some b /\
             GetImageBuffer channel w
             = Done (pixels_of (Z.to_nat channel) (GetPixels b)) w) /\
  (channel < Z.of_nat (length (imgs (self w))) ->
   multiChannel (self w) = false ->
   GetImageBuffer channel w = imgs_GetPixels (currentCamera (self w)) w /\
   forall b, imgs (self w) !! currentCamera (self w) = Some b ->
             GetImageBuffer channel w
             = Done (pixels_of (currentCamera (self w)) (GetPixels b)) w).
Proof.
  assert (Hlast : Int.size_t (Z.of_nat (length (imgs (self w))) - 1)
                  = Z.of_nat (length (imgs (self w))) - 1)
    by (unfold Int.size_t, Int.wrap; apply Z.mod_small; lia).
  unfold GetImageBuffer, bind, get, imgs_GetPixels, bind, get, ret.
  rewrite Hlast. split; [|split].
  - intros Hge.
    replace (channel >? Z.of_nat (length (imgs (self w))) - 1) with true
      by (symmetry; rewrite Z.gtb_ltb; apply Z.ltb_lt; lia).
    reflexivity.
  - intros Hlt Hmulti.
    replace (channel >? Z.of_nat (length (imgs (self w))) - 1) with false
      by (symmetry; rewrite Z.gtb_ltb; apply Z.ltb_ge; lia).
    rewrite Hmulti.
    destruct (lookup_lt_is_Some_2 (imgs (self w)) (Z.to_nat channel))
      as [b Hb]; [lia|].
    exists b. rewrite Hb. split; reflexivity.
  - intros Hlt Hsingle.
    replace (channel >? Z.of_nat (length (imgs (self w))) - 1) with false
      by (symmetry; rewrite Z.gtb_ltb; apply Z.ltb_ge; lia).
    rewrite Hsingle. split; [reflexivity|].
    intros b Hb. rewrite Hb. reflexivity.
Qed.

(** The poll of a stream times out exactly when the first answer and those
    of the first 999 retries are all empty ranges; the answer of the 1000th
    retry is not looked at. *)
Lemma empty_run_full f n : forall c,
  empty_run f c n = n <->
  (forall j, (j < n)%nat -> is_empty (f (c + j)%nat) = true).
Proof.
  induction n as [|n IH]; intros c; cbn [empty_run].
  - split; [intros _ j Hj; lia | reflexivity].
  - destruct (is_empty (f c)) eqn:E.
    + split.
      * intros Hn j Hj. injection Hn as Hn. destruct j as [|j].
        -- rewrite Nat.add_0_r. exact E.
        -- replace (c + S j)%nat with (S c + j)%nat by lia.
           apply (proj1 (IH (S c)) Hn). lia.
      * intros Hall. f_equal. apply IH. intros j Hj.
        replace (S c + j)%nat with (c + S j)%nat by lia. apply Hall. lia.
    + split; [discriminate|]. intros Hall.
      specialize (Hall 0%nat ltac:(lia)). rewrite Nat.add_0_r in Hall.
      congruence.
Qed.

Lemma empty_run_le f n : forall c, (empty_run f c n <= n)%nat.
Proof.
  induction n as [|n IH]; intros c; cbn [empty_run]; [lia|].
  destruct (is_empty (f c)); [specialize (IH (S c))|]; lia.
Qed.

(** X2.  The poll of a stream times out exactly when the first answer and those
    of the first 999 retries are all empty ranges; the answer of the 1000th
    retry is not looked at. *)
Lemma poll_times_out_iff `{Env} stream w :
  wp (map_read_retry stream) w
     (fun r w' =>
        (snd r >=? maxRetries) = true <->
        (forall j, (j < 1000)%nat ->
                   is_empty (map_script stream (map_calls w stream + j)%nat)
                   = true)).
Proof.
  eapply wp_conseq; [apply map_read_retry_spec|].
  cbn beta. intros r w' (-> & _). cbn [snd].
  change 1000%nat with (Z.to_nat maxRetries).
  rewrite <- empty_run_full. fold (retries_of stream w).
  assert (Hle := empty_run_le (map_script stream) (Z.to_nat maxRetries)
                   (map_calls w stream)).
  fold (retries_of stream w) in Hle.
  rewrite Z.geb_leb, Z.leb_le.
  generalize dependent (retries_of stream w). intros k Hle.
  unfold maxRetries in *. lia.
Qed.


(** * The theorems at work on the example surroundings *)

(** The conditions on a concrete world are settled by evaluation. *)
Ltac concrete_ready :=
  unfold cycle_ready, snap_ready, buffers_ok, has_room, snap_fits;
  repeat split; intros;
  repeat match goal with
         | H : _ !! _ = Some _ |- _ => vm_compute in H; discriminate H
         | H : _ !! _ = Some _ |- _ => vm_compute in H; injection H as H
         | H : (_, _) = (_, _) |- _ => injection H as ? ?
         end;
  subst;
  try (vm_compute;
       first [ reflexivity | discriminate | intros; discriminate
             | repeat constructor ]).

Lemma frame_id_mismatch_is_logged_not_fatal_witness :
  @cycle_ready scenario_A (fresh (example_camera true false)) /\
  exists w',
    @readLiveFrames scenario_A (fresh (example_camera true false))
    = Done (DEVICE_OK, 5) w' /\
    In (101, 0)
       (missed_frames 1 (new_events (fresh (example_camera true false)) w')).
Proof.
  assert (Hready : @cycle_ready scenario_A (fresh (example_camera true false))).
  { concrete_ready. }
  split; [exact Hready|].
  destruct (@frame_id_mismatch_is_logged_not_fatal scenario_A _ Hready)
    as (w' & Hrun & _ & _ & _ & Hmissed & _).
  exists w'. split; [exact Hrun|].
  apply (Hmissed 1%nat 12544); [reflexivity | vm_compute; discriminate].
Defined.

Lemma single_channel_overflow_retries_once_witness :
  let w := fresh (example_camera false false) in
  let md := {| CpxFrameId := 100; CpxTimeStamp := 100000 |} in
  exists w',
    @deliver full_once md 100 w = Done tt w' /\
    core_calls (new_events w w')
    = [InsertImage 0 example_buffer md; ClearImageBuffer;
       InsertImage 0 example_buffer md] /\
    insert_calls w' = 2%nat.
Proof.
  intros w md.
  destruct (@single_channel_overflow_retries_once full_once w md 100
              example_buffer eq_refl eq_refl eq_refl)
    as (w' & Hrun & Hover & _).
  exists w'. split; [exact Hrun|]. exact (Hover eq_refl).
Defined.

Lemma StartSequenceAcquisition_target_frame_count_witness :
  exists status w' props,
    @StartSequenceAcquisition scenario_A 0 (dbl 0) false
      (fresh (example_camera true false)) = Done status w' /\
    configured (new_events (fresh (example_camera true false)) w') = [props] /\
    video0_max_frame_count props = 18446744073709551615 /\
    video1_max_frame_count props = 18446744073709551615.
Proof.
  destruct (@StartSequenceAcquisition_target_frame_count scenario_A
              (fresh (example_camera true false)) 0 (dbl 0) false
              eq_refl eq_refl ltac:(lia))
    as (status & w' & props & Hrun & Hconf & Hsame & Hzero & _).
  exists status, w', props. split; [exact Hrun|]. split; [exact Hconf|].
  split; [exact (Hzero eq_refl)|]. rewrite <- Hsame. exact (Hzero eq_refl).
Defined.

Lemma GetImageBuffer_checks_channel_witness :
  let w := fresh (example_camera true false) in
  GetImageBuffer 2 w = Done nullptr w /\
  GetImageBuffer 1 w = Done (pixels_of 1 (GetPixels example_buffer)) w.
Proof.
  intros w.
  destruct (GetImageBuffer_checks_channel w 2
              ltac:(vm_compute; repeat constructor) ltac:(reflexivity)
              ltac:(lia)) as (Hnull & _).
  destruct (GetImageBuffer_checks_channel w 1
              ltac:(vm_compute; repeat constructor) ltac:(reflexivity)
              ltac:(lia)) as (_ & Hmulti & _).
  split; [apply Hnull; vm_compute; discriminate|].
  destruct (Hmulti ltac:(reflexivity) eq_refl) as (b & Hb & Hrun).
  injection Hb as <-. exact Hrun.
Defined.


(** C8.  A mismatch of a frame of the batch can go unlogged, and the frame
    undelivered.  The range of the single stream holds three frames with
    ids 100, 102 and 103: frames 1 and 2 of the batch are not
    [startFrameId + i].  The cycle returns [DEVICE_OK] with three frames
    read and logs no missed frame: from the second round on it reads,
    checks, copies and inserts what lies 88 and 176 strides after the start
    of the range, here frames with ids 101 and 102, and the frames with ids
    102 and 103 of the batch are never copied. *)
Theorem frame_id_gap_in_the_batch_goes_unlogged :
  let w := fresh (example_camera false false) in
  @cycle_ready dropped_frame w /\
  @range_of dropped_frame 0 w = (4096, 4096 + 3 * 96) /\
  map (fun p => frame_id (@frame_at dropped_frame p))
      (contiguous_frames 4096 96 3) = [100; 102; 103] /\
  exists w',
    @readLiveFrames dropped_frame w = Done (DEVICE_OK, 3) w' /\
    missed_frames 1 (new_events w w') = [] /\
    sources 0 (new_events w w')
    = [4096; 4096 + 96 * 88; 4096 + 2 * 96 * 88] /\
    map CpxFrameId (inserts (new_events w w')) = [100; 101; 102].
Proof.
  intros w. split; [concrete_ready|].
  split; [reflexivity|]. split; [reflexivity|].
  eexists. split; [vm_compute; reflexivity|].
  repeat split; vm_compute; reflexivity.
Qed.

(** * Further facts about a streaming cycle *)

(** X5.  In every cycle that gets its frames, round [j] copies the frame of
    stream 0 found [j * bytes_of_frame * sizeof(VideoFrame)] bytes after the
    start of the mapped range. *)
Lemma readLiveFrames_frame_offsets `{Env} w j :
  cycle_ready w -> 0 <= fst (range_of 0 w) < 2 ^ 64 ->
  0 <= Z.of_nat j < batch_size w ->
  exists w',
    readLiveFrames w = Done (DEVICE_OK, Int.int (batch_size w)) w' /\
    sources 0 (new_events w w') !! j =
    Some (Int.size_t (fst (range_of 0 w)
                      + Z.of_nat j * (stride_of 0 w * sizeof_VideoFrame))).
Proof.
  intros Hready Hbeg Hj.
  destruct (wp_run _ _ _ (readLiveFrames_spec w Hready))
    as ([st fr] & w' & Hrun & Hr & _ & t & Ht & Hs0 & _).
  exists w'. rewrite (new_events_app _ _ _ Ht), Hrun, Hr, Hs0.
  split; [reflexivity|]. apply frame_ptrs_lookup; lia.
Qed.

(** With a frame header of more than one byte, that offset is not the
    [j * bytes_of_frame] of frame [j] from the second round on. *)
Lemma frame_offset_differs `{Env} (stride : Z) (j : nat) :
  1 < sizeof_VideoFrame -> 0 < stride -> (0 < j)%nat ->
  Z.of_nat j * (stride * sizeof_VideoFrame) <> Z.of_nat j * stride.
Proof. intros Hsize Hstride Hj. nia. Qed.

(** Whatever [InsertImage] answers and whatever [stopOnOverflow] says, a
    cycle that gets its frames returns [DEVICE_OK]. *)
Lemma readLiveFrames_drops_insert_status `{Env} w :
  cycle_ready w ->
  exists w', readLiveFrames w = Done (DEVICE_OK, Int.int (batch_size w)) w'.
Proof.
  intros Hready.
  destruct (wp_run _ _ _ (readLiveFrames_spec w Hready))
    as ([st fr] & w' & Hrun & Hr & _).
  exists w'. rewrite Hrun, Hr. reflexivity.
Qed.

(** A cycle whose poll of stream 0 times out returns [ERR_TIMEOUT] with no
    frame read and nothing unmapped. *)
Lemma readLiveFrames_timeout `{Env} w :
  retries_of 0 w = Z.to_nat maxRetries ->
  wp readLiveFrames w
     (fun r w' =>
        r = (ERR_TIMEOUT, 0) /\
        forall s, unmapped s (new_events w w') = []).
Proof.
  intros Hr. unfold readLiveFrames.
  wp_apply map_read_retry_spec.
  intros r1 w1 (-> & _ & _ & _ & Ht1).
  destruct (range_of 0 w) as [b1 e1].
  destruct (poll_events_silent 0 (retries_of 0 w)) as (_ & Pu & _).
  generalize dependent (poll_events 0 (retries_of 0 w)). intros P Ht1 Pu.
  rewrite Hr. change (Z.of_nat (Z.to_nat maxRetries) >=? maxRetries) with true.
  apply wp_ret. split; [reflexivity|].
  intros s. rewrite (new_events_app _ _ _ Ht1). apply Pu.
Qed.

(** A whole cycle in single-channel mode, with one frame and a core buffer
    that is full at the first insert: insert, clear, insert again. *)
Example single_channel_cycle_retries_once :
  wp (@readLiveFrames full_once) (fresh (example_camera false false))
     (fun r w' =>
        r = (DEVICE_OK, 1) /\
        map (fun e => match e with
                      | InsertImage buf _ md => Some (buf, CpxFrameId md)
                      | _ => None
                      end) (core_calls (trace w'))
        = [Some (0%nat, 100); None; Some (0%nat, 100)]).
Proof. vm_compute. repeat split. Qed.

(** * Polling: bounds and timeouts *)

Lemma empty_run_stops f n : forall c,
  (empty_run f c n < n)%nat -> is_empty (f (c + empty_run f c n)%nat) = false.
Proof.
  induction n as [|n IH]; intros c Hlt; cbn [empty_run] in *; [lia|].
  destruct (is_empty (f c)) eqn:E.
  - replace (c + S (empty_run f (S c) n))%nat
      with (S c + empty_run f (S c) n)%nat by lia.
    apply IH. lia.
  - rewrite Nat.add_0_r. exact E.
Qed.

Lemma stream_starves_retries `{Env} stream w :
  stream_starves stream w <-> retries_of stream w = Z.to_nat maxRetries.
Proof. unfold stream_starves, retries_of. symmetry. apply empty_run_full. Qed.

Lemma map_reads_poll_events stream k :
  map_reads stream (poll_events stream k) = S k.
Proof.
  unfold map_reads, poll_events. cbn [flat_map]. rewrite Nat.eqb_refl.
  cbn [app length]. f_equal.
  induction k as [|k IH]; [reflexivity|].
  cbn [repeat concat app flat_map]. rewrite Nat.eqb_refl. cbn [app length].
  f_equal. exact IH.
Qed.

Lemma slept_poll_events stream k :
  slept (poll_events stream k) = 5 * Z.of_nat k.
Proof.
  unfold slept, poll_events. cbn [fold_right].
  induction k as [|k IH]; [reflexivity|].
  cbn [repeat concat app fold_right]. rewrite IH. lia.
Qed.

(** X1.  A poll of a stream always ends: it calls [cpx_map_read] once and then
    once per retry, at most 1001 times, and sleeps 5 ms per retry, 5 s at
    most.  Unless it used up all 1000 retries, the range it ends with is
    not empty. *)
Theorem poll_is_bounded `{Env} (stream : nat) (w : World) :
  exists beg end_ retries w',
    map_read_retry stream w = Done (beg, end_, retries) w' /\
    0 <= retries <= 1000 /\
    Z.of_nat (map_reads stream (new_events w w')) = retries + 1 /\
    slept (new_events w w') = 5 * retries /\
    (retries < 1000 -> beg <> end_) /\
    self w' = self w.
Proof.
  destruct (wp_run _ _ _ (map_read_retry_spec stream w))
    as ([[beg end_] retries] & w' & Hrun & Hr & Hs & _ & _ & Ht).
  exists beg, end_, retries, w'.
  assert (Hle := empty_run_le (map_script stream) (Z.to_nat maxRetries)
                   (map_calls w stream)).
  assert (Hne := empty_run_stops (map_script stream) (Z.to_nat maxRetries)
                   (map_calls w stream)).
  fold (retries_of stream w) in Hle, Hne.
  fold (range_of stream w) in Hne.
  rewrite (new_events_app _ _ _ Ht), map_reads_poll_events,
    slept_poll_events.
  injection Hr as Hrange ->.
  generalize dependent (retries_of stream w). intros k Hrun Ht Hle Hne.
  change (Z.to_nat maxRetries) with 1000%nat in *.
  repeat split; try lia; try assumption.
  intros Hlt Heq. assert (Hk : (k < 1000)%nat) by lia.
  specialize (Hne Hk). rewrite <- Hrange in Hne.
  unfold is_empty in Hne. cbn [fst snd] in Hne.
  apply Z.eqb_neq in Hne. contradiction.
Qed.

Lemma timed_out k :
  k = Z.to_nat maxRetries -> (Z.of_nat k >=? maxRetries) = true.
Proof. intros ->. reflexivity. Qed.

Lemma core_calls_poll_events stream k : core_calls (poll_events stream k) = [].
Proof. apply (poll_events_silent stream k). Qed.

(** X3.  When stream 0 has no frame for the first call and 999 retries, a
    streaming cycle gives up after 1001 calls of [cpx_map_read] and 5 s of
    sleep: it returns [ERR_TIMEOUT] with no frame read, copies nothing,
    unmaps nothing, calls the core not at all and leaves the camera as it
    was. *)
Theorem live_timeout_on_first_stream `{Env} (w : World)
    (Hstarves : stream_starves 0 w) :
  exists w',
    readLiveFrames w = Done (ERR_TIMEOUT, 0) w' /\
    self w' = self w /\
    map_reads 0 (new_events w w') = 1001%nat /\
    slept (new_events w w') = 5000 /\
    (forall s, unmapped s (new_events w w') = []
               /\ sources s (new_events w w') = []) /\
    core_calls (new_events w w') = [].
Proof.
  apply stream_starves_retries in Hstarves.
  assert (Hwp : wp readLiveFrames w
                  (fun r w' => r = (ERR_TIMEOUT, 0) /\ self w' = self w /\
                     trace w' = trace w ++ poll_events 0 (retries_of 0 w))).
  { unfold readLiveFrames. wp_apply map_read_retry_spec.
    intros r1 w1 (-> & Hs & _ & _ & Ht). destruct (range_of 0 w) as [b1 e1].
    rewrite (timed_out _ Hstarves). apply wp_ret. auto. }
  destruct (wp_run _ _ _ Hwp) as (r & w' & Hrun & -> & Hs & Ht).
  exists w'. rewrite (new_events_app _ _ _ Ht).
  destruct (poll_events_silent 0 (retries_of 0 w)) as (Ps & Pu & _ & Pc).
  rewrite map_reads_poll_events, slept_poll_events.
  clear Hwp.
  generalize dependent (poll_events 0 (retries_of 0 w)). intros P Ht Ps Pu Pc.
  rewrite Hstarves.
  split; [exact Hrun|]. split; [exact Hs|].
  split; [reflexivity|]. split; [reflexivity|].
  split; [intros s; split; [apply Pu | apply Ps] | exact Pc].
Qed.

(** X4.  With two cameras, when stream 0 has frames but stream 1 has none for
    the first call and 999 retries, the cycle returns [ERR_TIMEOUT] with no
    frame read; the range of stream 0, which is not empty, is not given
    back to the driver: nothing is unmapped, copied or inserted. *)
Theorem live_timeout_on_second_stream `{Env} (w : World)
    (Hdual : isDual (self w) = true)
    (Hfirst : (retries_of 0 w < Z.to_nat maxRetries)%nat)
    (Hstride : stride_of 0 w <> 0)
    (Hstarves : stream_starves 1 w) :
  exists w',
    readLiveFrames w = Done (ERR_TIMEOUT, 0) w' /\
    self w' = self w /\
    is_empty (range_of 0 w) = false /\
    (forall s, unmapped s (new_events w w') = []
               /\ sources s (new_events w w') = []) /\
    core_calls (new_events w w') = [].
Proof.
  apply stream_starves_retries in Hstarves.
  assert (Hne : is_empty (range_of 0 w) = false)
    by (apply empty_run_stops; exact Hfirst).
  assert (Hwp : wp readLiveFrames w
                  (fun r w' => r = (ERR_TIMEOUT, 0) /\ self w' = self w /\
                     trace w' = trace w ++ poll_events 0 (retries_of 0 w)
                                ++ poll_events 1 (retries_of 1 w))).
  { unfold readLiveFrames. wp_apply map_read_retry_spec.
    intros r1 w1 (-> & Hp1).
    destruct (polled_other 0%nat 1%nat _ _ _ Hp1 ltac:(lia)) as (Hr1 & _).
    destruct Hp1 as (Hs1 & _ & _ & Ht1).
    unfold stride_of in Hstride.
    destruct (range_of 0 w) as [b1 e1]. cbn [fst] in Hstride.
    rewrite (no_timeout _ Hfirst).
    apply wp_bind. unfold frames_in_range at 1.
    apply Z.eqb_neq in Hstride. rewrite Hstride. apply wp_ret.
    apply wp_bind. unfold wp at 1, get. rewrite Hs1, Hdual.
    wp_apply map_read_retry_spec.
    intros r2 w2 (-> & Hs2 & _ & _ & Ht2).
    destruct (range_of 1 w1) as [b2 e2].
    rewrite Hr1 in *. rewrite (timed_out _ Hstarves). cbn [andb].
    apply wp_ret. split; [reflexivity|]. split; [congruence|].
    rewrite Ht2, Ht1, <- app_assoc. reflexivity. }
  destruct (wp_run _ _ _ Hwp) as (r & w' & Hrun & -> & Hs & Ht).
  exists w'. rewrite (new_events_app _ _ _ Ht).
  destruct (poll_events_silent 0 (retries_of 0 w)) as (Ps0 & Pu0 & _ & Pc0).
  destruct (poll_events_silent 1 (retries_of 1 w)) as (Ps1 & Pu1 & _ & Pc1).
  clear Hwp.
  generalize dependent (poll_events 0 (retries_of 0 w)).
  intros P0 Ht Ps0 Pu0 Pc0.
  generalize dependent (poll_events 1 (retries_of 1 w)).
  intros P1 Ps1 Pu1 Pc1 Ht.
  split; [exact Hrun|]. split; [exact Hs|]. split; [exact Hne|].
  rewrite core_calls_app, Pc0, Pc1. split; [|reflexivity].
  intros s. rewrite unmapped_app, sources_app, Ps0, Ps1, Pu0, Pu1.
  split; reflexivity.
Qed.

(** * The snap path: what is copied, and timeouts *)

Lemma snap_stream_copies `{Env} s w b :
  imgs (self w) !! s = Some b ->
  (retries_of s w < Z.to_nat maxRetries)%nat ->
  snap_bytes s w <= Z.of_nat (length (GetPixels b)) ->
  wp (snap_stream s) w
     (fun r w' =>
        r = DEVICE_OK /\
        self w' = set_imgs (<[s := snapped s w b]> (imgs (self w))) (self w) /\
        (forall s', s' <> s -> map_calls w' s' = map_calls w s') /\
        exists t, trace w' = trace w ++ t /\
          sources s t = [fst (range_of s w)] /\
          unmapped s t = [Int.uint32_t (range_bytes s w)] /\
          (forall s', s' <> s -> sources s' t = [] /\ unmapped s' t = [])).
Proof.
  intros Hb Hr Hfit.
  unfold snap_stream, snapped, snap_bytes, first_frame, range_bytes in *.
  apply Z.ltb_ge in Hfit.
  wp_apply map_read_retry_spec.
  intros r1 w1 (-> & Hs1 & _ & Hm1 & Ht1).
  destruct (range_of s w) as [beg end_]. cbn [fst snd] in *.
  rewrite (no_timeout _ Hr).
  destruct (poll_events_silent s (retries_of s w)) as (Ps & Pu & _).
  generalize dependent (poll_events s (retries_of s w)). intros P Ht1 Ps Pu.
  unfold wp, do_memcpy, bind at 1 2, get.
  rewrite Hs1, Hb, Hfit.
  unfold do_cpx_unmap_read, bind, emit, modify_self, ret.
  cbn [self map_calls insert_calls trace]. rewrite Hs1.
  split; [reflexivity|]. split; [reflexivity|].
  split.
  { intros s' Hne. rewrite Hm1. apply Nat.eqb_neq in Hne. rewrite Hne.
    reflexivity. }
  eexists. split; [rewrite Ht1, <- !app_assoc; reflexivity|].
  rewrite !sources_app, !unmapped_app, Ps, Pu.
  cbn [sources unmapped flat_map app]. rewrite Nat.eqb_refl.
  split; [reflexivity|]. split; [reflexivity|].
  intros s' Hne. rewrite !sources_app, !unmapped_app, Ps, Pu.
  cbn [sources unmapped flat_map app].
  assert (E : (s =? s')%nat = false) by (apply Nat.eqb_neq; congruence).
  rewrite E. split; reflexivity.
Qed.

Lemma snap_stream_overflow `{Env} s w b :
  imgs (self w) !! s = Some b ->
  (retries_of s w < Z.to_nat maxRetries)%nat ->
  Z.of_nat (length (GetPixels b)) < snap_bytes s w ->
  snap_stream s w = Undefined.
Proof.
  intros Hb Hr Hbig. unfold snap_bytes, first_frame in Hbig.
  apply Z.ltb_lt in Hbig.
  destruct (wp_run _ _ _ (map_read_retry_spec s w))
    as (r1 & w1 & Hrun & -> & Hs1 & _).
  unfold snap_stream, bind at 1. rewrite Hrun.
  destruct (range_of s w) as [beg end_]. cbn [fst snd] in *.
  rewrite (no_timeout _ Hr).
  unfold do_memcpy, bind at 1 2, get. rewrite Hs1, Hb, Hbig. reflexivity.
Qed.

Lemma snapped_pixels `{Env} s w b :
  snap_bytes s w <= Z.of_nat (length (GetPixels b)) ->
  0 <= snap_bytes s w ->
  length (GetPixels (snapped s w b)) = length (GetPixels b) /\
  GetPixels (snapped s w b)
  = read_data (fst (range_of s w)) (snap_bytes s w)
    ++ drop (Z.to_nat (snap_bytes s w)) (GetPixels b).
Proof.
  intros Hfit Hpos. unfold snapped. split; [apply length_copy_pixels|].
  rewrite copy_pixels_fits, length_read_data; [reflexivity|].
  rewrite length_read_data. lia.
Qed.

Lemma snap_bytes_nonneg `{Env} s w : 0 <= snap_bytes s w.
Proof.
  unfold snap_bytes, Int.size_t, Int.wrap. apply Z.mod_pos_bound. lia.
Qed.

Lemma map_reads_other_stream stream s k :
  s <> stream -> map_reads s (poll_events stream k) = 0%nat.
Proof.
  intros Hne.
  assert (E : Nat.eqb stream s = false) by (apply Nat.eqb_neq; congruence).
  unfold map_reads, poll_events. cbn [flat_map]. rewrite E. cbn [app].
  induction k as [|k IH]; [reflexivity|].
  cbn [repeat concat app flat_map]. rewrite E. cbn [app]. exact IH.
Qed.

Lemma snap_stream_timeout `{Env} s w :
  stream_starves s w ->
  wp (snap_stream s) w
     (fun r w' =>
        r = ERR_TIMEOUT /\ self w' = self w /\
        exists t, trace w' = trace w ++ t /\
          (forall s', sources s' t = [] /\ unmapped s' t = []) /\
          (forall s', s' <> s -> map_reads s' t = 0%nat)).
Proof.
  intros Hstarves. apply stream_starves_retries in Hstarves.
  unfold snap_stream. wp_apply map_read_retry_spec.
  intros r1 w1 (-> & Hs1 & _ & _ & Ht1).
  destruct (range_of s w) as [beg end_].
  rewrite (timed_out _ Hstarves). apply wp_ret.
  destruct (poll_events_silent s (retries_of s w)) as (Ps & Pu & _).
  split; [reflexivity|]. split; [exact Hs1|].
  eexists. split; [exact Ht1|]. split.
  - intros s'. split; [apply Ps | apply Pu].
  - intros s' Hne. apply map_reads_other_stream. exact Hne.
Qed.

(** X12.  When stream 0 has no frame for the first call and 999 retries, a snap
    returns [ERR_TIMEOUT]; the image buffers and the rest of the camera are
    as before, nothing is copied or unmapped, and stream 1 is not polled. *)
Theorem snap_timeout_on_first_stream `{Env} (w : World)
    (Hstarves : stream_starves 0 w) :
  exists w',
    readSnapImageFrames w = Done ERR_TIMEOUT w' /\
    self w' = self w /\
    (forall s, unmapped s (new_events w w') = []
               /\ sources s (new_events w w') = []) /\
    map_reads 1 (new_events w w') = 0%nat.
Proof.
  assert (Hwp : wp readSnapImageFrames w
                  (fun r w' => r = ERR_TIMEOUT /\ self w' = self w /\
                     exists t, trace w' = trace w ++ t /\
                       (forall s', sources s' t = [] /\ unmapped s' t = []) /\
                       map_reads 1 t = 0%nat)).
  { unfold readSnapImageFrames.
    wp_apply (snap_stream_timeout 0 w Hstarves).
    intros r w1 (-> & Hs & t & Ht & Hsilent & Hpolls). apply wp_ret.
    split; [reflexivity|]. split; [exact Hs|]. exists t.
    split; [exact Ht|]. split; [exact Hsilent|].
    apply Hpolls. discriminate. }
  destruct (wp_run _ _ _ Hwp)
    as (r & w' & Hrun & -> & Hs & t & Ht & Hsilent & Hpolls).
  exists w'. rewrite (new_events_app _ _ _ Ht).
  split; [exact Hrun|]. split; [exact Hs|]. split; [|exact Hpolls].
  intros s. destruct (Hsilent s). split; assumption.
Qed.

(** X13.  With two buffers, when stream 0 gives a frame that fits
    [imgs[0]] but stream 1 has none, a snap returns [ERR_TIMEOUT] after it
    has copied the frame of stream 0 into [imgs[0]] and unmapped the range
    of stream 0: the first [bytes_of_frame - sizeof(VideoFrame)] bytes of
    [imgs[0]] are those read at the frame's payload, the rest and the size
    of the pixel area are as before; [imgs[1]] is as before. *)
Theorem snap_timeout_on_second_stream `{Env} (w : World) (b0 : ImgBuffer)
    (Hfirst : imgs (self w) !! 0%nat = Some b0)
    (Htwo : (1 < length (imgs (self w)))%nat)
    (Hready : (retries_of 0 w < Z.to_nat maxRetries)%nat)
    (Hfits : snap_bytes 0 w <= Z.of_nat (length (GetPixels b0)))
    (Hstarves : stream_starves 1 w) :
  exists w' copy,
    readSnapImageFrames w = Done ERR_TIMEOUT w' /\
    imgs (self w') !! 0%nat = Some copy /\
    (Width copy, Height copy, Depth copy) = (Width b0, Height b0, Depth b0) /\
    length (GetPixels copy) = length (GetPixels b0) /\
    GetPixels copy
    = read_data (fst (range_of 0 w)) (snap_bytes 0 w)
      ++ drop (Z.to_nat (snap_bytes 0 w)) (GetPixels b0) /\
    imgs (self w') !! 1%nat = imgs (self w) !! 1%nat /\
    unmapped 0 (new_events w w') = [Int.uint32_t (range_bytes 0 w)] /\
    unmapped 1 (new_events w w') = [] /\
    sources 1 (new_events w w') = [].
Proof.
  assert (Hwp : wp readSnapImageFrames w
    (fun r w' =>
       r = ERR_TIMEOUT /\
       self w' = set_imgs (<[0%nat := snapped 0 w b0]> (imgs (self w)))
                   (self w) /\
       exists t, trace w' = trace w ++ t /\
         unmapped 0 t = [Int.uint32_t (range_bytes 0 w)] /\
         unmapped 1 t = [] /\ sources 1 t = [])).
  { unfold readSnapImageFrames.
    wp_apply (snap_stream_copies 0 w b0 Hfirst Hready Hfits).
    intros r w1 (-> & Hs1 & Hm1 & t1 & Ht1 & _ & Hu0 & Hother).
    apply wp_bind. unfold wp at 1, get. rewrite Hs1.
    cbn [imgs set_imgs]. rewrite length_insert.
    replace (1 <? Z.of_nat (length (imgs (self w)))) with true
      by (symmetry; apply Z.ltb_lt; lia).
    assert (Hstarves1 : stream_starves 1 w1).
    { intros j Hj. rewrite Hm1 by lia. apply Hstarves. exact Hj. }
    eapply wp_conseq; [apply (snap_stream_timeout 1 w1 Hstarves1)|].
    cbn beta. intros r w2 (-> & Hs2 & t2 & Ht2 & Hsilent & _).
    destruct (Hother 1%nat ltac:(lia)) as (Hs11 & Hu11).
    destruct (Hsilent 0%nat) as (_ & Hu20).
    destruct (Hsilent 1%nat) as (Hs21 & Hu21).
    split; [reflexivity|]. split; [congruence|].
    exists (t1 ++ t2). split; [rewrite Ht2, Ht1, app_assoc; reflexivity|].
    rewrite !unmapped_app, sources_app, Hu0, Hu20, Hu11, Hu21, Hs11, Hs21.
    cbn [app]. repeat split; reflexivity. }
  destruct (wp_run _ _ _ Hwp)
    as (r & w' & Hrun & -> & Hs & t & Ht & Hu0 & Hu1 & Hs1).
  destruct (snapped_pixels 0 w b0 Hfits (snap_bytes_nonneg 0 w))
    as (Hlen & Hpixels).
  exists w', (snapped 0 w b0).
  rewrite (new_events_app _ _ _ Ht), Hs. cbn [imgs set_imgs].
  split; [exact Hrun|].
  split; [apply list_lookup_insert_eq; lia|].
  split; [reflexivity|]. split; [exact Hlen|]. split; [exact Hpixels|].
  split; [apply list_lookup_insert_ne; lia|].
  repeat split; assumption.
Qed.

Lemma geometry_copy c s bytes b :
  imgs c !! s = Some b ->
  geometry (set_imgs (<[s := copy_pixels bytes b]> (imgs c)) c) = geometry c.
Proof.
  intros Hb. unfold geometry. cbn [imgs set_imgs].
  rewrite list_fmap_insert. apply list_insert_id.
  rewrite list_lookup_fmap, Hb. reflexivity.
Qed.

Lemma range_of_same_calls `{Env} s w w' :
  map_calls w' s = map_calls w s -> range_of s w' = range_of s w.
Proof. unfold range_of, retries_of. intros ->. reflexivity. Qed.

(** X11.  A snap that gets a frame from every stream it polls, each one
    fitting the buffer of its stream, returns [DEVICE_OK] and keeps the
    geometry and the size of the pixel area of the buffers.  In [imgs[0]],
    and in [imgs[1]] when it is there, the first
    [bytes_of_frame - sizeof(VideoFrame)] bytes are replaced by the bytes
    read at the payload of the first frame of the stream's range, and the
    bytes after them stay; when the payload is at least that long, the
    bytes copied are the first bytes of the payload. *)
Theorem snap_copies_the_first_frame `{Env} (w : World)
    (Hready : snap_ready w) :
  exists w',
    readSnapImageFrames w = Done DEVICE_OK w' /\
    geometry (self w') = geometry (self w) /\
    forall s b,
      (s = 0 \/ s = 1)%nat -> imgs (self w) !! s = Some b ->
      exists copy,
        imgs (self w') !! s = Some copy /\
        length (GetPixels copy) = length (GetPixels b) /\
        GetPixels copy
        = read_data (fst (range_of s w)) (snap_bytes s w)
          ++ drop (Z.to_nat (snap_bytes s w)) (GetPixels b) /\
        ((Z.to_nat (snap_bytes s w)
          <= length (data (first_frame s w)))%nat ->
         GetPixels copy
         = take (Z.to_nat (snap_bytes s w)) (data (first_frame s w))
           ++ drop (Z.to_nat (snap_bytes s w)) (GetPixels b)).
Proof.
  destruct Hready as (Hone & Hr0 & Hfit0 & Hr1).
  destruct (lookup_lt_is_Some_2 (imgs (self w)) 0) as [b0 Hb0]; [lia|].
  assert (Hwp : wp readSnapImageFrames w
    (fun r w' =>
       r = DEVICE_OK /\ geometry (self w') = geometry (self w) /\
       imgs (self w') !! 0%nat = Some (snapped 0 w b0) /\
       forall b1, imgs (self w) !! 1%nat = Some b1 ->
                  imgs (self w') !! 1%nat = Some (snapped 1 w b1))).
  { unfold readSnapImageFrames.
    wp_apply (snap_stream_copies 0 w b0 Hb0 Hr0 (Hfit0 b0 Hb0)).
    intros r w1 (-> & Hs1 & Hm1 & _).
    apply wp_bind. unfold wp at 1, get.
    assert (Hlen : length (imgs (self w1)) = length (imgs (self w)))
      by (rewrite Hs1; cbn [imgs set_imgs]; apply length_insert).
    assert (Hg1 : geometry (self w1) = geometry (self w))
      by (rewrite Hs1; apply geometry_copy; exact Hb0).
    assert (H10 : imgs (self w1) !! 0%nat = Some (snapped 0 w b0))
      by (rewrite Hs1; cbn [imgs set_imgs];
          apply list_lookup_insert_eq; lia).
    assert (H11 : imgs (self w1) !! 1%nat = imgs (self w) !! 1%nat)
      by (rewrite Hs1; cbn [imgs set_imgs];
          apply list_lookup_insert_ne; lia).
    rewrite Hlen.
    destruct (1 <? Z.of_nat (length (imgs (self w)))) eqn:Elen.
    - apply Z.ltb_lt in Elen.
      destruct (lookup_lt_is_Some_2 (imgs (self w1)) 1) as [b1 Hb1]; [lia|].
      assert (Eran : range_of 1 w1 = range_of 1 w)
        by (apply range_of_same_calls, Hm1; lia).
      assert (Eret : retries_of 1 w1 = retries_of 1 w)
        by (unfold retries_of; rewrite Hm1 by lia; reflexivity).
      assert (Ebytes : snap_bytes 1 w1 = snap_bytes 1 w)
        by (unfold snap_bytes, first_frame; rewrite Eran; reflexivity).
      destruct (Hr1 ltac:(lia)) as (Hr1' & Hfit1).
      eapply wp_conseq.
      { apply (snap_stream_copies 1 w1 b1 Hb1).
        - rewrite Eret. exact Hr1'.
        - rewrite Ebytes. apply Hfit1. rewrite <- H11. exact Hb1. }
      cbn beta. intros r w2 (-> & Hs2 & _).
      assert (Esnap : snapped 1 w1 b1 = snapped 1 w b1)
        by (unfold snapped; rewrite Eran, Ebytes; reflexivity).
      rewrite Esnap in Hs2.
      split; [reflexivity|]. rewrite Hs2.
      split; [unfold snapped; rewrite geometry_copy by exact Hb1; exact Hg1|].
      cbn [imgs set_imgs]. split.
      + rewrite list_lookup_insert_ne by lia. exact H10.
      + intros b1' Hb1'. rewrite <- H11, Hb1 in Hb1'. injection Hb1' as <-.
        apply list_lookup_insert_eq.
        apply lookup_lt_Some in Hb1. exact Hb1.
    - apply wp_ret. apply Z.ltb_ge in Elen.
      split; [reflexivity|]. split; [exact Hg1|]. split; [exact H10|].
      intros b1 Hb1. apply lookup_lt_Some in Hb1. lia. }
  destruct (wp_run _ _ _ Hwp) as (r & w' & Hrun & -> & Hg & H0 & H1).
  exists w'. split; [exact Hrun|]. split; [exact Hg|].
  assert (Hcopy : forall s b,
    snap_bytes s w <= Z.of_nat (length (GetPixels b)) ->
    length (GetPixels (snapped s w b)) = length (GetPixels b) /\
    GetPixels (snapped s w b)
    = read_data (fst (range_of s w)) (snap_bytes s w)
      ++ drop (Z.to_nat (snap_bytes s w)) (GetPixels b) /\
    ((Z.to_nat (snap_bytes s w) <= length (data (first_frame s w)))%nat ->
     GetPixels (snapped s w b)
     = take (Z.to_nat (snap_bytes s w)) (data (first_frame s w))
       ++ drop (Z.to_nat (snap_bytes s w)) (GetPixels b))).
  { intros s b Hfit.
    destruct (snapped_pixels s w b Hfit (snap_bytes_nonneg s w))
      as (Hlen & Hpixels).
    split; [exact Hlen|]. split; [exact Hpixels|].
    intros Hlong. rewrite Hpixels. f_equal.
    apply read_data_exact. exact Hlong. }
  intros s b [-> | ->] Hb.
  - rewrite Hb0 in Hb. injection Hb as <-.
    exists (snapped 0 w b0). split; [exact H0|].
    apply Hcopy. apply Hfit0. exact Hb0.
  - exists (snapped 1 w b). split; [exact (H1 b Hb)|].
    apply Hcopy. apply lookup_lt_Some in Hb as Hlt.
    destruct (Hr1 Hlt) as (_ & Hfit1). apply Hfit1. exact Hb.
Qed.

(** X28.  A snap of a frame whose payload is larger than the pixel area of
    the buffer of stream 0 writes past the buffer: once the poll of stream
    0 has its frame, the [memcpy] of [bytes_of_frame - sizeof(VideoFrame)]
    bytes into [imgs[0]] is undefined, whatever the geometry of the
    buffer. *)
Theorem snap_of_a_large_frame_overflows `{Env} (w : World) (b0 : ImgBuffer)
    (Hb0 : imgs (self w) !! 0%nat = Some b0)
    (Hpoll : (retries_of 0 w < Z.to_nat maxRetries)%nat)
    (Hlarge : Z.of_nat (length (GetPixels b0)) < snap_bytes 0 w) :
  readSnapImageFrames w = Undefined.
Proof.
  unfold readSnapImageFrames, bind at 1.
  rewrite (snap_stream_overflow 0 w b0 Hb0 Hpoll Hlarge). reflexivity.
Qed.

(** * Delivery to the core *)

Lemma clears_app t1 t2 : clears (t1 ++ t2) = (clears t1 + clears t2)%nat.
Proof. unfold clears. rewrite flat_map_app, length_app. reflexivity. Qed.

Lemma insert_channels_exact `{Env} md fid left : forall bufNum w,
  (bufNum + left = length (imgs (self w)))%nat ->
  wp (insert_channels left bufNum md fid) w
     (fun _ w' =>
        let t := multi_channel_calls (stopOnOverflow (self w)) insert_script
                   (insert_calls w) (drop bufNum (imgs (self w))) bufNum md
                   fid in
        self w' = self w /\ map_calls w' = map_calls w /\
        trace w' = trace w ++ t /\
        insert_calls w' = (insert_calls w + length (inserts t))%nat).
Proof.
  induction left as [|left IH]; intros bufNum w Hlen.
  - rewrite drop_ge by lia. cbn. rewrite app_nil_r, Nat.add_0_r. auto.
  - destruct (lookup_lt_is_Some_2 (imgs (self w)) bufNum) as [b Hb]; [lia|].
    rewrite (drop_S _ _ _ Hb). cbn [insert_channels multi_channel_calls].
    unfold wp, bind, get, do_InsertImage, do_LogMessage,
      do_ClearImageBuffer, emit.
    rewrite Hb. cbn [self map_calls insert_calls trace].
    destruct (negb (stopOnOverflow (self w)) &&
              bool_decide (insert_script (insert_calls w) =
                           DEVICE_BUFFER_OVERFLOW)).
    + cbn [self map_calls insert_calls trace].
      repeat split; [rewrite <- !app_assoc; reflexivity|].
      rewrite inserts_app. cbn. lia.
    + match goal with
      | |- match insert_channels _ _ _ _ ?w1 with _ => _ end =>
          specialize (IH (S bufNum) w1)
      end.
      cbn [self map_calls insert_calls trace] in IH.
      unfold wp in IH.
      destruct (insert_channels left (S bufNum) md fid _) as [[] w'|];
        [|apply IH; lia].
      destruct IH as (Hs & Hm & Ht & Hi); [lia|].
      repeat split; auto.
      * rewrite Ht, <- !app_assoc. reflexivity.
      * rewrite Hi, inserts_app. cbn [inserts flat_map app length]. lia.
Qed.

(** What the multi-channel delivery of a frame is made of. *)
Lemma multi_channel_calls_facts stop answers md fid bufs : forall k bufNum,
  let t := multi_channel_calls stop answers k bufs bufNum md fid in
  Forall sink_event t /\
  Forall (eq md) (inserts t) /\
  (length (inserts t) <= length bufs)%nat /\
  (bufs <> [] -> 1 <= length (inserts t))%nat /\
  (clears t <= 1)%nat /\
  (stop = true ->
   clears t = 0%nat /\ length (inserts t) = length bufs).
Proof.
  induction bufs as [|b rest IH]; intros k bufNum; cbn zeta.
  - cbn. repeat split; auto; try lia. congruence.
  - cbn [multi_channel_calls].
    destruct (negb stop && bool_decide (answers k = DEVICE_BUFFER_OVERFLOW))
      eqn:E.
    + cbn. repeat split; try lia; repeat constructor.
      all: match goal with
           | Hs : _ = true |- _ => rewrite Hs in E; discriminate
           end.
    + destruct (IH (S k) (S bufNum)) as (H1 & H2 & H3 & H4 & H5 & H6).
      rewrite inserts_app, clears_app.
      cbn [inserts clears flat_map app length].
      repeat split; try lia.
      * repeat constructor. exact H1.
      * constructor; [reflexivity | exact H2].
      * apply H6; assumption.
      * rewrite (proj2 (H6 ltac:(assumption))). reflexivity.
Qed.

Lemma single_channel_calls_facts stop r cur b md fid :
  let t := single_channel_calls stop r cur b md fid in
  Forall (eq md) (inserts t) /\
  (1 <= length (inserts t) <= 2)%nat /\
  (clears t <= 1)%nat /\
  (stop = true -> clears t = 0%nat /\ length (inserts t) = 1%nat).
Proof.
  unfold single_channel_calls.
  destruct (negb stop && bool_decide (r = DEVICE_BUFFER_OVERFLOW)) eqn:E;
    cbn; repeat split; try lia; repeat constructor.
  all: match goal with
       | Hs : _ = true |- _ => rewrite Hs in E; discriminate
       end.
Qed.

Lemma deliver_calls `{Env} w md fid :
  buffers_ok w ->
  wp (deliver md fid) w
     (fun _ w' =>
        self w' = self w /\ map_calls w' = map_calls w /\
        exists t, trace w' = trace w ++ t /\
          insert_calls w' = (insert_calls w + length (inserts t))%nat /\
          Forall sink_event t /\
          Forall (eq md) (inserts t) /\
          (1 <= length (inserts t))%nat /\
          (length (inserts t)
           <= if multiChannel (self w) then length (imgs (self w)) else 2)%nat
          /\ (clears t <= 1)%nat /\
          (stopOnOverflow (self w) = true ->
           clears t = 0%nat /\ length (inserts t) = channels w)).
Proof.
  intros (Hone & _ & Hcur & _). unfold deliver, channels.
  apply wp_bind. unfold wp at 1, get.
  destruct (multiChannel (self w)) eqn:Emc.
  - eapply wp_conseq; [apply insert_channels_exact; lia|].
    cbn beta zeta. intros _ w' (H1 & H2 & H3 & H4).
    split; [exact H1|]. split; [exact H2|]. eexists.
    split; [exact H3|]. split; [exact H4|].
    rewrite drop_0.
    destruct (multi_channel_calls_facts (stopOnOverflow (self w))
                insert_script md fid (imgs (self w)) (insert_calls w) 0)
      as (F1 & F2 & F3 & F4 & F5 & F6).
    repeat split; try assumption; try (apply F6; assumption).
    apply F4. intros E. rewrite E in Hone. cbn in Hone. lia.
  - destruct (lookup_lt_is_Some_2 (imgs (self w)) (currentCamera (self w)))
      as [b Hb]; [specialize (Hcur eq_refl); lia|].
    eapply wp_conseq; [apply (insert_current_spec md fid w b Hb)|].
    cbn beta. intros _ w' (H1 & H2 & H3 & H4).
    split; [exact H1|]. split; [exact H2|]. eexists. split; [exact H3|].
    destruct (single_channel_calls_facts (stopOnOverflow (self w))
                (insert_script (insert_calls w)) (currentCamera (self w))
                b md fid) as (F1 & F2 & F3 & F4).
    split.
    { rewrite H4. unfold single_channel_calls.
      destruct (negb (stopOnOverflow (self w)) &&
                bool_decide (insert_script (insert_calls w)
                             = DEVICE_BUFFER_OVERFLOW)); cbn; lia. }
    split; [apply single_channel_calls_sink|].
    repeat split; try assumption; try lia; apply F4; assumption.
Qed.

Lemma channel_inserts_cons bufNum b rest md :
  channel_inserts bufNum (b :: rest) md
  = InsertImage bufNum b md :: channel_inserts (S bufNum) rest md.
Proof.
  unfold channel_inserts. cbn [imap]. rewrite Nat.add_0_r. f_equal.
  apply imap_ext. intros i x _. cbn. f_equal. lia.
Qed.

Lemma multi_channel_calls_all stop answers md fid bufs : forall k bufNum,
  (forall i, (i < length bufs)%nat ->
             stop = true \/ answers (k + i)%nat <> DEVICE_BUFFER_OVERFLOW) ->
  core_calls (multi_channel_calls stop answers k bufs bufNum md fid)
  = channel_inserts bufNum bufs md.
Proof.
  induction bufs as [|b rest IH]; intros k bufNum Hok; [reflexivity|].
  cbn [multi_channel_calls]. rewrite channel_inserts_cons.
  replace (negb stop && bool_decide (answers k = DEVICE_BUFFER_OVERFLOW))
    with false.
  - cbn [core_calls flat_map app]. f_equal. apply IH. intros i Hi.
    replace (S k + i)%nat with (k + S i)%nat by lia. apply Hok. cbn. lia.
  - symmetry. destruct (Hok 0%nat ltac:(cbn; lia)) as [-> | Hne];
      [reflexivity|].
    rewrite Nat.add_0_r in Hne. rewrite bool_decide_eq_false_2 by exact Hne.
    apply andb_false_r.
Qed.

Lemma multi_channel_calls_overflow answers md fid bufs : forall k bufNum j,
  (j < length bufs)%nat ->
  (forall i, (i < j)%nat -> answers (k + i)%nat <> DEVICE_BUFFER_OVERFLOW) ->
  answers (k + j)%nat = DEVICE_BUFFER_OVERFLOW ->
  let t := multi_channel_calls false answers k bufs bufNum md fid in
  core_calls t = channel_inserts bufNum (take (S j) bufs) md
                 ++ [ClearImageBuffer] /\
  length (inserts t) = S j.
Proof.
  induction bufs as [|b rest IH]; intros k bufNum j Hj Hbefore Hover;
    [cbn in Hj; lia|].
  cbn zeta. cbn [multi_channel_calls negb andb firstn].
  rewrite channel_inserts_cons.
  destruct j as [|j].
  - rewrite Nat.add_0_r in Hover.
    rewrite bool_decide_eq_true_2 by exact Hover.
    cbn. split; reflexivity.
  - rewrite bool_decide_eq_false_2
      by (specialize (Hbefore 0%nat ltac:(lia));
          rewrite Nat.add_0_r in Hbefore; exact Hbefore).
    destruct (IH (S k) (S bufNum) j) as (IH1 & IH2).
    + cbn in Hj. lia.
    + intros i Hi. replace (S k + i)%nat with (k + S i)%nat by lia.
      apply Hbefore. lia.
    + replace (S k + j)%nat with (k + S j)%nat by lia. exact Hover.
    + cbn [core_calls inserts flat_map app length].
      split; [cbn [app]; f_equal; exact IH1 | f_equal; exact IH2].
Qed.

(** X9.  In multi-channel mode with [stopOnOverflow] off, when the insert of
    channel [j] is the first to fail with [DEVICE_BUFFER_OVERFLOW], the
    delivery of the frame is: channels 0 to [j] inserted in this order, the
    core's buffer cleared, and nothing more; the channels after [j] are not
    inserted and channel [j] is not tried again. *)
Theorem multi_channel_overflow_skips_the_rest `{Env} (w : World)
    (md : Metadata) (currentFrameId : Z) (j : nat)
    (Hmulti : multiChannel (self w) = true)
    (Hstop : stopOnOverflow (self w) = false)
    (Hchannel : (j < length (imgs (self w)))%nat)
    (Hbefore : forall i, (i < j)%nat ->
       insert_script (insert_calls w + i)%nat <> DEVICE_BUFFER_OVERFLOW)
    (Hoverflow : insert_script (insert_calls w + j)%nat
                 = DEVICE_BUFFER_OVERFLOW) :
  exists w',
    deliver md currentFrameId w = Done tt w' /\
    core_calls (new_events w w')
    = channel_inserts 0 (take (S j) (imgs (self w))) md
      ++ [ClearImageBuffer] /\
    insert_calls w' = (insert_calls w + S j)%nat /\
    self w' = self w.
Proof.
  assert (Hwp : wp (deliver md currentFrameId) w
    (fun _ w' =>
       let t := multi_channel_calls false insert_script (insert_calls w)
                  (imgs (self w)) 0 md currentFrameId in
       self w' = self w /\ trace w' = trace w ++ t /\
       insert_calls w' = (insert_calls w + length (inserts t))%nat)).
  { unfold deliver. apply wp_bind. unfold wp at 1, get. rewrite Hmulti.
    eapply wp_conseq; [apply insert_channels_exact; lia|].
    cbn beta zeta. rewrite Hstop, drop_0. intros _ w' (H1 & _ & H3 & H4).
    auto. }
  destruct (wp_run _ _ _ Hwp) as ([] & w' & Hrun & Hs & Ht & Hi).
  destruct (multi_channel_calls_overflow insert_script md currentFrameId
              (imgs (self w)) (insert_calls w) 0 j Hchannel Hbefore Hoverflow)
    as (Hcalls & Hcount).
  exists w'. rewrite (new_events_app _ _ _ Ht), Hi, Hcount.
  repeat split; assumption.
Qed.

(** X10.  In multi-channel mode, when no insert of the frame fails with
    [DEVICE_BUFFER_OVERFLOW], or when [stopOnOverflow] is on, every buffer
    is inserted once, in the order of the channels, and the core's buffer
    is not cleared. *)
Theorem multi_channel_inserts_every_buffer `{Env} (w : World)
    (md : Metadata) (currentFrameId : Z)
    (Hmulti : multiChannel (self w) = true)
    (Hquiet : forall i, (i < length (imgs (self w)))%nat ->
       stopOnOverflow (self w) = true \/
       insert_script (insert_calls w + i)%nat <> DEVICE_BUFFER_OVERFLOW) :
  exists w',
    deliver md currentFrameId w = Done tt w' /\
    core_calls (new_events w w') = channel_inserts 0 (imgs (self w)) md /\
    self w' = self w.
Proof.
  assert (Hwp : wp (deliver md currentFrameId) w
    (fun _ w' =>
       self w' = self w /\
       trace w' = trace w ++
         multi_channel_calls (stopOnOverflow (self w)) insert_script
           (insert_calls w) (imgs (self w)) 0 md currentFrameId)).
  { unfold deliver. apply wp_bind. unfold wp at 1, get. rewrite Hmulti.
    eapply wp_conseq; [apply insert_channels_exact; lia|].
    cbn beta zeta. rewrite drop_0. intros _ w' (H1 & _ & H3 & _). auto. }
  destruct (wp_run _ _ _ Hwp) as ([] & w' & Hrun & Hs & Ht).
  exists w'. rewrite (new_events_app _ _ _ Ht).
  split; [exact Hrun|]. split; [|exact Hs].
  apply multi_channel_calls_all. exact Hquiet.
Qed.

(** *** The inserts of a whole streaming cycle *)

Lemma poll_events_poll stream k : Forall poll_event (poll_events stream k).
Proof.
  unfold poll_events. constructor; [exact I|].
  induction k as [|k IH]; [constructor|].
  cbn [repeat concat app]. repeat constructor. exact IH.
Qed.

Lemma poll_events_no_core t :
  Forall poll_event t -> inserts t = [] /\ clears t = 0%nat.
Proof.
  induction 1 as [|e t He _ (IH1 & IH2)]; [auto|].
  destruct e; cbn in He; try contradiction; cbn; auto.
Qed.

Lemma setup_channels w w' :
  setup w' = setup w ->
  max_inserts w' = max_inserts w /\ channels w' = channels w /\
  stopOnOverflow (self w') = stopOnOverflow (self w).
Proof.
  unfold setup, max_inserts, channels. intros E. injection E.
  intros _ -> _ -> _ ->. auto.
Qed.

Lemma second_stream_calls `{Env} w ptr2 startFrameId i :
  buffers_ok w ->
  wp (second_stream ptr2 startFrameId i) w
     (fun _ w' =>
        setup w' = setup w /\ insert_calls w' = insert_calls w /\
        exists t, trace w' = trace w ++ t /\
                  inserts t = [] /\ clears t = 0%nat).
Proof.
  intros (_ & Hdual & _ & _ & Hroom1). unfold second_stream.
  apply wp_bind. unfold wp at 1, get.
  destruct (isDual (self w)) eqn:Ed.
  - destruct (lookup_lt_is_Some_2 (imgs (self w)) 1) as [b1 Hb1];
      [specialize (Hdual eq_refl); lia|].
    wp_apply check_frame_id_spec.
    intros _ w1 (Hs1 & _ & Hi1 & Ht1).
    eapply wp_conseq;
      [apply (composite_spec 1 ptr2 w1 b1);
       [congruence | rewrite Hs1; apply Hroom1; reflexivity]|].
    cbn beta. intros _ w2 (Hs2 & _ & Hi2 & Ht2 & _).
    split; [rewrite Hs2; apply setup_self; exact Hs1|].
    split; [congruence|].
    eexists. split; [rewrite Ht2, Ht1, <- app_assoc; reflexivity|].
    destruct (frame_id (frame_at ptr2) =? Int.uint64_t (startFrameId + i));
      cbn; auto.
  - apply wp_ret. split; [reflexivity|]. split; [reflexivity|].
    exists []. rewrite app_nil_r. cbn. auto.
Qed.

Lemma Forall_eq_replicate {A} (x : A) l :
  Forall (eq x) l -> l = replicate (length l) x.
Proof.
  induction 1 as [|y l <- _ IH]; cbn; [reflexivity | f_equal; exact IH].
Qed.

Lemma inserts_core_calls t : inserts (core_calls t) = inserts t.
Proof.
  induction t as [|e t IH]; [reflexivity|].
  change (e :: t) with ([e] ++ t).
  rewrite core_calls_app, !inserts_app, IH. destruct e; reflexivity.
Qed.

Lemma clears_core_calls t : clears (core_calls t) = clears t.
Proof.
  induction t as [|e t IH]; [reflexivity|].
  change (e :: t) with ([e] ++ t).
  rewrite core_calls_app, !clears_app, IH. destruct e; reflexivity.
Qed.

Lemma no_core_calls t :
  inserts t = [] -> clears t = 0%nat -> core_calls t = [].
Proof.
  induction t as [|e t IH]; [reflexivity|].
  destruct e; cbn; intros Hi Hc; try discriminate; auto.
Qed.

Lemma round_calls_setup `{Env} w w' p r :
  max_inserts w' = max_inserts w -> round_calls w' p r -> round_calls w p r.
Proof. unfold round_calls. intros ->. auto. Qed.

Lemma frame_loop_calls `{Env} startFrameId beg1 beg2 left :
  forall i ptr1 ptr2 w,
  buffers_ok w ->
  wp (frame_loop left i startFrameId beg1 beg2 ptr1 ptr2) w
     (fun _ w' =>
        setup w' = setup w /\
        exists t ks, trace w' = trace w ++ t /\
          insert_calls w' = (insert_calls w + length (inserts t))%nat /\
          length ks = left /\
          Forall (fun k => 1 <= k <= max_inserts w)%nat ks /\
          inserts t =
            delivered ks
              (frame_ptrs ptr1 (bytes_of_frame (frame_at beg1)) left) /\
          (clears t <= left)%nat /\
          (stopOnOverflow (self w) = true ->
           clears t = 0%nat /\ Forall (eq (channels w)) ks) /\
          exists rounds,
            core_calls t = concat rounds /\
            Forall2 (round_calls w)
              (frame_ptrs ptr1 (bytes_of_frame (frame_at beg1)) left)
              rounds).
Proof.
  induction left as [|left IH]; intros i ptr1 ptr2 w Hok.
  - apply wp_ret. split; [reflexivity|].
    exists [], []. rewrite app_nil_r. cbn.
    split; [reflexivity|]. split; [lia|]. split; [reflexivity|].
    split; [constructor|]. split; [reflexivity|]. split; [lia|].
    split; [intros _; split; [reflexivity | constructor]|].
    exists []. split; [reflexivity | constructor].
  - cbn [frame_loop].
    wp_apply check_frame_id_spec.
    intros _ w1 (Hs1 & _ & Hi1 & Ht1).
    destruct (lookup_lt_is_Some_2 (imgs (self w1)) 0) as [b0 Hb0];
      [rewrite Hs1; destruct Hok; lia|].
    apply wp_bind.
    eapply wp_conseq;
      [apply (composite_spec 0 ptr1 w1 b0 Hb0);
       rewrite Hs1; apply room_0; exact Hok|].
    cbn beta. intros _ w2 (Hs2 & _ & Hi2 & Ht2 & _).
    assert (Hs2' : setup w2 = setup w)
      by (rewrite Hs2; apply setup_self; exact Hs1).
    assert (Hok2 : buffers_ok w2) by (eapply buffers_ok_setup; eauto).
    apply wp_bind.
    eapply wp_conseq;
      [apply (second_stream_calls w2 ptr2 startFrameId i Hok2)|].
    cbn beta. intros _ w3 (Hs3 & Hi3 & t3 & Ht3 & Hins3 & Hcl3).
    assert (Hs3' : setup w3 = setup w) by congruence.
    apply wp_bind.
    eapply wp_conseq;
      [apply (deliver_calls w3); eapply buffers_ok_setup; eauto|].
    cbn beta.
    intros _ w4
      (Hs4 & _ & t4 & Ht4 & Hi4 & _ & Hmd4 & Hlo4 & Hhi4 & Hcl4 & Hst4).
    assert (Hs4' : setup w4 = setup w)
      by (rewrite (setup_self _ _ Hs4); exact Hs3').
    destruct (setup_channels _ _ Hs3') as (Emax & Ech & Estop).
    fold (max_inserts w3) in Hhi4. rewrite Emax in Hhi4.
    rewrite Ech, Estop in Hst4.
    apply wp_bind. unfold advance_second, wp at 1, bind, get, ret.
    eapply wp_conseq;
      [apply (IH (i + 1) _ _ w4); eapply buffers_ok_setup; eauto|].
    cbn beta.
    intros _ w5 (Hs5 & t5 & ks & Ht5 & Hi5 & Hlen & Hks & Hins5 & Hcl5 & Hst5
                 & rounds5 & Hcc5 & Hrounds5).
    destruct (setup_channels _ _ Hs4') as (Emax4 & Ech4 & Estop4).
    rewrite Emax4 in Hks. rewrite Ech4, Estop4 in Hst5.
    split; [congruence|].
    exists ((if frame_id (frame_at ptr1) =? Int.uint64_t (startFrameId + i)
             then []
             else [LogMessage (Camera1_missed_frame
                                 (Int.uint64_t (startFrameId + 1))
                                 (frame_id (frame_at ptr1)))])
            ++ [memcpy 0 ptr1 (Int.uint32_t (Width b0 * Height b0 * Depth b0))]
            ++ t3 ++ t4 ++ t5),
           (length (inserts t4) :: ks).
    assert (Hpre : forall l,
      inserts ((if frame_id (frame_at ptr1) =? Int.uint64_t (startFrameId + i)
                then []
                else [LogMessage (Camera1_missed_frame
                                    (Int.uint64_t (startFrameId + 1))
                                    (frame_id (frame_at ptr1)))])
               ++ [memcpy 0 ptr1
                     (Int.uint32_t (Width b0 * Height b0 * Depth b0))]
               ++ t3 ++ l) = inserts l /\
      clears ((if frame_id (frame_at ptr1) =? Int.uint64_t (startFrameId + i)
               then []
               else [LogMessage (Camera1_missed_frame
                                   (Int.uint64_t (startFrameId + 1))
                                   (frame_id (frame_at ptr1)))])
              ++ [memcpy 0 ptr1
                    (Int.uint32_t (Width b0 * Height b0 * Depth b0))]
              ++ t3 ++ l) = clears l).
    { intros l. rewrite !inserts_app, !clears_app, Hins3, Hcl3.
      destruct (frame_id (frame_at ptr1) =? Int.uint64_t (startFrameId + i));
        cbn; auto. }
    destruct (Hpre (t4 ++ t5)) as (-> & ->).
    rewrite inserts_app, clears_app, length_app.
    split; [rewrite Ht5, Ht4, Ht3, Ht2, Ht1, <- !app_assoc; reflexivity|].
    split; [rewrite Hi5, Hi4, Hi3, Hi2, Hi1; lia|].
    split; [cbn; f_equal; exact Hlen|].
    split; [constructor; [lia | exact Hks]|].
    split.
    { cbn [frame_ptrs]. unfold delivered. cbn [zip_with concat].
      f_equal; [apply Forall_eq_replicate; exact Hmd4 | exact Hins5]. }
    split; [lia|].
    split.
    { intros Hstop. destruct (Hst4 Hstop) as (-> & Hn4).
      destruct (Hst5 Hstop) as (-> & Hall).
      split; [reflexivity|]. constructor; [symmetry; exact Hn4 | exact Hall]. }
    exists (core_calls t4 :: rounds5). split.
    { rewrite !core_calls_app, Hcc5, (no_core_calls t3 Hins3 Hcl3).
      destruct (frame_id (frame_at ptr1) =? Int.uint64_t (startFrameId + i));
        reflexivity. }
    cbn [frame_ptrs]. constructor.
    + unfold round_calls.
      rewrite inserts_core_calls, clears_core_calls.
      split; [exact Hmd4|]. split; [lia | exact Hcl4].
    + eapply Forall2_impl; [exact Hrounds5|]. cbn beta. intros p r Hr.
      apply (round_calls_setup w w4); [exact Emax4 | exact Hr].
Qed.

Lemma readLiveFrames_calls `{Env} w :
  cycle_ready w ->
  let n := Z.to_nat (batch_size w) in
  wp readLiveFrames w
     (fun r w' =>
        r = (DEVICE_OK, Int.int (batch_size w)) /\
        exists t ks, trace w' = trace w ++ t /\
          insert_calls w' = (insert_calls w + length (inserts t))%nat /\
          length ks = n /\
          Forall (fun k => 1 <= k <= max_inserts w)%nat ks /\
          inserts t =
            delivered ks (frame_ptrs (fst (range_of 0 w)) (stride_of 0 w) n) /\
          (clears t <= n)%nat /\
          (stopOnOverflow (self w) = true ->
           clears t = 0%nat /\ Forall (eq (channels w)) ks) /\
          exists rounds,
            core_calls t = concat rounds /\
            Forall2 (round_calls w)
              (frame_ptrs (fst (range_of 0 w)) (stride_of 0 w) n) rounds).
Proof.
  intros (Hok & Hr0 & Hst0 & Hdual) n.
  unfold readLiveFrames.
  wp_apply map_read_retry_spec.
  intros r1 w1 (-> & Hp1).
  assert (Hs1 := polled_setup _ _ _ _ Hp1).
  destruct (polled_other 0%nat 1%nat _ _ _ Hp1 ltac:(lia)) as (Hr1 & Hg1).
  destruct Hp1 as (_ & Hi1 & _ & Ht1).
  destruct (range_of 0 w) as [b1 e1] eqn:Erange0. cbn [fst snd] in *.
  rewrite (no_timeout _ Hr0).
  assert (Estride0 : stride_of 0 w = bytes_of_frame (frame_at b1))
    by (unfold stride_of; rewrite Erange0; reflexivity).
  assert (Eavail0 : available 0 w =
                    ConsumedBytes b1 e1 / bytes_of_frame (frame_at b1))
    by (unfold available; rewrite Estride0, Erange0; reflexivity).
  rewrite Estride0 in Hst0.
  apply wp_bind. unfold frames_in_range at 1.
  assert (Hst0' : bytes_of_frame (frame_at b1) <> 0) by lia.
  apply Z.eqb_neq in Hst0'. rewrite Hst0'. apply wp_ret.
  apply wp_bind. unfold wp at 1, get.
  rewrite (setup_isDual _ _ Hs1).
  unfold batch_size in *. subst n.
  assert (Hpoll0 := poll_events_no_core _
                      (poll_events_poll 0 (retries_of 0 w))).
  destruct Hpoll0 as (Pi0 & Pc0).
  assert (Pk0 := no_core_calls _ Pi0 Pc0).
  destruct (isDual (self w)) eqn:Ed.
  - destruct (Hdual eq_refl) as (Hr2 & Hst1).
    wp_apply map_read_retry_spec.
    intros r2 w2 (-> & Hp2).
    assert (Hs2 := polled_setup _ _ _ _ Hp2).
    destruct Hp2 as (_ & Hi2 & _ & Ht2).
    rewrite Hr1, Hg1.
    destruct (range_of 1 w) as [b2 e2] eqn:Erange1. cbn [fst snd] in *.
    rewrite (no_timeout _ Hr2).
    cbn [andb].
    assert (Estride1 : stride_of 1 w = bytes_of_frame (frame_at b2))
      by (unfold stride_of; rewrite Erange1; reflexivity).
    assert (Eavail1 : available 1 w =
                      ConsumedBytes b2 e2 / bytes_of_frame (frame_at b2))
      by (unfold available; rewrite Estride1, Erange1; reflexivity).
    rewrite Estride1 in Hst1.
    apply wp_bind. unfold frames_in_range at 1.
    assert (Hst1' : bytes_of_frame (frame_at b2) <> 0) by lia.
    apply Z.eqb_neq in Hst1'. rewrite Hst1'. apply wp_ret.
    rewrite <- Eavail0, <- Eavail1, <- Estride0.
    assert (Hs2' : setup w2 = setup w) by congruence.
    apply wp_bind. eapply wp_conseq.
    { apply frame_loop_calls. eapply buffers_ok_setup; [|exact Hok].
      exact Hs2'. }
    cbn beta.
    intros _ w3 (Hs3 & t3 & ks & Ht3 & Hi3 & Hlen & Hks & Hins & Hcl & Hstop
                 & rounds & Hcc & Hrounds).
    destruct (setup_channels _ _ Hs2') as (Emax & Ech & Estop).
    rewrite Emax in Hks. rewrite Ech, Estop in Hstop.
    rewrite <- Estride0 in Hins, Hrounds.
    assert (Hrounds' := Forall2_impl _ _ _ _ Hrounds
                          (fun p r => round_calls_setup w w2 p r Emax)).
    assert (Hpoll1 := poll_events_no_core _
                        (poll_events_poll 1 (retries_of 1 w))).
    destruct Hpoll1 as (Pi1 & Pc1).
    assert (Pk1 := no_core_calls _ Pi1 Pc1).
    rewrite Hr1 in Ht2.
    generalize dependent (poll_events 0 (retries_of 0 w)).
    intros P0 Ht1 Pi0 Pc0 Pk0.
    generalize dependent (poll_events 1 (retries_of 1 w)).
    intros P1 Ht2 Pi1 Pc1 Pk1.
    unfold wp, bind, do_cpx_unmap_read, emit, ret.
    destruct (negb (b2 =? 0)); cbn [self map_calls insert_calls trace];
      (split; [reflexivity|]);
      (eexists; exists ks; split;
       [rewrite Ht3, Ht2, Ht1, <- !app_assoc; reflexivity|]);
      rewrite !inserts_app, !clears_app, !core_calls_app,
        Pi0, Pi1, Pc0, Pc1, Pk0, Pk1;
      cbn [inserts clears core_calls flat_map app length Nat.add];
      rewrite ?app_nil_r, ?Nat.add_0_r;
      (split; [congruence|]); (split; [exact Hlen|]); (split; [exact Hks|]);
      (split; [exact Hins|]); (split; [exact Hcl|]);
      (split; [exact Hstop|]);
      exists rounds; (split; [exact Hcc | exact Hrounds']).
  - apply wp_bind. apply wp_ret. cbn [andb].
    apply wp_bind. apply wp_ret.
    rewrite <- Eavail0, <- Estride0.
    apply wp_bind. eapply wp_conseq.
    { apply frame_loop_calls. eapply buffers_ok_setup; [|exact Hok].
      exact Hs1. }
    cbn beta.
    intros _ w3 (Hs3 & t3 & ks & Ht3 & Hi3 & Hlen & Hks & Hins & Hcl & Hstop
                 & rounds & Hcc & Hrounds).
    destruct (setup_channels _ _ Hs1) as (Emax & Ech & Estop).
    rewrite Emax in Hks. rewrite Ech, Estop in Hstop.
    rewrite <- Estride0 in Hins, Hrounds.
    assert (Hrounds' := Forall2_impl _ _ _ _ Hrounds
                          (fun p r => round_calls_setup w w1 p r Emax)).
    generalize dependent (poll_events 0 (retries_of 0 w)).
    intros P0 Ht1 Pi0 Pc0 Pk0.
    unfold wp, bind, do_cpx_unmap_read, emit, ret.
    cbn [self map_calls insert_calls trace].
    split; [reflexivity|].
    eexists; exists ks. split; [rewrite Ht3, Ht1, <- !app_assoc; reflexivity|].
    rewrite !inserts_app, !clears_app, !core_calls_app, Pi0, Pc0, Pk0.
    cbn [inserts clears core_calls flat_map app length Nat.add].
    rewrite ?app_nil_r, ?Nat.add_0_r.
    split; [congruence|]. split; [exact Hlen|]. split; [exact Hks|].
    split; [exact Hins|]. split; [exact Hcl|]. split; [exact Hstop|].
    exists rounds. split; [exact Hcc | exact Hrounds'].
Qed.

Lemma length_delivered `{Env} c : forall n ptrs,
  length ptrs = n -> length (delivered (replicate n c) ptrs) = (n * c)%nat.
Proof.
  unfold delivered.
  induction n as [|n IH]; intros [|p ptrs] Hlen; try discriminate;
    [reflexivity|].
  cbn [replicate zip_with concat]. rewrite length_app, length_replicate.
  rewrite IH by (cbn in Hlen; lia). reflexivity.
Qed.

(** X6.  A streaming cycle that gets its frames hands them to the core in
    the order of the batch.  Its calls to the core fall into one part for
    each round of the frame loop, in order; the part of a round holds
    between one and [max_inserts] images, which all carry the frame id and
    the hardware timestamp of the frame of stream 0 read in that round
    (also the images of the second camera), and at most one
    [ClearImageBuffer]. *)
Theorem live_frames_reach_the_core_in_order `{Env} (w : World)
    (Hready : cycle_ready w) :
  let n := Z.to_nat (batch_size w) in
  let frames := frame_ptrs (fst (range_of 0 w)) (stride_of 0 w) n in
  exists w' ks rounds,
    readLiveFrames w = Done (DEVICE_OK, Int.int (batch_size w)) w' /\
    core_calls (new_events w w') = concat rounds /\
    Forall2 (round_calls w) frames rounds /\
    length ks = n /\
    Forall (fun k => 1 <= k <= max_inserts w)%nat ks /\
    inserts (new_events w w') = delivered ks frames /\
    (clears (new_events w w') <= n)%nat.
Proof.
  intros n frames.
  destruct (wp_run _ _ _ (readLiveFrames_calls w Hready))
    as (r & w' & Hrun & -> & t & ks & Ht & _ & Hlen & Hks & Hins & Hcl & _
        & rounds & Hcc & Hrounds).
  exists w', ks, rounds. rewrite (new_events_app _ _ _ Ht).
  split; [exact Hrun|]. split; [exact Hcc|]. split; [exact Hrounds|].
  split; [exact Hlen|]. split; [exact Hks|].
  split; [exact Hins | exact Hcl].
Qed.

(** X8.  With [stopOnOverflow] on, a streaming cycle that gets its frames never
    clears the core's buffer and inserts every frame of the batch exactly
    once per channel, whatever the inserts answer: the number of calls to
    [InsertImage] is the batch size times the number of channels. *)
Theorem stopOnOverflow_cycle_never_clears `{Env} (w : World)
    (Hready : cycle_ready w)
    (Hstop : stopOnOverflow (self w) = true) :
  let n := Z.to_nat (batch_size w) in
  exists w',
    readLiveFrames w = Done (DEVICE_OK, Int.int (batch_size w)) w' /\
    clears (new_events w w') = 0%nat /\
    inserts (new_events w w')
    = delivered (replicate n (channels w))
        (frame_ptrs (fst (range_of 0 w)) (stride_of 0 w) n) /\
    insert_calls w' = (insert_calls w + n * channels w)%nat.
Proof.
  intros n.
  destruct (wp_run _ _ _ (readLiveFrames_calls w Hready))
    as (r & w' & Hrun & -> & t & ks & Ht & Hi & Hlen & _ & Hins & _ & Hst
        & _).
  destruct (Hst Hstop) as (Hcl & Hall).
  apply Forall_eq_replicate in Hall. fold n in Hlen, Hins.
  rewrite Hlen in Hall. rewrite Hall in Hins.
  exists w'. rewrite (new_events_app _ _ _ Ht).
  split; [exact Hrun|]. split; [exact Hcl|]. split; [exact Hins|].
  rewrite Hi, Hins, length_delivered by apply length_frame_ptrs.
  reflexivity.
Qed.

(** C4.  In a streaming cycle that gets frames from every stream it polls,
    [readLiveFrames] finishes with [DEVICE_OK]; the number of frames it
    copies from each active stream, the number of rounds in which it gives
    images to the core, and [framesRead], is
    [min (available 0) (available 1)] with two streams and [available 0]
    with one, where [available] is the byte length of the mapped range
    divided by [bytes_of_frame].  The calls to the core fall into one part
    per round, and in every round at least one image is given to
    [InsertImage], each with the metadata found at the address of the
    round. *)
Theorem batch_size_is_min_of_available `{Env} (w : World)
    (Hready : cycle_ready w) :
  let batch := if isDual (self w)
               then Z.min (available 0 w) (available 1 w)
               else available 0 w in
  exists w' rounds,
    readLiveFrames w = Done (DEVICE_OK, Int.int batch) w' /\
    Z.of_nat (length (sources 0 (new_events w w'))) = batch /\
    (if isDual (self w)
     then Z.of_nat (length (sources 1 (new_events w w'))) = batch
     else sources 1 (new_events w w') = []) /\
    core_calls (new_events w w') = concat rounds /\
    Z.of_nat (length rounds) = batch /\
    Forall2 (round_calls w)
      (frame_ptrs (fst (range_of 0 w)) (stride_of 0 w) (Z.to_nat batch))
      rounds /\
    (batch < 2 ^ 31 -> Int.int batch = batch).
Proof.
  intros batch.
  assert (Hb := batch_size_nonneg w Hready). fold batch in Hb.
  change (if isDual (self w) then Z.min (available 0 w) (available 1 w)
          else available 0 w) with (batch_size w) in batch.
  destruct (wp_run _ _ _ (readLiveFrames_spec w Hready))
    as ([st fr] & w' & Hrun & Hr & _ & t & Ht & Hs0 & Hs1 & _).
  destruct (wp_run _ _ _ (readLiveFrames_calls w Hready))
    as (r2 & w2 & Hrun2 & _ & t2 & ks & Ht2 & _ & _ & _ & _ & _ & _
        & rounds & Hcalls & Hrounds).
  rewrite Hrun in Hrun2. injection Hrun2 as <- <-.
  assert (Et : t2 = t) by (rewrite Ht in Ht2; apply app_inv_head in Ht2;
                           congruence).
  subst t2.
  exists w', rounds.
  rewrite (new_events_app _ _ _ Ht), Hs0, Hs1, Hrun, Hr.
  rewrite length_frame_ptrs.
  split; [reflexivity|].
  split; [subst batch; lia|].
  split.
  { destruct (isDual (self w)); [rewrite length_frame_ptrs; subst batch; lia|].
    reflexivity. }
  split; [exact Hcalls|].
  split.
  { rewrite <- (Forall2_length _ _ _ Hrounds), length_frame_ptrs.
    subst batch. lia. }
  split; [exact Hrounds|].
  intros Hlt. subst batch. unfold Int.int, Int.wrap.
  rewrite Z.mod_small by lia.
  destruct (batch_size w <? 2 ^ 31) eqn:E; [reflexivity|].
  apply Z.ltb_ge in E. lia.
Qed.

(** * Channels, buffers and the current camera *)

(** X23.  [GetChannelName] and [GetImageBuffer(channel)] refuse the same
    channels: the first answers [DEVICE_NONEXISTENT_CHANNEL] exactly when
    the second returns [nullptr]. *)
Theorem GetChannelName_refuses_what_GetImageBuffer_refuses
    (w : World) (channel : Z) :
  (exists name,
     GetChannelName channel w = Done (DEVICE_NONEXISTENT_CHANNEL, name) w)
  <-> GetImageBuffer channel w = Done nullptr w.
Proof.
  unfold GetChannelName, GetImageBuffer, imgs_GetPixels, bind, get, ret.
  destruct (channel >? Int.size_t (Z.of_nat (length (imgs (self w))) - 1)).
  - split; [reflexivity | intros _; exists None; reflexivity].
  - split.
    + intros (name & Hname). discriminate.
    + destruct (multiChannel (self w));
        [destruct (imgs (self w) !! Z.to_nat channel)
        |destruct (imgs (self w) !! currentCamera (self w))];
        discriminate.
Qed.

(** X24.  With its buffers in place, every channel below
    [GetNumberOfChannels()] has a name and an image buffer: the buffer of
    the channel in multi-channel mode, the buffer of the current camera
    otherwise. *)
Theorem every_channel_has_a_name_and_a_buffer (w : World)
    (Hbuffers : (1 <= length (imgs (self w)))%nat)
    (Hsize : Z.of_nat (length (imgs (self w))) < 2 ^ 32)
    (Hcurrent : multiChannel (self w) = false ->
                (currentCamera (self w) < length (imgs (self w)))%nat) :
  exists n,
    GetNumberOfChannels w = Done n w /\ 1 <= n /\
    forall channel, 0 <= channel < n ->
      (exists name, GetChannelName channel w = Done (DEVICE_OK, Some name) w) /\
      (exists b,
         let buf := if multiChannel (self w) then Z.to_nat channel
                    else currentCamera (self w) in
         imgs (self w) !! buf = Some b /\
         GetImageBuffer channel w = Done (pixels_of buf (GetPixels b)) w).
Proof.
  assert (Hlast : Int.size_t (Z.of_nat (length (imgs (self w))) - 1)
                  = Z.of_nat (length (imgs (self w))) - 1)
    by (unfold Int.size_t, Int.wrap; apply Z.mod_small; lia).
  assert (Hcount : Int.uint32_t (Z.of_nat (length (imgs (self w))))
                   = Z.of_nat (length (imgs (self w))))
    by (unfold Int.uint32_t, Int.wrap; apply Z.mod_small; lia).
  unfold GetNumberOfChannels, GetChannelName, GetImageBuffer, imgs_GetPixels,
    bind, get, ret.
  rewrite Hlast, Hcount. eexists. split; [reflexivity|].
  destruct (multiChannel (self w)) eqn:Emulti.
  - split; [lia|]. intros channel Hc.
    replace (channel >? Z.of_nat (length (imgs (self w))) - 1) with false
      by (symmetry; rewrite Z.gtb_ltb; apply Z.ltb_ge; lia).
    split; [eexists; reflexivity|].
    destruct (lookup_lt_is_Some_2 (imgs (self w)) (Z.to_nat channel))
      as [b Hb]; [lia|].
    exists b. cbn zeta. rewrite Hb. split; reflexivity.
  - split; [lia|]. intros channel Hc.
    replace (channel >? Z.of_nat (length (imgs (self w))) - 1) with false
      by (symmetry; rewrite Z.gtb_ltb; apply Z.ltb_ge; lia).
    split; [eexists; reflexivity|].
    destruct (lookup_lt_is_Some_2 (imgs (self w)) (currentCamera (self w)))
      as [b Hb]; [apply Hcurrent; reflexivity|].
    exists b. cbn zeta. rewrite Hb. split; reflexivity.
Qed.

(** X25.  Setting the current device and reading it back: [OnDevice] never
    fails; after [AfterSet] with the value [dev], [BeforeGet] shows [dev]
    again exactly when [dev] names one of the two cameras, and the name of
    camera 2 for every value that is not the name of camera 1, which makes
    [currentCamera] 1; the name of camera 1 makes it 0. *)
Theorem OnDevice_set_then_get (w : World) (dev held : string) :
  exists w' shown,
    OnDevice dev AfterSet w = Done (DEVICE_OK, dev) w' /\
    OnDevice held BeforeGet w' = Done (DEVICE_OK, shown) w' /\
    (shown = dev <-> names_a_camera dev (self w)) /\
    (dev <> camera1 (self w) -> shown = camera2 (self w)) /\
    self w' = set_currentCamera (currentCamera (self w')) (self w) /\
    (currentCamera (self w') <= 1)%nat /\
    (dev = camera1 (self w) -> currentCamera (self w') = 0%nat) /\
    (dev <> camera1 (self w) -> currentCamera (self w') = 1%nat).
Proof.
  unfold OnDevice, names_a_camera, bind, get, ret, modify_self.
  destruct (String.eqb dev (camera1 (self w))) eqn:Edev;
    cbn [self currentCamera set_currentCamera camera1 camera2 Nat.eqb];
    do 2 eexists; (split; [reflexivity|]); (split; [reflexivity|]);
    cbn [self currentCamera set_currentCamera camera1 camera2 Nat.eqb].
  - apply String.eqb_eq in Edev.
    split; [split; [left|]; auto|]. split; [contradiction|].
    split; [reflexivity|]. split; [lia|].
    split; [reflexivity | contradiction].
  - apply String.eqb_neq in Edev.
    split; [split; [intros <-; right; reflexivity|]|].
    { intros [H1 | H2]; [contradiction | auto]. }
    split; [reflexivity|]. split; [reflexivity|]. split; [lia|].
    split; [contradiction | reflexivity].
Qed.

(** X26.  With one image buffer, setting the current device to a value that is
    not the name of camera 1 makes [currentCamera] 1, an index without a
    buffer: [GetImageBuffer()] then reads [imgs[1]] out of bounds, and so
    do, in single-channel mode, [GetImageBuffer(0)] and the delivery of a
    frame to the core. *)
Theorem OnDevice_second_camera_without_buffer `{Env} (w : World)
    (dev : string)
    (Hone : length (imgs (self w)) = 1%nat)
    (Hother : dev <> camera1 (self w)) :
  exists w',
    OnDevice dev AfterSet w = Done (DEVICE_OK, dev) w' /\
    currentCamera (self w') = 1%nat /\
    GetImageBuffer_current w' = Undefined /\
    (multiChannel (self w) = false ->
     GetImageBuffer 0 w' = Undefined /\
     forall md currentFrameId, deliver md currentFrameId w' = Undefined).
Proof.
  apply String.eqb_neq in Hother.
  assert (Hnone : imgs (self w) !! 1%nat = None)
    by (apply lookup_ge_None; lia).
  unfold OnDevice, bind, get, ret, modify_self. rewrite Hother.
  eexists. split; [reflexivity|]. split; [reflexivity|].
  split.
  - unfold GetImageBuffer_current, imgs_GetPixels, bind, get.
    cbn [self currentCamera set_currentCamera imgs]. rewrite Hnone.
    reflexivity.
  - intros Hsingle. split.
    + unfold GetImageBuffer, imgs_GetPixels, bind, get.
      cbn [self currentCamera set_currentCamera imgs multiChannel].
      rewrite Hone, Hsingle.
      change (0 >? Int.size_t (Z.of_nat 1 - 1)) with false. cbn iota beta.
      cbn [self set_currentCamera imgs]. rewrite Hnone. reflexivity.
    + intros md currentFrameId.
      unfold deliver, bind at 1, get at 1.
      cbn [self set_currentCamera multiChannel]. rewrite Hsingle.
      unfold insert_current, bind at 1, get at 1.
      cbn [self set_currentCamera currentCamera].
      unfold bind at 1, do_InsertImage at 1.
      cbn [self set_currentCamera imgs]. rewrite Hnone. reflexivity.
Qed.

(** X20.  A rejected selection is stored all the same: [Initialize] returns
    [ERR_INVALID_CAMERA_SELECTION] after it has overwritten [camera1],
    [camera2] and [multiChannel]; the camera stays uninitialised, no call
    is made and the rest of the method is not run. *)
Theorem Initialize_rejection_stores_the_selection `{Env}
    (c1 c2 : string) (rest : M Status) (w : World)
    (Hfresh : initialized_ (self w) = false)
    (Hrejected : rejected_selection c1 c2 = true) :
  exists w',
    Initialize c1 c2 rest w = Done ERR_INVALID_CAMERA_SELECTION w' /\
    self w' = set_selection (isDual (self w)) c1 c2 (self w) /\
    initialized_ (self w') = false /\
    trace w' = trace w.
Proof.
  unfold rejected_selection in Hrejected.
  unfold Initialize, bind, get, modify_self, ret. rewrite Hfresh.
  cbn [self camera1 camera2 set_selection].
  destruct (String.eqb c1 c2);
    [eexists; repeat split; cbn; auto|].
  destruct (String.eqb c1 g_Camera_None);
    [eexists; repeat split; cbn; auto|].
  cbn [orb] in Hrejected.
  apply andb_true_iff in Hrejected. destruct Hrejected as (Hr1 & Hr3).
  apply andb_true_iff in Hr1. destruct Hr1 as (Hr1 & Hr2).
  rewrite Hr1, Hr2, Hr3. cbn [andb].
  eexists. repeat split; cbn; auto.
Qed.

(** X21.  [setupBuffers], called with [isDual()] as [Initialize] and the
    parameterless [setupBuffers()] do, replaces whatever buffers there were
    by one buffer, or two with two cameras, of the geometry asked for, each
    with a pixel area of [width * height * depth] bytes; these are the
    buffers a streaming cycle indexes, unless the current camera of
    single-channel mode is not camera 1. *)
Theorem setupBuffers_prepares_the_cycle (w : World) (width height depth : Z)
    (Hgeometry : 0 <= width * height * depth)
    (Hcurrent : multiChannel (self w) = false ->
                currentCamera (self w) = 0%nat) :
  exists w',
    setupBuffers width height depth (isDual (self w)) w = Done tt w' /\
    geometry (self w')
    = replicate (if isDual (self w) then 2%nat else 1%nat)
                (width, height, depth) /\
    Forall (fun b => Z.of_nat (length (GetPixels b))
                     = Width b * Height b * Depth b) (imgs (self w')) /\
    buffers_ok w' /\
    trace w' = trace w.
Proof.
  assert (Hlen : Z.of_nat (length (GetPixels
                   (Resize width height depth empty_ImgBuffer)))
                 = width * height * depth)
    by (cbn [Resize GetPixels]; rewrite repeat_length; lia).
  assert (Hroom : forall bytes area,
            (frame_bytes (Resize width height depth empty_ImgBuffer),
             Z.of_nat (length (GetPixels
                                 (Resize width height depth empty_ImgBuffer))))
            = (bytes, area) -> bytes <= area).
  { assert (Hfit : frame_bytes (Resize width height depth empty_ImgBuffer)
                     <= Z.of_nat (length (GetPixels
                          (Resize width height depth empty_ImgBuffer)))).
    { rewrite Hlen. unfold frame_bytes, Int.uint32_t, Int.wrap.
      cbn [Resize Width Height Depth]. apply Z.mod_le; lia. }
    intros bytes area E. injection E as <- <-. exact Hfit. }
  unfold setupBuffers, modify_self, buffers_ok, has_room, areas, geometry.
  eexists. split; [reflexivity|].
  cbn [self imgs set_imgs isDual multiChannel currentCamera trace].
  destruct (isDual (self w)); cbn [map replicate length].
  - split; [reflexivity|]. split; [repeat constructor; exact Hlen|].
    split; [|reflexivity].
    split; [lia|]. split; [lia|].
    split; [intros Hm; rewrite (Hcurrent Hm); lia|].
    split.
    + intros bytes area Hl. apply Hroom.
      apply list_elem_of_lookup_2 in Hl.
      rewrite ?elem_of_cons, ?elem_of_nil in Hl. intuition congruence.
    + intros _ bytes area Hl. apply Hroom.
      apply list_elem_of_lookup_2 in Hl.
      rewrite ?elem_of_cons, ?elem_of_nil in Hl. intuition congruence.
  - split; [reflexivity|]. split; [repeat constructor; exact Hlen|].
    split; [|reflexivity].
    split; [lia|]. split; [discriminate|].
    split; [intros Hm; rewrite (Hcurrent Hm); lia|].
    split.
    + intros bytes area Hl. apply Hroom.
      apply list_elem_of_lookup_2 in Hl.
      rewrite ?elem_of_cons, ?elem_of_nil in Hl. intuition congruence.
    + discriminate.
Qed.

(** X27.  Frames of one size, walked with the helper [next] (which
    [readLiveFrames] does not use), are contiguous: from the start of a
    range of [n] frames of [stride] bytes, [next] visits the addresses
    [beg + i * stride]. *)
Theorem next_walks_contiguous_frames `{Env} (stride : Z) (n : nat) :
  forall (beg : Z)
    (Hbeg : 0 <= beg) (Hstride : 0 <= stride)
    (Hfits : beg + Z.of_nat n * stride < 2 ^ 64)
    (Huniform : forall j, (j < n)%nat ->
       bytes_of_frame (frame_at (beg + Z.of_nat j * stride)) = stride),
  next_frames beg n = contiguous_frames beg stride n.
Proof.
  unfold contiguous_frames.
  induction n as [|n IH]; intros beg Hbeg Hstride Hfits Huniform;
    [reflexivity|].
  cbn [next_frames seq map]. f_equal; [lia|].
  assert (Hnext : next beg = beg + stride).
  { assert (H0 := Huniform 0%nat ltac:(lia)).
    replace (beg + Z.of_nat 0 * stride) with beg in H0 by lia.
    unfold next. rewrite H0. unfold Int.size_t, Int.wrap.
    apply Z.mod_small. nia. }
  rewrite Hnext, IH; [|lia|lia|nia|].
  - rewrite <- seq_shift, map_map. apply map_ext. intros i. lia.
  - intros j Hj.
    replace (beg + stride + Z.of_nat j * stride)
      with (beg + Z.of_nat (S j) * stride) by lia.
    apply Huniform. lia.
Qed.

(** C10.  For a valid channel in single-channel mode [GetImageBuffer] can
    read out of bounds.  With one camera and one image buffer, setting the
    current device to [None], the other value the property allows, makes
    [currentCamera] 1; [GetImageBuffer(0)] then passes the check of the
    channel, [0 > imgs.size() - 1] being false, and reads [imgs[1]] in a
    vector of one buffer. *)
Theorem GetImageBuffer_of_the_current_camera_out_of_bounds :
  let w := fresh (example_camera false false) in
  exists w',
    OnDevice "None" AfterSet w = Done (DEVICE_OK, "None"%string) w' /\
    length (imgs (self w')) = 1%nat /\
    multiChannel (self w') = false /\
    currentCamera (self w') = 1%nat /\
    (0 >? Int.size_t (Z.of_nat (length (imgs (self w'))) - 1)) = false /\
    GetImageBuffer 0 w' = Undefined.
Proof.
  intros w. eexists. split; [vm_compute; reflexivity|].
  repeat split.
Qed.

(** * Starting an acquisition: the ways to fail *)

Lemma StartSequenceAcquisition_run `{Env} w numImages interval_ms stop :
  exists r w' t,
    StartSequenceAcquisition numImages interval_ms stop w = Done r w' /\
    trace w' = trace w ++ t /\
    ((liveThread_IsActive (self w) = true /\
      r = DEVICE_CAMERA_BUSY_ACQUIRING /\ t = [] /\ w' = w) \/
     (liveThread_IsActive (self w) = false /\
      PrepareForAcq_result <> DEVICE_OK /\
      r = PrepareForAcq_result /\ t = [PrepareForAcq] /\ self w' = self w) \/
     (liveThread_IsActive (self w) = false /\
      PrepareForAcq_result = DEVICE_OK /\
      cpx_configure_result <> DEVICE_OK /\
      r = ERR_CPX_CONFIURE_FAILED /\
      t = [PrepareForAcq; cpx_configure (sequence_props numImages);
           LogMessage cpx_configure_failed] /\
      self w' = self w) \/
     (liveThread_IsActive (self w) = false /\
      PrepareForAcq_result = DEVICE_OK /\
      cpx_configure_result = DEVICE_OK /\
      cpx_start_result <> DEVICE_OK /\
      r = cpx_start_result /\
      t = [PrepareForAcq; cpx_configure (sequence_props numImages);
           cpx_start] /\
      self w' = self w) \/
     (liveThread_IsActive (self w) = false /\
      PrepareForAcq_result = DEVICE_OK /\
      cpx_configure_result = DEVICE_OK /\
      cpx_start_result = DEVICE_OK /\
      r = DEVICE_OK /\
      t = [PrepareForAcq; cpx_configure (sequence_props numImages);
           cpx_start; LogMessage Started_sequence_acquisition;
           liveThread_Start numImages interval_ms] /\
      self w' = set_active true (set_stopOnOverflow stop (self w)))).
Proof.
  unfold StartSequenceAcquisition, bind, get, emit, do_LogMessage,
    do_liveThread_Start, modify_self, ret, bind, emit, modify_self.
  fold (sequence_props numImages).
  destruct (liveThread_IsActive (self w)) eqn:Eactive.
  { exists DEVICE_CAMERA_BUSY_ACQUIRING, w, [].
    rewrite app_nil_r. split; [reflexivity|]. split; [reflexivity|].
    left. repeat split. }
  cbn [self map_calls insert_calls trace].
  destruct (decide (PrepareForAcq_result = DEVICE_OK)) as [Hp | Hp].
  2: { rewrite (bool_decide_eq_false_2 _ Hp). cbn [negb].
       do 3 eexists. split; [reflexivity|]. cbn [trace self].
       split; [reflexivity|]. right; left. repeat split. exact Hp. }
  rewrite (bool_decide_eq_true_2 _ Hp). cbn [negb].
  cbn [self map_calls insert_calls trace].
  destruct (decide (cpx_configure_result = DEVICE_OK)) as [Hc | Hc].
  2: { rewrite (bool_decide_eq_false_2 _ Hc). cbn [negb].
       do 3 eexists. split; [reflexivity|]. cbn [trace self].
       rewrite <- !app_assoc. split; [reflexivity|].
       right; right; left. repeat split; assumption. }
  rewrite (bool_decide_eq_true_2 _ Hc). cbn [negb].
  cbn [self map_calls insert_calls trace].
  destruct (decide (cpx_start_result = DEVICE_OK)) as [Hs | Hs].
  2: { rewrite (bool_decide_eq_false_2 _ Hs). cbn [negb].
       do 3 eexists. split; [reflexivity|]. cbn [trace self].
       rewrite <- !app_assoc. split; [reflexivity|].
       right; right; right; left. repeat split; assumption. }
  rewrite (bool_decide_eq_true_2 _ Hs). cbn [negb].
  cbn [self map_calls insert_calls trace].
  do 3 eexists. split; [reflexivity|]. cbn [trace self].
  rewrite <- !app_assoc. split; [reflexivity|].
  right; right; right; right. repeat split; assumption.
Qed.


(** X18.  [StartSequenceAcquisition] stops at the first step that fails: a
    camera that is capturing is refused before any call; a failed
    [PrepareForAcq] is returned before the driver is configured; a failed
    [cpx_configure] gives [ERR_CPX_CONFIURE_FAILED], whatever the driver's
    code, before [cpx_start]; a failed [cpx_start] gives the driver's
    code. *)
Theorem StartSequenceAcquisition_stops_at_the_first_failure `{Env}
    (w : World) (numImages : Z) (interval_ms : double) (stop : bool) :
  exists r w',
    StartSequenceAcquisition numImages interval_ms stop w = Done r w' /\
    (liveThread_IsActive (self w) = true ->
     r = DEVICE_CAMERA_BUSY_ACQUIRING /\ w' = w) /\
    (liveThread_IsActive (self w) = false ->
     PrepareForAcq_result <> DEVICE_OK ->
     r = PrepareForAcq_result /\ new_events w w' = [PrepareForAcq]) /\
    (liveThread_IsActive (self w) = false ->
     PrepareForAcq_result = DEVICE_OK ->
     cpx_configure_result <> DEVICE_OK ->
     r = ERR_CPX_CONFIURE_FAILED /\
     new_events w w'
     = [PrepareForAcq; cpx_configure (sequence_props numImages);
        LogMessage cpx_configure_failed]) /\
    (liveThread_IsActive (self w) = false ->
     PrepareForAcq_result = DEVICE_OK ->
     cpx_configure_result = DEVICE_OK ->
     cpx_start_result <> DEVICE_OK ->
     r = cpx_start_result /\
     new_events w w'
     = [PrepareForAcq; cpx_configure (sequence_props numImages);
        cpx_start]).
Proof.
  destruct (StartSequenceAcquisition_run w numImages interval_ms stop)
    as (r & w' & t & Hrun & Ht & Hcases).
  exists r, w'. rewrite (new_events_app _ _ _ Ht).
  split; [exact Hrun|].
  destruct Hcases as [(Ha & -> & -> & ->)
    | [(Ha & Hp & -> & -> & _)
    | [(Ha & Hp & Hc & -> & -> & _)
    | [(Ha & Hp & Hc & Hs & -> & -> & _)
    | (Ha & Hp & Hc & Hs & -> & -> & _)]]]];
    repeat split; intros; try reflexivity; try congruence; contradiction.
Qed.

(** * [SnapImage] *)

Lemma snap_stream_total `{Env} s w :
  (s < length (imgs (self w)))%nat ->
  snap_fits s w ->
  wp (snap_stream s) w
     (fun r w' =>
        (r = ERR_TIMEOUT /\ stream_starves s w \/
         r = DEVICE_OK /\ ~ stream_starves s w) /\
        length (imgs (self w')) = length (imgs (self w)) /\
        (forall s', s' <> s ->
                    map_calls w' s' = map_calls w s' /\
                    imgs (self w') !! s' = imgs (self w) !! s') /\
        exists t, trace w' = trace w ++ t).
Proof.
  intros Hs Hfit.
  assert (Hle := empty_run_le (map_script s) (Z.to_nat maxRetries)
                   (map_calls w s)).
  fold (retries_of s w) in Hle.
  apply Nat.le_lteq in Hle. destruct Hle as [Hlt | Heq].
  - destruct (lookup_lt_is_Some_2 (imgs (self w)) s Hs) as [b Hb].
    eapply wp_conseq; [apply (snap_stream_copies s w b Hb Hlt (Hfit b Hb))|].
    cbn beta. intros r w' (-> & Hself & Hcalls & t & Ht & _).
    split.
    { right. split; [reflexivity|]. intros Hstarves.
      apply stream_starves_retries in Hstarves.
      rewrite Hstarves in Hlt. apply Nat.lt_irrefl in Hlt. exact Hlt. }
    rewrite Hself. cbn [imgs set_imgs].
    split; [apply length_insert|].
    split; [|exists t; exact Ht].
    intros s' Hne. split; [apply Hcalls; exact Hne|].
    apply list_lookup_insert_ne. congruence.
  - unfold snap_stream. wp_apply map_read_retry_spec.
    intros r1 w1 (-> & Hs1 & _ & Hm1 & Ht1).
    destruct (range_of s w) as [beg end_].
    rewrite (timed_out _ Heq). apply wp_ret.
    apply stream_starves_retries in Heq.
    split; [left; split; [reflexivity | exact Heq]|].
    rewrite Hs1. split; [reflexivity|].
    split; [|eexists; exact Ht1].
    intros s' Hne. split; [|reflexivity].
    rewrite Hm1. apply Nat.eqb_neq in Hne. rewrite Hne. reflexivity.
Qed.

Lemma stream_starves_same_calls `{Env} s w w' :
  map_calls w' s = map_calls w s ->
  stream_starves s w' <-> stream_starves s w.
Proof. unfold stream_starves. intros ->. reflexivity. Qed.

Lemma readSnapImageFrames_total `{Env} w :
  (1 <= length (imgs (self w)))%nat ->
  snap_fits 0 w -> snap_fits 1 w ->
  wp readSnapImageFrames w
     (fun r w' =>
        (r = ERR_TIMEOUT /\
         (stream_starves 0 w \/
          (1 < length (imgs (self w)))%nat /\ stream_starves 1 w) \/
         r = DEVICE_OK /\ ~ stream_starves 0 w /\
         ((1 < length (imgs (self w)))%nat -> ~ stream_starves 1 w)) /\
        exists t, trace w' = trace w ++ t).
Proof.
  intros Hone Hfit0 Hfit1. unfold readSnapImageFrames.
  wp_apply (snap_stream_total 0 w ltac:(lia) Hfit0).
  intros r w1 ([(-> & Hstarves) | (-> & Hfed)] & Hlen & Hother & t1 & Ht1).
  - apply wp_ret. split; [left; split; [reflexivity | left; exact Hstarves]|].
    exists t1. exact Ht1.
  - destruct (Hother 1%nat ltac:(lia)) as (Hcalls1 & Himgs1).
    apply wp_bind. unfold wp at 1, get. rewrite Hlen.
    destruct (1 <? Z.of_nat (length (imgs (self w)))) eqn:Etwo.
    + apply Z.ltb_lt in Etwo.
      assert (Hfit1' : snap_fits 1 w1).
      { intros b Hb. rewrite Himgs1 in Hb.
        unfold snap_bytes, first_frame.
        rewrite (range_of_same_calls 1 w w1 Hcalls1).
        apply (Hfit1 b Hb). }
      eapply wp_conseq; [apply (snap_stream_total 1 w1); [lia | exact Hfit1']|].
      cbn beta.
      intros r w2 ([(-> & Hstarves1) | (-> & Hfed1)] & _ & _ & t2 & Ht2).
      * apply (stream_starves_same_calls 1 w w1 Hcalls1) in Hstarves1.
        split; [left; split; [reflexivity|]; right; split; [lia|];
                exact Hstarves1|].
        exists (t1 ++ t2). rewrite Ht2, Ht1, app_assoc. reflexivity.
      * split.
        { right. split; [reflexivity|]. split; [exact Hfed|].
          intros _ Hst. apply Hfed1.
          apply (stream_starves_same_calls 1 w w1 Hcalls1). exact Hst. }
        exists (t1 ++ t2). rewrite Ht2, Ht1, app_assoc. reflexivity.
    + apply wp_ret. apply Z.ltb_ge in Etwo.
      split; [|exists t1; exact Ht1].
      right. split; [reflexivity|]. split; [exact Hfed|]. intros Hlt. lia.
Qed.



(** X16.  When the driver is configured and started, there is an image
    buffer and the frames a snap copies fit their buffers, [SnapImage] gets
    through [readSnapImageFrames], whose status is [ERR_TIMEOUT] exactly
    when stream 0 or, with two buffers, stream 1 stays empty, and
    [DEVICE_OK] otherwise; then it calls [cpx_stop] once, in the state the
    read left, also after a timeout, and returns the status of the read. *)
Theorem SnapImage_stops_the_driver_after_the_read `{Env} (w : World)
    (Hconfigure : cpx_configure_result = DEVICE_OK)
    (Hstart : cpx_start_result = DEVICE_OK)
    (Hbuffers : (1 <= length (imgs (self w)))%nat)
    (Hfits0 : snap_fits 0 w)
    (Hfits1 : snap_fits 1 w) :
  exists r w1 t,
    readSnapImageFrames
      (after_calls [cpx_configure (single_frame_props (self w)); cpx_start] w)
    = Done r w1 /\
    trace w1
    = trace w ++ [cpx_configure (single_frame_props (self w)); cpx_start]
      ++ t /\
    (r = ERR_TIMEOUT /\
     (stream_starves 0 w \/
      (1 < length (imgs (self w)))%nat /\ stream_starves 1 w) \/
     r = DEVICE_OK /\ ~ stream_starves 0 w /\
     ((1 < length (imgs (self w)))%nat -> ~ stream_starves 1 w)) /\
    forall cpx_stop,
      SnapImage cpx_stop w = (cpx_stop ;; ret (returned r)) w1.
Proof.
  pose (w0 := after_calls
                [cpx_configure (single_frame_props (self w)); cpx_start] w).
  destruct (wp_run _ _ _ (readSnapImageFrames_total w0 Hbuffers Hfits0 Hfits1))
    as (r & w1 & Hrun & Hr & t & Ht).
  exists r, w1, t. split; [exact Hrun|].
  split; [rewrite Ht; unfold w0, after_calls; cbn [trace];
          rewrite <- app_assoc; reflexivity|].
  split; [exact Hr|].
  intros cpx_stop.
  unfold SnapImage, bind at 1, get at 1.
  unfold bind at 1, emit at 1.
  rewrite (bool_decide_eq_true_2 _ Hconfigure). cbn [negb].
  unfold bind at 1, emit at 1. cbn [self map_calls insert_calls trace].
  rewrite (bool_decide_eq_true_2 _ Hstart). cbn [negb].
  rewrite <- app_assoc. cbn [app].
  unfold bind at 1. fold w0 in Hrun. unfold w0, after_calls in Hrun.
  rewrite Hrun. reflexivity.
Qed.

(** * The images a streaming cycle gives to the core *)

Lemma frame_bytes_nonneg b : 0 <= frame_bytes b.
Proof.
  unfold frame_bytes, Int.uint32_t, Int.wrap. apply Z.mod_pos_bound. lia.
Qed.

Lemma holds_frame_copy `{Env} ptr b :
  frame_bytes b <= Z.of_nat (length (GetPixels b)) ->
  holds_frame ptr (copy_pixels (read_data ptr (frame_bytes b)) b).
Proof.
  intros Hfit. assert (Hpos := frame_bytes_nonneg b).
  unfold holds_frame.
  change (frame_bytes (copy_pixels (read_data ptr (frame_bytes b)) b))
    with (frame_bytes b).
  rewrite copy_pixels_fits by (rewrite length_read_data; lia).
  destruct (read_data_payload ptr (frame_bytes b)) as (rest & ->).
  rewrite <- app_assoc. eexists. reflexivity.
Qed.

Lemma no_inserts_images `{Env} dual ptrs1 ptrs2 t :
  inserts t = [] -> Forall (image_of_batch dual ptrs1 ptrs2) t.
Proof.
  induction t as [|e t IH]; intros Hnone; [constructor|].
  destruct e; cbn in Hnone; try discriminate;
    (constructor; [exact I | apply IH; exact Hnone]).
Qed.

Lemma image_of_batch_later `{Env} dual p1 p2 ptrs1 ptrs2 e :
  image_of_batch dual ptrs1 ptrs2 e ->
  image_of_batch dual (p1 :: ptrs1) (p2 :: ptrs2) e.
Proof.
  destruct e; cbn; auto.
  intros (j & q1 & Hj & Hmd & H0 & H1).
  exists (S j), q1. cbn. repeat split; assumption.
Qed.

Lemma image_of_batch_single `{Env} ptrs1 ptrs2 ptrs2' e :
  image_of_batch false ptrs1 ptrs2 e -> image_of_batch false ptrs1 ptrs2' e.
Proof.
  destruct e; cbn; auto.
  intros (j & q1 & Hj & Hmd & H0 & _).
  exists j, q1. repeat split; try assumption. discriminate.
Qed.

Lemma multi_channel_calls_images stop answers md fid all bufs :
  forall k bufNum,
  (forall i b, bufs !! i = Some b -> all !! (bufNum + i)%nat = Some b) ->
  Forall (image_of_delivery all md)
         (multi_channel_calls stop answers k bufs bufNum md fid).
Proof.
  induction bufs as [|b rest IH]; intros k bufNum Hall; [constructor|].
  cbn [multi_channel_calls app].
  constructor.
  { cbn. split; [reflexivity|].
    rewrite <- (Nat.add_0_r bufNum). apply Hall. reflexivity. }
  constructor; [exact I|].
  destruct (negb stop && bool_decide (answers k = DEVICE_BUFFER_OVERFLOW)).
  - repeat constructor.
  - apply IH. intros i b' Hb'.
    replace (S bufNum + i)%nat with (bufNum + S i)%nat by lia.
    apply Hall. exact Hb'.
Qed.

Lemma deliver_images `{Env} w md fid :
  buffers_ok w ->
  wp (deliver md fid) w
     (fun _ w' =>
        self w' = self w /\
        exists t, trace w' = trace w ++ t /\
                  Forall (image_of_delivery (imgs (self w)) md) t).
Proof.
  intros (Hone & _ & Hcur & _). unfold deliver.
  apply wp_bind. unfold wp at 1, get.
  destruct (multiChannel (self w)) eqn:Emc.
  - eapply wp_conseq; [apply insert_channels_exact; lia|].
    cbn beta zeta. intros _ w' (H1 & _ & H3 & _).
    split; [exact H1|]. eexists. split; [exact H3|].
    rewrite drop_0. apply multi_channel_calls_images.
    intros i b Hb. exact Hb.
  - destruct (lookup_lt_is_Some_2 (imgs (self w)) (currentCamera (self w)))
      as [b Hb]; [specialize (Hcur eq_refl); lia|].
    eapply wp_conseq; [apply (insert_current_spec md fid w b Hb)|].
    cbn beta. intros _ w' (H1 & _ & H3 & _).
    split; [exact H1|]. eexists. split; [exact H3|].
    unfold single_channel_calls.
    destruct (negb (stopOnOverflow (self w)) &&
              bool_decide (insert_script (insert_calls w)
                           = DEVICE_BUFFER_OVERFLOW));
      repeat constructor; cbn; auto.
Qed.

Lemma second_stream_images `{Env} w ptr2 startFrameId i :
  buffers_ok w ->
  wp (second_stream ptr2 startFrameId i) w
     (fun _ w' =>
        setup w' = setup w /\
        (exists t, trace w' = trace w ++ t /\ inserts t = []) /\
        imgs (self w') !! 0%nat = imgs (self w) !! 0%nat /\
        (isDual (self w) = true ->
         forall img, imgs (self w') !! 1%nat = Some img ->
                     holds_frame ptr2 img)).
Proof.
  intros (_ & Hdual & _ & _ & Hroom1). unfold second_stream.
  apply wp_bind. unfold wp at 1, get.
  destruct (isDual (self w)) eqn:Ed.
  - destruct (lookup_lt_is_Some_2 (imgs (self w)) 1) as [b1 Hb1];
      [specialize (Hdual eq_refl); lia|].
    wp_apply check_frame_id_spec.
    intros _ w1 (Hs1 & _ & _ & Ht1).
    eapply wp_conseq;
      [apply (composite_spec 1 ptr2 w1 b1);
       [congruence | rewrite Hs1; apply Hroom1; reflexivity]|].
    cbn beta. intros _ w2 (Hs2 & _ & _ & Ht2 & Himgs).
    split; [rewrite Hs2; apply setup_self; exact Hs1|].
    split.
    { eexists. split; [rewrite Ht2, Ht1, <- app_assoc; reflexivity|].
      destruct (frame_id (frame_at ptr2) =? Int.uint64_t (startFrameId + i));
        reflexivity. }
    rewrite Himgs, Hs1. split.
    + apply list_lookup_insert_ne. discriminate.
    + intros _ img Himg.
      rewrite list_lookup_insert_eq in Himg
        by (apply lookup_lt_Some in Hb1; exact Hb1).
      injection Himg as <-. apply holds_frame_copy.
      apply (has_room_lookup (self w) 1);
        [apply Hroom1; reflexivity | exact Hb1].
  - apply wp_ret. split; [reflexivity|].
    split; [exists []; rewrite app_nil_r; split; reflexivity|].
    split; [reflexivity | discriminate].
Qed.

Lemma frame_loop_images `{Env} startFrameId beg1 beg2 left :
  forall i ptr1 ptr2 w,
  buffers_ok w ->
  wp (frame_loop left i startFrameId beg1 beg2 ptr1 ptr2) w
     (fun _ w' =>
        setup w' = setup w /\
        exists t, trace w' = trace w ++ t /\
          Forall (image_of_batch (isDual (self w))
                    (frame_ptrs ptr1 (bytes_of_frame (frame_at beg1)) left)
                    (frame_ptrs ptr2 (bytes_of_frame (frame_at beg2)) left))
                 t).
Proof.
  induction left as [|left IH]; intros i ptr1 ptr2 w Hok.
  - apply wp_ret. split; [reflexivity|].
    exists []. rewrite app_nil_r. split; [reflexivity | constructor].
  - cbn [frame_loop].
    wp_apply check_frame_id_spec.
    intros _ w1 (Hs1 & _ & _ & Ht1).
    destruct (lookup_lt_is_Some_2 (imgs (self w1)) 0) as [b0 Hb0];
      [rewrite Hs1; destruct Hok; lia|].
    apply wp_bind.
    eapply wp_conseq;
      [apply (composite_spec 0 ptr1 w1 b0 Hb0);
       rewrite Hs1; apply room_0; exact Hok|].
    cbn beta. intros _ w2 (Hs2 & _ & _ & Ht2 & Himgs2).
    assert (Hs2' : setup w2 = setup w)
      by (rewrite Hs2; apply setup_self; exact Hs1).
    assert (Hok2 : buffers_ok w2) by (eapply buffers_ok_setup; eauto).
    apply wp_bind.
    eapply wp_conseq;
      [apply (second_stream_images w2 ptr2 startFrameId i Hok2)|].
    cbn beta. intros _ w3 (Hs3 & (t3 & Ht3 & Hins3) & Himg0 & Himg1).
    assert (Hs3' : setup w3 = setup w) by congruence.
    rewrite (setup_isDual _ _ Hs2') in Himg1.
    assert (Hzero : forall img, imgs (self w3) !! 0%nat = Some img ->
                                holds_frame ptr1 img).
    { intros img Himg. rewrite Himg0, Himgs2 in Himg.
      rewrite list_lookup_insert_eq in Himg
        by (apply lookup_lt_Some in Hb0; exact Hb0).
      injection Himg as <-. apply holds_frame_copy.
      apply (has_room_lookup (self w1) 0);
        [rewrite Hs1; apply room_0; exact Hok | exact Hb0]. }
    apply wp_bind.
    eapply wp_conseq;
      [apply (deliver_images w3); eapply buffers_ok_setup; eauto|].
    cbn beta. intros _ w4 (Hs4 & t4 & Ht4 & Himages).
    assert (Hs4' : setup w4 = setup w)
      by (rewrite (setup_self _ _ Hs4); exact Hs3').
    apply wp_bind. unfold advance_second, wp at 1, bind, get, ret.
    rewrite (setup_isDual _ _ Hs4').
    eapply wp_conseq;
      [apply (IH (i + 1) _ _ w4); eapply buffers_ok_setup; eauto|].
    cbn beta. intros _ w5 (Hs5 & t5 & Ht5 & Hrest).
    rewrite (setup_isDual _ _ Hs4') in Hrest.
    split; [congruence|].
    eexists. split.
    { rewrite Ht5, Ht4, Ht3, Ht2, Ht1, <- !app_assoc. reflexivity. }
    cbn [frame_ptrs].
    apply Forall_app. split.
    { apply no_inserts_images.
      destruct (frame_id (frame_at ptr1) =? Int.uint64_t (startFrameId + i));
        reflexivity. }
    change (memcpy 0 ptr1 (Int.uint32_t (Width b0 * Height b0 * Depth b0))
            :: t3 ++ t4 ++ t5)
      with ([memcpy 0 ptr1 (Int.uint32_t (Width b0 * Height b0 * Depth b0))]
            ++ t3 ++ t4 ++ t5).
    apply Forall_app. split; [apply no_inserts_images; reflexivity|].
    apply Forall_app. split; [apply no_inserts_images; exact Hins3|].
    apply Forall_app. split.
    + eapply Forall_impl; [exact Himages|]. cbn beta.
      intros e He. destruct e; try exact I. cbn in He |- *.
      destruct He as (-> & Hbuf).
      exists 0%nat, ptr1. split; [reflexivity|]. split; [reflexivity|].
      split.
      * intros ->. apply Hzero. exact Hbuf.
      * intros -> Hdual. exists ptr2. split; [reflexivity|].
        apply (Himg1 Hdual). exact Hbuf.
    + eapply Forall_impl; [exact Hrest|]. cbn beta. intros e He.
      destruct (isDual (self w)).
      * apply image_of_batch_later. exact He.
      * apply image_of_batch_later.
        eapply image_of_batch_single. exact He.
Qed.

Lemma unmap_events_images `{Env} dual ptrs1 ptrs2 s n :
  Forall (image_of_batch dual ptrs1 ptrs2) [cpx_unmap_read s n].
Proof. repeat constructor. Qed.

Lemma readLiveFrames_images `{Env} w :
  cycle_ready w ->
  let n := Z.to_nat (batch_size w) in
  wp readLiveFrames w
     (fun r w' =>
        r = (DEVICE_OK, Int.int (batch_size w)) /\
        exists t, trace w' = trace w ++ t /\
          Forall (image_of_batch (isDual (self w))
                    (frame_ptrs (fst (range_of 0 w)) (stride_of 0 w) n)
                    (frame_ptrs (fst (range_of 1 w)) (stride_of 1 w) n))
                 t).
Proof.
  intros (Hok & Hr0 & Hst0 & Hdual) n.
  unfold readLiveFrames.
  wp_apply map_read_retry_spec.
  intros r1 w1 (-> & Hp1).
  assert (Hs1 := polled_setup _ _ _ _ Hp1).
  destruct (polled_other 0%nat 1%nat _ _ _ Hp1 ltac:(lia)) as (Hr1 & Hg1).
  destruct Hp1 as (_ & _ & _ & Ht1).
  destruct (range_of 0 w) as [b1 e1] eqn:Erange0. cbn [fst snd] in *.
  rewrite (no_timeout _ Hr0).
  assert (Estride0 : stride_of 0 w = bytes_of_frame (frame_at b1))
    by (unfold stride_of; rewrite Erange0; reflexivity).
  assert (Eavail0 : available 0 w =
                    ConsumedBytes b1 e1 / bytes_of_frame (frame_at b1))
    by (unfold available; rewrite Estride0, Erange0; reflexivity).
  rewrite Estride0 in Hst0.
  apply wp_bind. unfold frames_in_range at 1.
  assert (Hst0' : bytes_of_frame (frame_at b1) <> 0) by lia.
  apply Z.eqb_neq in Hst0'. rewrite Hst0'. apply wp_ret.
  apply wp_bind. unfold wp at 1, get.
  rewrite (setup_isDual _ _ Hs1).
  unfold batch_size in *. subst n.
  assert (Pi0 := proj1 (poll_events_no_core _
                          (poll_events_poll 0 (retries_of 0 w)))).
  destruct (isDual (self w)) eqn:Ed.
  - destruct (Hdual eq_refl) as (Hr2 & Hst1).
    wp_apply map_read_retry_spec.
    intros r2 w2 (-> & Hp2).
    assert (Hs2 := polled_setup _ _ _ _ Hp2).
    destruct Hp2 as (_ & _ & _ & Ht2).
    rewrite Hr1, Hg1.
    destruct (range_of 1 w) as [b2 e2] eqn:Erange1. cbn [fst snd] in *.
    rewrite (no_timeout _ Hr2).
    cbn [andb].
    assert (Estride1 : stride_of 1 w = bytes_of_frame (frame_at b2))
      by (unfold stride_of; rewrite Erange1; reflexivity).
    assert (Eavail1 : available 1 w =
                      ConsumedBytes b2 e2 / bytes_of_frame (frame_at b2))
      by (unfold available; rewrite Estride1, Erange1; reflexivity).
    rewrite Estride1 in Hst1.
    apply wp_bind. unfold frames_in_range at 1.
    assert (Hst1' : bytes_of_frame (frame_at b2) <> 0) by lia.
    apply Z.eqb_neq in Hst1'. rewrite Hst1'. apply wp_ret.
    rewrite <- Eavail0, <- Eavail1.
    assert (Hs2' : setup w2 = setup w) by congruence.
    apply wp_bind. eapply wp_conseq.
    { apply frame_loop_images. eapply buffers_ok_setup; [|exact Hok].
      exact Hs2'. }
    cbn beta. intros _ w3 (Hs3 & t3 & Ht3 & Himages).
    rewrite (setup_isDual _ _ Hs2'), Ed in Himages.
    rewrite <- Estride0, <- Estride1 in Himages.
    assert (Pi1 := proj1 (poll_events_no_core _
                            (poll_events_poll 1 (retries_of 1 w)))).
    rewrite Hr1 in Ht2.
    generalize dependent (poll_events 0 (retries_of 0 w)). intros P0 Ht1 Pi0.
    generalize dependent (poll_events 1 (retries_of 1 w)). intros P1 Ht2 Pi1.
    unfold wp, bind, do_cpx_unmap_read, emit, ret.
    destruct (negb (b2 =? 0)); cbn [self map_calls insert_calls trace];
      (split; [reflexivity|]);
      (eexists; split;
       [rewrite Ht3, Ht2, Ht1, <- !app_assoc; reflexivity|]);
      repeat (apply Forall_app; split);
      try (apply no_inserts_images; assumption);
      try exact Himages; try apply unmap_events_images; constructor.
  - apply wp_bind. apply wp_ret. cbn [andb].
    apply wp_bind. apply wp_ret.
    rewrite <- Eavail0.
    apply wp_bind. eapply wp_conseq.
    { apply frame_loop_images. eapply buffers_ok_setup; [|exact Hok].
      exact Hs1. }
    cbn beta. intros _ w3 (Hs3 & t3 & Ht3 & Himages).
    rewrite (setup_isDual _ _ Hs1), Ed in Himages.
    rewrite <- Estride0 in Himages.
    generalize dependent (poll_events 0 (retries_of 0 w)). intros P0 Ht1 Pi0.
    unfold wp, bind, do_cpx_unmap_read, emit, ret.
    cbn [self map_calls insert_calls trace].
    split; [reflexivity|].
    eexists. split; [rewrite Ht3, Ht1, <- !app_assoc; reflexivity|].
    repeat (apply Forall_app; split);
      try (apply no_inserts_images; assumption);
      try (eapply Forall_impl; [exact Himages|]; cbn beta; intros e He;
           eapply image_of_batch_single; exact He);
      try apply unmap_events_images; constructor.
Qed.

(** X7.  Every image a streaming cycle gives to the core belongs to one
    round of the batch: it carries the frame id and the hardware timestamp
    of the frame of stream 0 that round read; an image from buffer 0 starts
    with the payload of that frame, [Width * Height * Depth] bytes of it,
    and with two cameras an image from buffer 1 starts with the payload of
    the frame of stream 1 read in the same round, under the metadata of
    the frame of stream 0. *)
Theorem live_images_hold_the_frames_of_their_round `{Env} (w : World)
    (Hready : cycle_ready w) :
  let n := Z.to_nat (batch_size w) in
  exists w',
    readLiveFrames w = Done (DEVICE_OK, Int.int (batch_size w)) w' /\
    Forall (image_of_batch (isDual (self w))
              (frame_ptrs (fst (range_of 0 w)) (stride_of 0 w) n)
              (frame_ptrs (fst (range_of 1 w)) (stride_of 1 w) n))
           (new_events w w').
Proof.
  intros n.
  destruct (wp_run _ _ _ (readLiveFrames_images w Hready))
    as (r & w' & Hrun & -> & t & Ht & Himages).
  exists w'. rewrite (new_events_app _ _ _ Ht).
  split; [exact Hrun | exact Himages].
Qed.

(** * The further theorems at work on the example surroundings *)

Lemma live_timeout_on_first_stream_witness :
  let w := fresh (example_camera false false) in
  @stream_starves no_frames 0 w /\
  exists w',
    @readLiveFrames no_frames w = Done (ERR_TIMEOUT, 0) w' /\
    slept (new_events w w') = 5000.
Proof.
  intros w.
  assert (Hstarves : @stream_starves no_frames 0 w)
    by (intros j Hj; reflexivity).
  split; [exact Hstarves|].
  destruct (@live_timeout_on_first_stream no_frames w Hstarves)
    as (w' & Hrun & _ & _ & Hslept & _).
  exists w'. split; [exact Hrun | exact Hslept].
Defined.

Lemma live_timeout_on_second_stream_witness :
  let w := fresh (example_camera true false) in
  @stream_starves second_stream_silent 1 w /\
  @is_empty (@range_of second_stream_silent 0 w) = false /\
  exists w',
    @readLiveFrames second_stream_silent w = Done (ERR_TIMEOUT, 0) w' /\
    unmapped 0 (new_events w w') = [].
Proof.
  intros w.
  assert (Hstarves : @stream_starves second_stream_silent 1 w)
    by (intros j Hj; reflexivity).
  split; [exact Hstarves|].
  destruct (@live_timeout_on_second_stream second_stream_silent w
              eq_refl
              ltac:(apply Nat.ltb_lt; vm_compute; reflexivity)
              ltac:(vm_compute; discriminate) Hstarves)
    as (w' & Hrun & _ & Hrange & Hsilent & _).
  split; [exact Hrange|].
  exists w'. split; [exact Hrun | apply (Hsilent 0%nat)].
Defined.

Lemma snap_timeout_on_first_stream_witness :
  let w := fresh (example_camera false false) in
  @stream_starves no_frames 0 w /\
  exists w',
    @readSnapImageFrames no_frames w = Done ERR_TIMEOUT w' /\
    self w' = self w.
Proof.
  intros w.
  assert (Hstarves : @stream_starves no_frames 0 w)
    by (intros j Hj; reflexivity).
  split; [exact Hstarves|].
  destruct (@snap_timeout_on_first_stream no_frames w Hstarves)
    as (w' & Hrun & Hself & _).
  exists w'. split; [exact Hrun | exact Hself].
Defined.

Lemma snap_timeout_on_second_stream_witness :
  let w := fresh (example_camera true false) in
  @stream_starves second_stream_silent 1 w /\
  exists w',
    @readSnapImageFrames second_stream_silent w = Done ERR_TIMEOUT w' /\
    option_map GetPixels (imgs (self w') !! 0%nat)
    = Some [100; 100; 100; 100; 100; 100; 100; 100] /\
    unmapped 0 (new_events w w') = [192].
Proof.
  intros w.
  assert (Hstarves : @stream_starves second_stream_silent 1 w)
    by (intros j Hj; reflexivity).
  split; [exact Hstarves|].
  destruct (@snap_timeout_on_second_stream second_stream_silent w
              example_buffer eq_refl
              ltac:(apply Nat.ltb_lt; reflexivity)
              ltac:(apply Nat.ltb_lt; vm_compute; reflexivity)
              ltac:(vm_compute; discriminate) Hstarves)
    as (w' & copy & Hrun & Hcopy & _ & _ & Hpixels & _ & Hunmapped & _).
  exists w'. split; [exact Hrun|].
  split; [rewrite Hcopy; cbn [option_map]; rewrite Hpixels; reflexivity
         | exact Hunmapped].
Defined.

Lemma snap_copies_the_first_frame_witness :
  let w := fresh (example_camera true false) in
  @snap_ready scenario_B w /\
  exists w',
    @readSnapImageFrames scenario_B w = Done DEVICE_OK w' /\
    option_map GetPixels (imgs (self w') !! 1%nat)
    = Some [100; 100; 100; 100; 100; 100; 100; 100].
Proof.
  intros w.
  assert (Hready : @snap_ready scenario_B w).
  { concrete_ready. }
  split; [exact Hready|].
  destruct (@snap_copies_the_first_frame scenario_B w Hready)
    as (w' & Hrun & _ & Hcopies).
  exists w'. split; [exact Hrun|].
  destruct (Hcopies 1%nat example_buffer ltac:(right; reflexivity) eq_refl)
    as (copy & Hcopy & _ & Hpixels & _).
  rewrite Hcopy. cbn [option_map]. rewrite Hpixels. reflexivity.
Defined.

Lemma multi_channel_overflow_skips_the_rest_witness :
  let w := fresh (example_camera true false) in
  let md := {| CpxFrameId := 100; CpxTimeStamp := 100000 |} in
  exists w',
    @deliver second_insert_overflows md 100 w = Done tt w' /\
    core_calls (new_events w w')
    = [InsertImage 0 example_buffer md; InsertImage 1 example_buffer md;
       ClearImageBuffer].
Proof.
  intros w md.
  destruct (@multi_channel_overflow_skips_the_rest second_insert_overflows
              w md 100 1%nat eq_refl eq_refl
              ltac:(apply Nat.ltb_lt; reflexivity))
    as (w' & Hrun & Hcalls & _).
  - intros i Hi. assert (i = 0%nat) as -> by lia. discriminate.
  - reflexivity.
  - exists w'. split; [exact Hrun | exact Hcalls].
Defined.

Lemma multi_channel_inserts_every_buffer_witness :
  let w := fresh (example_camera true true) in
  let md := {| CpxFrameId := 100; CpxTimeStamp := 100000 |} in
  exists w',
    @deliver full_core md 100 w = Done tt w' /\
    core_calls (new_events w w')
    = [InsertImage 0 example_buffer md; InsertImage 1 example_buffer md].
Proof.
  intros w md.
  destruct (@multi_channel_inserts_every_buffer full_core w md 100 eq_refl)
    as (w' & Hrun & Hcalls & _).
  - intros i Hi. left. reflexivity.
  - exists w'. split; [exact Hrun | exact Hcalls].
Defined.

Lemma live_frames_reach_the_core_in_order_witness :
  let w := fresh (example_camera true false) in
  @cycle_ready scenario_B w /\
  exists w' rounds,
    @readLiveFrames scenario_B w = Done (DEVICE_OK, 3) w' /\
    core_calls (new_events w w') = concat rounds /\
    Forall2 (@round_calls scenario_B w)
            [4096; 4096 + 96 * 88; 4096 + 2 * 96 * 88] rounds.
Proof.
  intros w.
  assert (Hready : @cycle_ready scenario_B w).
  { concrete_ready. }
  split; [exact Hready|].
  destruct (@live_frames_reach_the_core_in_order scenario_B w Hready)
    as (w' & ks & rounds & Hrun & Hcalls & Hrounds & _).
  exists w', rounds.
  split; [exact Hrun|]. split; [exact Hcalls | exact Hrounds].
Defined.

Lemma stopOnOverflow_cycle_never_clears_witness :
  let w := fresh (example_camera false true) in
  @cycle_ready full_core w /\
  exists w',
    @readLiveFrames full_core w = Done (DEVICE_OK, 2) w' /\
    clears (new_events w w') = 0%nat /\
    insert_calls w' = 2%nat.
Proof.
  intros w.
  assert (Hready : @cycle_ready full_core w).
  { concrete_ready. }
  split; [exact Hready|].
  destruct (@stopOnOverflow_cycle_never_clears full_core w Hready eq_refl)
    as (w' & Hrun & Hclears & _ & Hcalls).
  exists w'. split; [exact Hrun|]. split; [exact Hclears | exact Hcalls].
Defined.

Lemma every_channel_has_a_name_and_a_buffer_witness :
  let w := fresh (example_camera true false) in
  GetNumberOfChannels w = Done 2 w /\
  (exists name, GetChannelName 1 w = Done (DEVICE_OK, Some name) w) /\
  GetImageBuffer 1 w = Done (pixels_of 1 (GetPixels example_buffer)) w.
Proof.
  intros w.
  destruct (every_channel_has_a_name_and_a_buffer w
              ltac:(apply Nat.leb_le; reflexivity) ltac:(reflexivity)
              ltac:(discriminate))
    as (n & Hcount & _ & Hchannels).
  injection Hcount as <-.
  split; [reflexivity|].
  destruct (Hchannels 1 ltac:(split; [lia | reflexivity]))
    as (Hname & b & Hb & Hbuffer).
  split; [exact Hname|]. injection Hb as <-. exact Hbuffer.
Defined.

Lemma OnDevice_second_camera_without_buffer_witness :
  let w := fresh (example_camera false false) in
  exists w',
    OnDevice "None" AfterSet w = Done (DEVICE_OK, "None"%string) w' /\
    GetImageBuffer_current w' = Undefined /\
    GetImageBuffer 0 w' = Undefined.
Proof.
  intros w.
  destruct (@OnDevice_second_camera_without_buffer scenario_A w "None"
              eq_refl ltac:(discriminate))
    as (w' & Hset & _ & Hcurrent & Hsingle).
  exists w'. split; [exact Hset|]. split; [exact Hcurrent|].
  apply (Hsingle eq_refl).
Defined.

Lemma Initialize_rejection_stores_the_selection_witness :
  let w := fresh (constructed false) in
  exists w',
    @Initialize scenario_A "None" "simulated: radial sin"
      (@configure_driver scenario_A) w
    = Done ERR_INVALID_CAMERA_SELECTION w' /\
    camera2 (self w') = "simulated: radial sin"%string /\
    multiChannel (self w') = false.
Proof.
  intros w.
  destruct (@Initialize_rejection_stores_the_selection scenario_A
              "None" "simulated: radial sin" (@configure_driver scenario_A)
      w
              eq_refl eq_refl)
    as (w' & Hrun & Hself & _).
  exists w'. split; [exact Hrun|]. rewrite Hself. split; reflexivity.
Defined.

Lemma setupBuffers_prepares_the_cycle_witness :
  let w := fresh (constructed true) in
  exists w',
    setupBuffers 320 240 1 true w = Done tt w' /\
    geometry (self w') = [(320, 240, 1); (320, 240, 1)] /\
    buffers_ok w'.
Proof.
  intros w.
  destruct (setupBuffers_prepares_the_cycle w 320 240 1
              ltac:(lia) ltac:(discriminate))
    as (w' & Hrun & Hgeometry & _ & Hok & _).
  exists w'. split; [exact Hrun|]. split; [exact Hgeometry | exact Hok].
Defined.

Lemma next_walks_contiguous_frames_witness :
  @next_frames scenario_A 4096 5 = [4096; 4192; 4288; 4384; 4480].
Proof.
  apply (@next_walks_contiguous_frames scenario_A 96 5 4096);
    [lia | lia | reflexivity |].
  intros j Hj.
  destruct j as [|[|[|[|[|j]]]]]; try reflexivity. lia.
Defined.



Lemma SnapImage_stops_the_driver_after_the_read_witness :
  let w := fresh (example_camera true false) in
  exists w1,
    forall cpx_stop,
      @SnapImage scenario_B cpx_stop w
      = (cpx_stop ;; ret (returned DEVICE_OK)) w1.
Proof.
  intros w.
  assert (Hfed : forall s, ~ @stream_starves scenario_B s w).
  { intros s Hstarves.
    specialize (Hstarves 0%nat ltac:(apply Nat.ltb_lt; reflexivity)).
    destruct s; discriminate. }
  destruct (@SnapImage_stops_the_driver_after_the_read scenario_B w
              eq_refl eq_refl ltac:(apply Nat.leb_le; reflexivity)
              ltac:(concrete_ready) ltac:(concrete_ready))
    as (r & w1 & t & _ & _ & [(_ & [H0 | (_ & H1)]) | (-> & _)] & Hrun).
  - destruct (Hfed _ H0).
  - destruct (Hfed _ H1).
  - exists w1. exact Hrun.
Defined.

Lemma Initialize_selection_witness :
  let w := fresh (constructed false) in
  exists w',
    @Initialize scenario_A "simulated: uniform random" "None"
      (@configure_driver scenario_A) w
    = Done DEVICE_OK w' /\
    demo (self w') = true.
Proof.
  intros w.
  assert (Hsel := @Initialize_selection scenario_A
                    "simulated: uniform random" "None"
                    (@configure_driver scenario_A) w
                    eq_refl).
  change (@rejected_selection scenario_A "simulated: uniform random" "None")
    with false in Hsel.
  cbv iota in Hsel. destruct Hsel as (w1 & Hrun & Hdemo & _).
  eexists. split; [rewrite Hrun; reflexivity|]. exact Hdemo.
Defined.

Lemma GetImageBuffer_without_buffers_witness :
  GetImageBuffer 0 (fresh (constructed false)) = Undefined.
Proof.
  apply GetImageBuffer_without_buffers; [reflexivity|].
  split; [lia | reflexivity].
Defined.

Lemma readLiveFrames_frame_offsets_witness :
  let w := fresh (example_camera true false) in
  @cycle_ready scenario_A w /\
  exists w',
    @readLiveFrames scenario_A w = Done (DEVICE_OK, 5) w' /\
    sources 0 (new_events w w') !! 1%nat = Some (4096 + 96 * 88).
Proof.
  intros w.
  assert (Hready : @cycle_ready scenario_A w).
  { concrete_ready. }
  split; [exact Hready|].
  destruct (@readLiveFrames_frame_offsets scenario_A w 1%nat Hready
              ltac:(split; [vm_compute; discriminate | reflexivity])
              ltac:(split; [lia | reflexivity]))
    as (w' & Hrun & Hsource).
  exists w'. split; [exact Hrun | exact Hsource].
Defined.

Lemma live_images_hold_the_frames_of_their_round_witness :
  let w := fresh (example_camera true false) in
  @cycle_ready scenario_B w /\
  exists w',
    @readLiveFrames scenario_B w = Done (DEVICE_OK, 3) w' /\
    Forall (@image_of_batch scenario_B true
              [4096; 4096 + 96 * 88; 4096 + 2 * 96 * 88]
              [8192; 8192 + 96 * 88; 8192 + 2 * 96 * 88])
           (new_events w w').
Proof.
  intros w.
  assert (Hready : @cycle_ready scenario_B w).
  { concrete_ready. }
  split; [exact Hready|].
  destruct (@live_images_hold_the_frames_of_their_round scenario_B w Hready)
    as (w' & Hrun & Himages).
  exists w'. split; [exact Hrun | exact Himages].
Defined.

Lemma batch_size_is_min_of_available_witness :
  let w := fresh (example_camera true false) in
  @cycle_ready scenario_B w /\
  exists w' rounds,
    @readLiveFrames scenario_B w = Done (DEVICE_OK, 3) w' /\
    Z.of_nat (length (sources 0 (new_events w w'))) = 3 /\
    core_calls (new_events w w') = concat rounds /\
    Z.of_nat (length rounds) = 3 /\
    Forall2 (@round_calls scenario_B w)
      [4096; 4096 + 96 * 88; 4096 + 2 * 96 * 88] rounds.
Proof.
  intros w.
  assert (Hready : @cycle_ready scenario_B w).
  { concrete_ready. }
  split; [exact Hready|].
  destruct (@batch_size_is_min_of_available scenario_B _ Hready)
    as (w' & rounds & Hrun & Hlen & _ & Hcalls & Hn & Hrounds & _).
  exists w', rounds. split; [exact Hrun|]. split; [exact Hlen|].
  split; [exact Hcalls|]. split; [exact Hn | exact Hrounds].
Defined.

Lemma snap_of_a_large_frame_overflows_witness :
  let w := fresh (example_camera false false) in
  @snap_bytes large_frame 0 w = 16 /\
  length (GetPixels example_buffer) = 8%nat /\
  @readSnapImageFrames large_frame w = Undefined.
Proof.
  intros w. split; [reflexivity|]. split; [reflexivity|].
  apply (@snap_of_a_large_frame_overflows large_frame w example_buffer).
  - reflexivity.
  - vm_compute. repeat constructor.
  - vm_compute. reflexivity.
Defined.
